(** * The outgoing transaction pool of the gravity bridge module

    A shallow embedding of [module/x/gravity/keeper/pool.go] and of the
    address and token value types of [module/x/gravity/types], followed by
    the properties of the pool established on that embedding.

    Conventions of the embedding:
    - Go's [uint64], [uint] and [int] are integers of [Z] with the 64-bit
      wrap-around written out ([wrap_uint64], [wrap_int64]);
    - [sdk.Int] is an integer of [Z]; its checked addition panics beyond
      [maxBitLen] bits, as the SDK's does;
    - a Go [panic] is the [Panicked] outcome of [Exec]; a returned [error]
      is an ordinary value ([option Error], [None] for [nil]);
    - the key-value store is a finite map; its iterators walk the keys in
      ascending (or, reversed, descending) key order;
    - the values held by the store are the decoded records: the binary codec
      ([k.cdc]) is taken to round-trip. *)

From Stdlib Require Import ZArith String Ascii List Bool Lia.
From Stdlib.Strings Require Import Byte.
From stdpp Require Import base decidable option list sorting gmap strings.

Local Open Scope Z_scope.
Local Open Scope string_scope.

(** ** Machine integers *)

Definition wrap_uint64 (z : Z) : Z := z mod 2 ^ 64.

Definition wrap_int64 (z : Z) : Z := (z + 2 ^ 63) mod 2 ^ 64 - 2 ^ 63.

(** [int(u)] for [u] of type [uint] or [uint64] (64-bit platform). *)
Definition int_of_uint (u : Z) : Z := wrap_int64 u.

(** ** Errors and panics *)

(** An argument rendered into a formatted message. *)
Inductive FmtArg : Type :=
| FmtString (s : string)
| FmtInt (n : Z)
| FmtCoins (denoms : list (string * Z)).

(** The [error] values that occur: the module's registered errors, errors
    made by [fmt.Errorf], and [sdkerrors.Wrap]/[Wrapf] around a cause. *)
Inductive Error : Type :=
| ErrInvalid
| ErrDuplicate
| ErrUnknown
| Errorf (format : string) (args : list FmtArg)
| Wrapf (cause : Error) (format : string) (args : list FmtArg).

Definition Wrap (cause : Error) (description : string) : Error :=
  Wrapf cause description [].

(** The registered error at the root of a chain of wraps. *)
Fixpoint error_root (e : Error) : Error :=
  match e with
  | Wrapf cause _ _ => error_root cause
  | _ => e
  end.

(** The values the code panics with: an [error], a plain string, a string
    made by [fmt.Sprintf] from a format and [error] arguments, and the
    runtime's own faults. *)
Inductive PanicValue : Type :=
| PanicError (e : Error)
| PanicString (msg : string)
| PanicSprintf (format : string) (args : list Error)
| PanicNilDereference
| PanicIntOverflow
| PanicIndexOutOfRange.

(** The outcome of running a piece of Go code: it returns, or it panics and
    the enclosing state transition is aborted. *)
Inductive Exec (A : Type) : Type :=
| Done (a : A)
| Panicked (p : PanicValue).

Arguments Done {A} a.
Arguments Panicked {A} p.

Definition exec_bind {A B : Type} (m : Exec A) (f : A -> Exec B) : Exec B :=
  match m with
  | Done a => f a
  | Panicked p => Panicked p
  end.

Notation "'do' x <- m ; k" := (exec_bind m (fun x => k))
  (at level 10, x name, m at level 100, k at level 200).
Notation "'do' ' pat <- m ; k" :=
  (exec_bind m (fun x => match x with pat => k end))
  (at level 10, pat pattern, m at level 100, k at level 200).

(** Dereferencing a pointer that may be [nil]. *)
Definition deref {A : Type} (p : option A) : Exec A :=
  match p with
  | Some a => Done a
  | None => Panicked PanicNilDereference
  end.

(** ** [sdk.Int] *)

(** [maxBitLen] of the SDK's [Int]. *)
Definition maxBitLen : Z := 255.

(** [big.Int.BitLen]: the length of the absolute value in bits. *)
Definition BitLen (i : Z) : Z := Z.log2 (Z.abs i) + (if Z.eqb i 0 then 0 else 1).

(** [Int.Add]: panics when the sum needs more than [maxBitLen] bits. *)
Definition Int_Add (i i2 : Z) : Exec Z :=
  let res := i + i2 in
  if Z.ltb maxBitLen (BitLen res) then Panicked PanicIntOverflow else Done res.

Definition Int_IsUint64 (i : Z) : bool := Z.leb 0 i && Z.ltb i (2 ^ 64).

Definition Int_IsNegative (i : Z) : bool := Z.ltb i 0.

(** ** [sdk.Coin] *)

Record Coin : Type := mkCoin { Denom : string; CoinAmount : Z }.

Definition Coins : Type := list Coin.

Definition is_letter (c : ascii) : bool :=
  let n := N_of_ascii c in
  ((65 <=? n) && (n <=? 90) || (97 <=? n) && (n <=? 122))%N.

Definition is_digit (c : ascii) : bool :=
  let n := N_of_ascii c in ((48 <=? n) && (n <=? 57))%N.

Definition is_denom_char (c : ascii) : bool :=
  is_letter c || is_digit c || Ascii.eqb c "/"%char.

Fixpoint string_forall (p : ascii -> bool) (s : string) : bool :=
  match s with
  | EmptyString => true
  | String c s' => p c && string_forall p s'
  end.

(** [sdk.ValidateDenom]: the denomination matches
    [[a-zA-Z][a-zA-Z0-9/]{2,127}]. *)
Definition ValidateDenom (denom : string) : bool :=
  match denom with
  | EmptyString => false
  | String c rest =>
      is_letter c && string_forall is_denom_char rest &&
      (2 <=? String.length rest)%nat && (String.length rest <=? 127)%nat
  end.

(** [Coin.IsValid]: a valid denomination and a non-negative amount. *)
Definition Coin_IsValid (coin : Coin) : bool :=
  ValidateDenom (Denom coin) && negb (Int_IsNegative (CoinAmount coin)).

(** [Coin.Add]: panics on differing denominations. *)
Definition Coin_Add (coin coinB : Coin) : Exec Coin :=
  if negb (String.eqb (Denom coin) (Denom coinB))
  then Panicked (PanicString "invalid coin denominations")
  else
    do sum <- Int_Add (CoinAmount coin) (CoinAmount coinB);
    Done (mkCoin (Denom coin) sum).

(** [Coin.Validate]: the error behind [IsValid], for the denomination
    first and for a negative amount second. *)
Definition Coin_Validate (coin : Coin) : option Error :=
  if negb (ValidateDenom (Denom coin))
  then Some (Errorf "invalid denom: %s" [FmtString (Denom coin)])
  else if Int_IsNegative (CoinAmount coin)
  then Some (Errorf "negative coin amount: %v" [FmtInt (CoinAmount coin)])
  else None.

(** [sdk.NewCoin]: panics with the validation error on an invalid coin. *)
Definition NewCoin (denom : string) (amount : Z) : Exec Coin :=
  let coin := mkCoin denom amount in
  match Coin_Validate coin with
  | Some err => Panicked (PanicError err)
  | None => Done coin
  end.

Definition fmt_coins (cs : Coins) : FmtArg :=
  FmtCoins (map (fun c => (Denom c, CoinAmount c)) cs).

(** [sdk.NewCoins] of a single coin: a zero coin is dropped, an invalid one
    panics with an error that names the coins. *)
Definition NewCoins (coin : Coin) : Exec Coins :=
  if Z.eqb (CoinAmount coin) 0 then Done []
  else if Coin_IsValid coin then Done [coin]
  else
    Panicked (PanicError (Errorf "invalid coin set: %s" [fmt_coins [coin]])).

(** ** [types.EthAddress] *)

(** [ModuleName] is declared in [types/keys.go]; no property below depends
    on its value. *)
Definition ModuleName : string := "gravity".
Definition GravityDenomPrefix : string := ModuleName.
Definition GravityDenomSeparator : string := "".
Definition ETHContractAddressLen : nat := 42.
Definition GravityDenomLen : nat :=
  (String.length GravityDenomPrefix + String.length GravityDenomSeparator
   + ETHContractAddressLen)%nat.
Definition ZeroAddressString : string :=
  "0x0000000000000000000000000000000000000000".

Record EthAddress : Type := mkEthAddress { address : string }.

Definition GetAddress (ea : EthAddress) : string := address ea.

Definition is_hex_digit (c : ascii) : bool :=
  let n := N_of_ascii c in
  ((48 <=? n) && (n <=? 57) || (65 <=? n) && (n <=? 70) ||
   (97 <=? n) && (n <=? 102))%N.

(** The regular expression [^0x[0-9a-fA-F]{40}$]. *)
Definition matches_eth_regex (s : string) : bool :=
  match s with
  | String "0" (String "x" rest) =>
      Nat.eqb (String.length rest) 40 && string_forall is_hex_digit rest
  | _ => false
  end.

Definition ValidateEthAddress (addr : string) : option Error :=
  if String.eqb addr "" then Some (Errorf "empty" [])
  else if negb (Nat.eqb (String.length addr) ETHContractAddressLen) then
    Some (Errorf "address(%s) of the wrong length exp(%d) actual(%d)"
            [FmtString addr; FmtInt (Z.of_nat ETHContractAddressLen);
             FmtInt (Z.of_nat (String.length addr))])
  else if negb (matches_eth_regex addr) then
    Some (Errorf "address(%s) doesn't pass regex" [FmtString addr])
  else None.

Definition NewEthAddress (addr : string) : option EthAddress * option Error :=
  match ValidateEthAddress addr with
  | Some err => (None, Some (Wrap err "invalid input address"))
  | None => (Some (mkEthAddress addr), None)
  end.

Definition ZeroAddress : EthAddress := mkEthAddress ZeroAddressString.

Definition EthAddress_ValidateBasic (ea : EthAddress) : option Error :=
  ValidateEthAddress (address ea).

(** EthAddrLessThan migrates the Ethereum address less than function. *)
Definition EthAddrLessThan (e o : EthAddress) : bool :=
  String.ltb (GetAddress e) (GetAddress o).

(** The body of [func (ea EthAddress) SetAddress]: [ea] is the method's own
    copy of the receiver; the body returns the final value of that copy
    together with the error. *)
Definition SetAddress_body (ea : EthAddress) (addr : string)
  : EthAddress * option Error :=
  match ValidateEthAddress addr with
  | Some err => (ea, Some err)
  | None => (mkEthAddress addr, None)
  end.

(** A call of a method declared with a value receiver: the body runs on a
    copy, the caller keeps its value and receives the result only. *)
Definition call_value_receiver {T R : Type} (body : T -> T * R) (caller : T)
  : T * R :=
  (caller, snd (body caller)).

(** A call of a method declared with a pointer receiver, for comparison: the
    body's writes reach the caller's value. *)
Definition call_pointer_receiver {T R : Type} (body : T -> T * R) (caller : T)
  : T * R :=
  body caller.

Definition SetAddress (ea : EthAddress) (addr : string)
  : EthAddress * option Error :=
  call_value_receiver (fun self => SetAddress_body self addr) ea.

(** ** [types.OptionalEthAddress] *)

Record OptionalEthAddress : Type := mkOptionalEthAddress {
  isNil : bool;
  optional : option EthAddress
}.

Definition IsNil (o : OptionalEthAddress) : bool := isNil o.

Definition Unwrap (o : OptionalEthAddress) : option EthAddress * option Error :=
  if isNil o then (None, Some (Errorf "nil value" []))
  else (optional o, None).

Definition SetEthAddress_body (o : OptionalEthAddress)
    (ethAddress : option EthAddress) : OptionalEthAddress * unit :=
  match ethAddress with
  | None => (mkOptionalEthAddress true None, tt)
  | Some a => (mkOptionalEthAddress false (Some a), tt)
  end.

Definition SetEthAddress (o : OptionalEthAddress)
    (ethAddress : option EthAddress) : OptionalEthAddress * unit :=
  call_value_receiver (fun self => SetEthAddress_body self ethAddress) o.

Definition NilEthAddress : OptionalEthAddress :=
  mkOptionalEthAddress true None.

Definition NewOptionalEthAddress (addr : string)
  : OptionalEthAddress * option Error :=
  let '(ethAddress, err) := NewEthAddress addr in
  (mkOptionalEthAddress (match ethAddress with None => true | Some _ => false end)
     ethAddress, err).

Definition OptionalEthAddress_ValidateBasic (oea : OptionalEthAddress)
  : option Error :=
  match isNil oea, optional oea with
  | true, Some _ => Some (Errorf "supposed to be nil but isn't" [])
  | false, None => Some (Errorf "not supposed to be nil but is" [])
  | false, Some a => EthAddress_ValidateBasic a
  | true, None => None
  end.

(** ** [types.ERC20Token] *)

(** [Contract] holds the contract's address string; where the keeper writes
    [fee.Contract.Address] it reads this string. *)
Record ERC20Token : Type := mkERC20Token { Amount : Z; Contract : string }.

Definition NewERC20Token (amount : Z) (contract : EthAddress) : ERC20Token :=
  mkERC20Token amount (GetAddress contract).

Definition NewSDKIntERC20Token (amount : Z) (contract : EthAddress)
  : ERC20Token :=
  mkERC20Token amount (GetAddress contract).

Definition GravityDenom (tokenContract : EthAddress) : string :=
  (GravityDenomPrefix ++ GravityDenomSeparator ++ GetAddress tokenContract)%string.

Definition GravityCoin (e : ERC20Token) : Exec Coin :=
  let '(contract, err) := NewEthAddress (Contract e) in
  match err with
  | Some err => Panicked (PanicSprintf "invalid contract address" [err])
  | None =>
      do contract <- deref contract;
      NewCoin (GravityDenom contract) (Amount e)
  end.

Definition ERC20Token_ValidateBasic (e : ERC20Token) : option Error :=
  let '(_, err) := NewEthAddress (Contract e) in
  match err with
  | Some err => Some (Wrap err "ethereum address")
  | None => None
  end.

(** [strings.HasPrefix] and [strings.TrimPrefix] in one: the rest of [s]
    after the prefix [p], if [s] begins with [p]. *)
Fixpoint strip_prefix (p s : string) : option string :=
  match p, s with
  | EmptyString, _ => Some s
  | String a p', String b s' =>
      if Ascii.eqb a b then strip_prefix p' s' else None
  | _, _ => None
  end.

Definition GravityDenomToERC20 (denom : string)
  : option EthAddress * option Error :=
  let fullPrefix := (GravityDenomPrefix ++ GravityDenomSeparator)%string in
  match strip_prefix fullPrefix denom with
  | None =>
      (None, Some (Errorf "denom prefix(%s) not equal to expected(%s)"
                     [FmtString denom; FmtString fullPrefix]))
  | Some rest =>
      let '(contract, err) := NewEthAddress rest in
      match err with
      | Some _ =>
          (None,
           Some (Errorf "error(%s) validating ethereum contract address" []))
      | None =>
          if negb (Nat.eqb (String.length denom) GravityDenomLen) then
            (None,
             Some (Errorf
                     "len(denom)(%d) not equal to GravityDenomLen(%d)"
                     [FmtInt (Z.of_nat (String.length denom));
                      FmtInt (Z.of_nat GravityDenomLen)]))
          else (contract, None)
      end
  end.

(** [ERC20Token.Add]. *)
Definition ERC20Token_Add (e o : ERC20Token) : Exec ERC20Token :=
  let '(eContract, eErr) := NewEthAddress (Contract e) in
  match eErr with
  | Some eErr =>
      Panicked (PanicSprintf "invalid parent contract address: %v" [eErr])
  | None =>
      let '(oContract, oErr) := NewEthAddress (Contract o) in
      match oErr with
      | Some oErr =>
          Panicked
            (PanicSprintf "invalid argument contract address: %v" [oErr])
      | None =>
          do eContract <- deref eContract;
          do oContract <- deref oContract;
          if negb (String.eqb (GetAddress eContract) (GetAddress oContract))
          then Panicked (PanicString "inconsistent contract addresses")
          else
            do sum <- Int_Add (Amount e) (Amount o);
            if negb (Int_IsUint64 sum)
            then Panicked (PanicString "invalid amount")
            else Done (NewERC20Token sum eContract)
      end
  end.

(** ** [sdk.AccAddress] *)

Definition AccAddress : Type := list byte.

#[global] Instance byte_eq_decision : EqDecision byte := Byte.byte_eq_dec.

Definition Empty (aa : AccAddress) : bool :=
  match aa with [] => true | _ => false end.

(** [AccAddress.Equals]: two empty addresses are equal, otherwise the bytes
    are compared. *)
Definition Equals (aa aa2 : AccAddress) : bool :=
  if Empty aa && Empty aa2 then true else bool_decide (aa = aa2).

(** The SDK's bech32 rendering and parsing of account addresses. *)
Class AddressCodec : Type := {
  AccAddress_String : AccAddress -> string;
  AccAddressFromBech32 : string -> AccAddress * option Error
}.

(** ** [types.OutgoingTransferTx] and [types.BatchFees] *)

Record OutgoingTransferTx : Type := mkOutgoingTransferTx {
  Id : Z;
  Sender : string;
  DestAddress : EthAddress;
  Erc20Token : ERC20Token;
  Erc20Fee : ERC20Token
}.

Record BatchFees : Type := mkBatchFees { Token : EthAddress; TotalFees : Z }.

(** ** The key-value store *)

(** Modelled from the spec: [types.GetOutgoingTxPoolKey],
    [types.GetOutgoingTxPoolContractPrefix], [types.OutgoingTXPoolKey] and
    [prefixRange] are declared outside the inspected files. The pool key is
    the composite of the fee's contract, the fee's amount and the id; keys
    are ordered by contract, then by amount, then by id, and the range of a
    contract prefix is the set of keys of that contract. *)
Record PoolKey : Type := mkPoolKey {
  key_contract : string;
  key_amount : Z;
  key_id : Z
}.

#[global] Instance PoolKey_eq_decision : EqDecision PoolKey.
Proof. solve_decision. Defined.

#[global] Instance PoolKey_countable : Countable PoolKey.
Proof.
  refine (inj_countable'
            (fun k => (key_contract k, key_amount k, key_id k))
            (fun t => mkPoolKey t.1.1 t.1.2 t.2) _).
  by intros [].
Defined.

(** Modelled from the spec: [types.GetOutgoingTxPoolKey], the composite key
    derived from the fee's contract, the fee's amount and the id. *)
Definition GetOutgoingTxPoolKey (fee : ERC20Token) (id : Z) : PoolKey :=
  mkPoolKey (Contract fee) (Amount fee) id.

(** Modelled from the spec: the two prefixes [pool.go] iterates under,
    [types.OutgoingTXPoolKey] for the whole pool and the prefix of one
    contract. *)
Inductive PoolPrefix : Type :=
| OutgoingTXPoolKey
| ContractPrefix (contract : string).

(** Modelled from the spec: [types.GetOutgoingTxPoolContractPrefix], the
    prefix that scopes an iteration to one contract. *)
Definition GetOutgoingTxPoolContractPrefix (contractAddress : EthAddress)
  : PoolPrefix :=
  ContractPrefix (GetAddress contractAddress).

(** Modelled from the spec: [prefixRange], the keys that begin with a
    prefix: every key of the pool, respectively the keys of the contract. *)
Definition prefixRange (prefixKey : PoolPrefix) (key : PoolKey) : bool :=
  match prefixKey with
  | OutgoingTXPoolKey => true
  | ContractPrefix c => String.eqb c (key_contract key)
  end.

(** Modelled from the spec: the order of the composite keys, by contract
    (strings compare byte by byte), then by fee amount, then by id, so that
    walking the keys of one contract downwards yields descending fees and,
    among equal fees, descending ids. *)
Definition key_compare (a b : PoolKey) : comparison :=
  match String.compare (key_contract a) (key_contract b) with
  | Eq =>
      match Z.compare (key_amount a) (key_amount b) with
      | Eq => Z.compare (key_id a) (key_id b)
      | c => c
      end
  | c => c
  end.

Definition key_leb (a b : PoolKey) : bool :=
  match key_compare a b with Gt => false | _ => true end.

Definition entry_le (x y : PoolKey * OutgoingTransferTx) : Prop :=
  key_leb x.1 y.1.

(** The store of the module: the pool entries under their composite keys and
    the byte-valued entries that hold the id counters. *)
Record KVStore : Type := mkKVStore {
  pool : gmap PoolKey OutgoingTransferTx;
  sequences : gmap string (list byte)
}.

Definition store_Has (store : KVStore) (key : PoolKey) : bool :=
  bool_decide (is_Some (pool store !! key)).

Definition store_Get (store : KVStore) (key : PoolKey)
  : option OutgoingTransferTx :=
  pool store !! key.

Definition store_Set (store : KVStore) (key : PoolKey)
    (val : OutgoingTransferTx) : KVStore :=
  mkKVStore (<[key := val]> (pool store)) (sequences store).

Definition store_Delete (store : KVStore) (key : PoolKey) : KVStore :=
  mkKVStore (delete key (pool store)) (sequences store).

(** [store.Iterator] over a range: the entries in ascending key order. *)
Definition Iterator (store : KVStore) (range : PoolKey -> bool)
  : list (PoolKey * OutgoingTransferTx) :=
  merge_sort entry_le
    (filter (fun e => Is_true (range e.1)) (map_to_list (pool store))).

(** [store.ReverseIterator]: the same entries in descending key order. *)
Definition ReverseIterator (store : KVStore) (range : PoolKey -> bool)
  : list (PoolKey * OutgoingTransferTx) :=
  reverse (Iterator store range).

(** ** Big-endian counters *)

Definition byte_of_Z (z : Z) : byte :=
  match Byte.of_N (Z.to_N (z mod 256)) with
  | Some b => b
  | None => x00
  end.

Definition Z_of_byte (b : byte) : Z := Z.of_N (Byte.to_N b).

(** [sdk.Uint64ToBigEndian]. *)
Definition Uint64ToBigEndian (i : Z) : list byte :=
  map (fun k => byte_of_Z (Z.shiftr i (8 * k))) [7; 6; 5; 4; 3; 2; 1; 0].

(** [binary.BigEndian.Uint64]: reads the first eight bytes, panics on a
    shorter slice. *)
Definition BigEndian_Uint64 (bz : list byte) : Exec Z :=
  if (length bz <? 8)%nat then Panicked PanicIndexOutOfRange
  else Done (fold_left (fun acc b => acc * 256 + Z_of_byte b) (take 8 bz) 0).

(** [types.KeyLastTXPoolID], the key of the counter of the pool; it is
    declared in [types/key.go] and only its identity matters. *)
Definition KeyLastTXPoolID : string := "lastTxPoolId".

Definition autoIncrementID (store : KVStore) (idKey : string)
  : Exec (Z * KVStore) :=
  let bz := sequences store !! idKey in
  do id <- match bz with
       | None => Done 1
       | Some bz => BigEndian_Uint64 bz
       end;
  let bz := Uint64ToBigEndian (wrap_uint64 (id + 1)) in
  Done (id, mkKVStore (pool store) (<[idKey := bz]> (sequences store))).

(** ** The unbatched pool *)

(** addUnbatchedTx creates a new transaction in the pool. *)
Definition addUnbatchedTX (store : KVStore) (val : OutgoingTransferTx)
  : KVStore * option Error :=
  let idxKey := GetOutgoingTxPoolKey (Erc20Fee val) (Id val) in
  if store_Has store idxKey
  then (store, Some (Wrap ErrDuplicate "transaction already in pool"))
  else (store_Set store idxKey val, None).

(** removeUnbatchedTX removes the tx from the pool. *)
Definition removeUnbatchedTX (store : KVStore) (fee : ERC20Token) (txID : Z)
  : KVStore * option Error :=
  let idxKey := GetOutgoingTxPoolKey fee txID in
  if negb (store_Has store idxKey)
  then (store, Some (Wrap ErrUnknown "pool transaction"))
  else (store_Delete store idxKey, None).

(** GetUnbatchedTxByFeeAndId grabs a tx from the pool given its fee and
    txID. *)
Definition GetUnbatchedTxByFeeAndId (store : KVStore) (fee : ERC20Token)
    (txID : Z) : option OutgoingTransferTx * option Error :=
  match store_Get store (GetOutgoingTxPoolKey fee txID) with
  | None => (None, Some (Wrap ErrUnknown "pool transaction"))
  | Some r => (Some r, None)
  end.

(** The loop of [IterateUnbatchedTransactions] over the entries the iterator
    yields. The callback [cb] acts on the variables it captures ([Acc]) and
    returns [true] to stop early. *)
Fixpoint iterate_entries {Acc : Type}
    (cb : Acc -> PoolKey -> OutgoingTransferTx -> Exec (Acc * bool))
    (entries : list (PoolKey * OutgoingTransferTx)) (acc : Acc) : Exec Acc :=
  match entries with
  | [] => Done acc
  | (key, transact) :: rest =>
      do '(acc, stop) <- cb acc key transact;
      if stop then Done acc else iterate_entries cb rest acc
  end.

(** IterateUnbatchedTransactions iterates through all unbatched transactions
    whose keys begin with prefixKey in DESC order. *)
Definition IterateUnbatchedTransactions {Acc : Type} (store : KVStore)
    (prefixKey : PoolPrefix)
    (cb : Acc -> PoolKey -> OutgoingTransferTx -> Exec (Acc * bool))
    (acc : Acc) : Exec Acc :=
  iterate_entries cb (ReverseIterator store (prefixRange prefixKey)) acc.

Definition IterateUnbatchedTransactionsByContract {Acc : Type}
    (store : KVStore) (contractAddress : EthAddress)
    (cb : Acc -> PoolKey -> OutgoingTransferTx -> Exec (Acc * bool))
    (acc : Acc) : Exec Acc :=
  IterateUnbatchedTransactions store
    (GetOutgoingTxPoolContractPrefix contractAddress) cb acc.

(** GetUnbatchedTxById grabs a tx from the pool given only the txID. *)
Definition GetUnbatchedTxById (store : KVStore) (txID : Z)
  : Exec (option OutgoingTransferTx * option Error) :=
  do r <- IterateUnbatchedTransactions store OutgoingTXPoolKey
        (fun (r : option OutgoingTransferTx) _ tx =>
           if Z.eqb (Id tx) txID then Done (Some tx, true)
           else Done (r, false))
        None;
  match r with
  | None => Done (None, Some (Wrap ErrUnknown "pool transaction"))
  | Some tx => Done (Some tx, None)
  end.

(** Aggregates all unbatched transactions in the store with a given
    prefix. *)
Definition collectUnbatchedTransactions (store : KVStore)
    (prefixKey : PoolPrefix) : Exec (list OutgoingTransferTx) :=
  IterateUnbatchedTransactions store prefixKey
    (fun (out : list OutgoingTransferTx) _ tx => Done ((out ++ [tx])%list, false))
    [].

Definition GetUnbatchedTransactionsByContract (store : KVStore)
    (contractAddress : EthAddress) : Exec (list OutgoingTransferTx) :=
  collectUnbatchedTransactions store
    (GetOutgoingTxPoolContractPrefix contractAddress).

Definition GetUnbatchedTransactions (store : KVStore)
  : Exec (list OutgoingTransferTx) :=
  collectUnbatchedTransactions store OutgoingTXPoolKey.

(** ** Batch fees *)

(** The callback of [GetBatchFeeByTokenType]; it captures [batchFee] and
    [txCount]. *)
Definition batchFee_cb (tokenContractAddr : EthAddress) (maxElements : Z)
    (acc : BatchFees * Z) (_ : PoolKey) (tx : OutgoingTransferTx)
  : Exec ((BatchFees * Z) * bool) :=
  let '(batchFee, txCount) := acc in
  let fee := Erc20Fee tx in
  if negb (String.eqb (Contract fee) (address tokenContractAddr))
  then Panicked (PanicError
         (Errorf
            "unexpected fee contract %s when getting batch fees for contract %s"
            [FmtString (Contract fee);
             FmtString (address tokenContractAddr)]))
  else
    do total <- Int_Add (TotalFees batchFee) (Amount fee);
    let txCount := wrap_int64 (txCount + 1) in
    Done ((mkBatchFees (Token batchFee) total, txCount),
          Z.eqb txCount (int_of_uint maxElements)).

(** GetBatchFeeByTokenType gets the fee the next batch of a given token type
    would have if created right now. *)
Definition GetBatchFeeByTokenType (store : KVStore)
    (tokenContractAddr : EthAddress) (maxElements : Z) : Exec BatchFees :=
  do r <- IterateUnbatchedTransactions store
        (GetOutgoingTxPoolContractPrefix tokenContractAddr)
        (batchFee_cb tokenContractAddr maxElements)
        (mkBatchFees tokenContractAddr 0, 0);
  Done (fst r).

(** Helper method for creating batch fees. A missing count reads as 0. *)
Definition addFeeToMap (fee : ERC20Token)
    (batchFeesMap : gmap string BatchFees) (txCountMap : gmap string Z)
  : Exec (gmap string BatchFees * gmap string Z) :=
  let txCountMap :=
    <[Contract fee := wrap_int64 (default 0 (txCountMap !! Contract fee) + 1)]>
      txCountMap in
  match batchFeesMap !! Contract fee with
  | Some b =>
      do total <- Int_Add (TotalFees b) (Amount fee);
      Done (<[Contract fee := mkBatchFees (Token b) total]> batchFeesMap,
            txCountMap)
  | None =>
      Done (<[Contract fee :=
                mkBatchFees (mkEthAddress (Contract fee)) (Amount fee)]>
              batchFeesMap,
            txCountMap)
  end.

Definition createBatchFees_cb (maxElements : Z)
    (acc : gmap string BatchFees * gmap string Z) (_ : PoolKey)
    (tx : OutgoingTransferTx)
  : Exec ((gmap string BatchFees * gmap string Z) * bool) :=
  let '(batchFeesMap, txCountMap) := acc in
  let fee := Erc20Fee tx in
  if Z.ltb (default 0 (txCountMap !! Contract fee)) (int_of_uint maxElements)
  then
    do acc' <- addFeeToMap fee batchFeesMap txCountMap;
    Done (acc', false)
  else Done (acc, false).

(** createBatchFees iterates over the unbatched transaction pool and creates
    batch token fee map. *)
Definition createBatchFees (store : KVStore) (maxElements : Z)
  : Exec (gmap string BatchFees) :=
  do r <- IterateUnbatchedTransactions store OutgoingTXPoolKey
        (createBatchFees_cb maxElements)
        ((∅ : gmap string BatchFees), (∅ : gmap string Z));
  Done (fst r).

(** [sort.Slice]: a comparison sort driven by [less] alone. It is rendered
    by insertion sort, which the library runs on short slices. *)
Fixpoint sort_insert {A : Type} (less : A -> A -> bool) (x : A) (l : list A)
  : list A :=
  match l with
  | [] => [x]
  | y :: l' => if less x y then x :: y :: l' else y :: sort_insert less x l'
  end.

Definition sort_Slice {A : Type} (less : A -> A -> bool) (l : list A)
  : list A :=
  fold_left (fun sorted x => sort_insert less x sorted) l [].

(** The comparison of [GetAllBatchFees]. *)
Definition token_less (a b : BatchFees) : bool :=
  String.ltb (address (Token a)) (address (Token b)).

(** Go leaves the order in which [range] walks a map unspecified: a run of
    [GetAllBatchFees] is fixed by the order [rangeOrder] the runtime happens
    to pick, which yields each entry of the map exactly once. *)
Definition range_order (rangeOrder : gmap string BatchFees ->
                                     list (string * BatchFees)) : Prop :=
  forall m, rangeOrder m ≡ₚ map_to_list m.

(** GetAllBatchFees creates a fee entry for every batch type currently in
    the store. *)
Definition GetAllBatchFees
    (rangeOrder : gmap string BatchFees -> list (string * BatchFees))
    (store : KVStore) (maxElements : Z) : Exec (list BatchFees) :=
  do batchFeesMap <- createBatchFees store maxElements;
  let batchFees :=
    fold_left (fun batchFees kv => (batchFees ++ [kv.2])%list)
      (rangeOrder batchFeesMap) [] in
  Done (sort_Slice token_less batchFees).

(** ** The keeper and its collaborators *)

Record Event : Type := mkEvent {
  event_type : string;
  event_attributes : list (string * FmtArg)
}.

(** The event types and attribute keys are declared in [types/events.go];
    no property below depends on their values. *)
Definition EventTypeBridgeWithdrawalReceived : string := "withdrawal_received".
Definition EventTypeBridgeWithdrawCanceled : string := "withdraw_canceled".
Definition AttributeKeyModule : string := "module".
Definition AttributeKeyContract : string := "bridge_contract".
Definition AttributeKeyBridgeChainID : string := "bridge_chain_id".
Definition AttributeKeyOutgoingTXID : string := "outgoing_tx_id".
Definition AttributeKeyNonce : string := "nonce".

(** The outcome of a custody operation of the bank: the operations are
    atomic, a failing one leaves the balances as they were. *)
Inductive BankResult (Bank : Type) : Type :=
| BankOk (bank : Bank)
| BankError (err : Error).

Arguments BankOk {Bank} bank.
Arguments BankError {Bank} err.

(** [types.BankKeeper], the interface behind [k.bankKeeper]. *)
Class BankKeeper (Bank : Type) : Type := {
  SendCoinsFromAccountToModule :
    Bank -> AccAddress -> string -> Coins -> BankResult Bank;
  SendCoinsFromModuleToAccount :
    Bank -> string -> AccAddress -> Coins -> BankResult Bank;
  BurnCoins : Bank -> string -> Coins -> BankResult Bank;
  MintCoins : Bank -> string -> Coins -> BankResult Bank
}.

(** The keeper methods that [pool.go] calls and that are declared in other
    files of the keeper; none of them writes to the pool, to the id counter
    or to the bank. *)
Record Keeper : Type := mkKeeper {
  DenomToERC20Lookup : string -> bool * OptionalEthAddress * option Error;
  ERC20ToDenomLookup : string -> bool * string;
  GetBridgeContractAddress : string;
  GetBridgeChainID : Z
}.

(** [sdk.Context]: the store, the balances and the event manager the call
    runs on. *)
Record Context (Bank : Type) : Type := mkContext {
  ctx_is_zero : bool;
  kvstore : KVStore;
  bank : Bank;
  events : list Event
}.

Arguments mkContext {Bank} _ _ _ _.
Arguments ctx_is_zero {Bank} _.
Arguments kvstore {Bank} _.
Arguments bank {Bank} _.
Arguments events {Bank} _.

(** [totalToRefundCoins] of [RemoveFromOutgoingPoolAndRefund]: the amount
    and the fee of the transfer, reissued as one coin of the voucher of its
    token. *)
Definition refund_coins (tx : OutgoingTransferTx) : Exec Coins :=
  do totalToRefund <- GravityCoin (Erc20Token tx);
  do refundAmount <- Int_Add (CoinAmount totalToRefund)
                       (Amount (Erc20Fee tx));
  let totalToRefund := mkCoin (Denom totalToRefund) refundAmount in
  NewCoins totalToRefund.

Section keeper.
Context {Bank : Type} `{!BankKeeper Bank} `{!AddressCodec}.
Variable k : Keeper.

Definition IsZero (ctx : Context Bank) : bool := ctx_is_zero ctx.

Definition with_store (ctx : Context Bank) (store : KVStore) : Context Bank :=
  mkContext (ctx_is_zero ctx) store (bank ctx) (events ctx).

Definition with_bank (ctx : Context Bank) (b : Bank) : Context Bank :=
  mkContext (ctx_is_zero ctx) (kvstore ctx) b (events ctx).

Definition EmitEvent (ctx : Context Bank) (e : Event) : Context Bank :=
  mkContext (ctx_is_zero ctx) (kvstore ctx) (bank ctx)
    (events ctx ++ [e])%list.

(** The second half of [AddToOutgoingPool], entered once the coins are in
    custody. *)
Definition AddToOutgoingPool_record (ctx : Context Bank)
    (sender : AccAddress) (ethReceiver : EthAddress) (amount fee : Coin)
    (contractAddr : option EthAddress)
  : Exec ((Z * option Error) * Context Bank) :=
  do '(nextID, store) <- autoIncrementID (kvstore ctx) KeyLastTXPoolID;
  let ctx := with_store ctx store in
  do contract <- deref contractAddr;
  let erc20Fee := NewSDKIntERC20Token (CoinAmount fee) contract in
  let outgoing :=
    mkOutgoingTransferTx nextID (AccAddress_String sender) ethReceiver
      (NewSDKIntERC20Token (CoinAmount amount) contract) erc20Fee in
  let '(store, _) := addUnbatchedTX (kvstore ctx) outgoing in
  let ctx := with_store ctx store in
  let poolEvent :=
    mkEvent EventTypeBridgeWithdrawalReceived
      [(AttributeKeyModule, FmtString ModuleName);
       (AttributeKeyContract, FmtString (GetBridgeContractAddress k));
       (AttributeKeyBridgeChainID, FmtInt (wrap_int64 (GetBridgeChainID k)));
       (AttributeKeyOutgoingTXID, FmtInt (wrap_int64 nextID));
       (AttributeKeyNonce, FmtInt nextID)] in
  Done ((nextID, None), EmitEvent ctx poolEvent).

(** AddToOutgoingPool
    - checks a counterpart denominator exists for the given voucher type
    - burns the voucher for transfer amount and fees
    - persists an OutgoingTx
    - adds the TX to the [available] TX pool *)
Definition AddToOutgoingPool (ctx : Context Bank) (sender : AccAddress)
    (ethReceiver : EthAddress) (amount fee : Coin)
  : Exec ((Z * option Error) * Context Bank) :=
  if IsZero ctx || Empty sender ||
     bool_decide (is_Some (EthAddress_ValidateBasic ethReceiver)) ||
     negb (Coin_IsValid amount) || negb (Coin_IsValid fee) ||
     negb (String.eqb (Denom fee) (Denom amount))
  then Done ((0, Some (Wrap ErrInvalid "arguments")), ctx)
  else
    do totalAmount <- Coin_Add amount fee;
    let totalInVouchers := [totalAmount] in
    let '(isCosmosOriginated, tokenContract, err) :=
      DenomToERC20Lookup k (Denom totalAmount) in
    match err with
    | Some err => Done ((0, Some err), ctx)
    | None =>
        let '(contractAddr, _) := Unwrap tokenContract in
        if isCosmosOriginated then
          match SendCoinsFromAccountToModule (bank ctx) sender ModuleName
                  totalInVouchers with
          | BankError err => Done ((0, Some err), ctx)
          | BankOk b =>
              AddToOutgoingPool_record (with_bank ctx b) sender ethReceiver
                amount fee contractAddr
          end
        else
          match SendCoinsFromAccountToModule (bank ctx) sender ModuleName
                  totalInVouchers with
          | BankError err => Done ((0, Some err), ctx)
          | BankOk b =>
              match BurnCoins b ModuleName totalInVouchers with
              | BankError err => Panicked (PanicError err)
              | BankOk b =>
                  AddToOutgoingPool_record (with_bank ctx b) sender
                    ethReceiver amount fee contractAddr
              end
          end
    end.

(** [AddToOutgoingPool] as it is declared, on the pointer [ethReceiver],
    which a caller may leave [nil]. The guard is evaluated from left to
    right, and [ethReceiver.ValidateBasic()] has a value receiver: it reads
    through the pointer, which happens only once the context is found valid
    and the sender not empty. On a pointer that is not [nil] the call is
    [AddToOutgoingPool] on the address it points to. *)
Definition AddToOutgoingPool_ptr (ctx : Context Bank) (sender : AccAddress)
    (ethReceiver : option EthAddress) (amount fee : Coin)
  : Exec ((Z * option Error) * Context Bank) :=
  if IsZero ctx || Empty sender
  then Done ((0, Some (Wrap ErrInvalid "arguments")), ctx)
  else
    do ethReceiver <- deref ethReceiver;
    AddToOutgoingPool ctx sender ethReceiver amount fee.

(** The custody reversal and the event of
    [RemoveFromOutgoingPoolAndRefund], entered once the entry is out of
    the pool. *)
Definition RemoveFromOutgoingPool_refund (ctx : Context Bank)
    (tx : OutgoingTransferTx) (sender : AccAddress)
  : Exec (option Error * Context Bank) :=
  do totalToRefundCoins <- refund_coins tx;
  let '(isCosmosOriginated, _) :=
    ERC20ToDenomLookup k (Contract (Erc20Token tx)) in
  let finish (ctx : Context Bank) :=
    let poolEvent :=
      mkEvent EventTypeBridgeWithdrawCanceled
        [(AttributeKeyModule, FmtString ModuleName);
         (AttributeKeyContract, FmtString (GetBridgeContractAddress k));
         (AttributeKeyBridgeChainID,
          FmtInt (wrap_int64 (GetBridgeChainID k)))] in
    Done (None, EmitEvent ctx poolEvent) in
  if isCosmosOriginated then
    match SendCoinsFromModuleToAccount (bank ctx) ModuleName sender
            totalToRefundCoins with
    | BankError err => Done (Some err, ctx)
    | BankOk b => finish (with_bank ctx b)
    end
  else
    match MintCoins (bank ctx) ModuleName totalToRefundCoins with
    | BankError err =>
        Done (Some (Wrapf err "mint vouchers coins: %s"
                      [fmt_coins totalToRefundCoins]), ctx)
    | BankOk b =>
        let ctx := with_bank ctx b in
        match SendCoinsFromModuleToAccount (bank ctx) ModuleName sender
                totalToRefundCoins with
        | BankError err => Done (Some (Wrap err "transfer vouchers"), ctx)
        | BankOk b => finish (with_bank ctx b)
        end
    end.

(** RemoveFromOutgoingPoolAndRefund
    - checks that the provided tx actually exists
    - deletes the unbatched tx from the pool
    - issues the tokens back to the sender *)
Definition RemoveFromOutgoingPoolAndRefund (ctx : Context Bank) (txId : Z)
    (sender : AccAddress) : Exec (option Error * Context Bank) :=
  if IsZero ctx || Z.ltb txId 1 || Empty sender
  then Done (Some (Wrap ErrInvalid "arguments"), ctx)
  else
    do '(tx, err) <- GetUnbatchedTxById (kvstore ctx) txId;
    match err with
    | Some err => Done (Some err, ctx)
    | None =>
        do tx <- deref tx;
        let '(txSender, err) := AccAddressFromBech32 (Sender tx) in
        match err with
        | Some _ => Panicked (PanicString "Invalid address in store!")
        | None =>
            if negb (Equals txSender sender) then
              Done (Some (Wrapf ErrInvalid "Sender %s did not send Id %d"
                            [FmtString (AccAddress_String sender);
                             FmtInt txId]), ctx)
            else if negb (String.eqb (Contract (Erc20Fee tx))
                            (Contract (Erc20Token tx))) then
              Done (Some (Wrapf ErrInvalid
                            "Inconsistent tokens to cancel!: %s %s"
                            [FmtString (Contract (Erc20Fee tx));
                             FmtString (Contract (Erc20Token tx))]), ctx)
            else
              let '(store, err) :=
                removeUnbatchedTX (kvstore ctx) (Erc20Fee tx) txId in
              let ctx := with_store ctx store in
              match err with
              | Some _ =>
                  Done (Some (Wrapf ErrInvalid
                    "txId %d not in unbatched index! Must be in a batch!"
                    [FmtInt txId]), ctx)
              | None =>
                  let '(oldTx, oldTxErr) :=
                    GetUnbatchedTxByFeeAndId (kvstore ctx) (Erc20Fee tx)
                      (Id tx) in
                  if bool_decide (is_Some oldTx) ||
                     bool_decide (oldTxErr = None)
                  then
                    Done (Some (Wrapf ErrInvalid
                      "tx with id %d was not fully removed from the pool, a duplicate must exist"
                      [FmtInt txId]), ctx)
                  else RemoveFromOutgoingPool_refund ctx tx sender
              end
        end
    end.
End keeper.

(** ** Runs and observations *)

(** Runs [AddToOutgoingPool] calls one after the other and returns the ids of
    the successful ones. A call that returns an error or panics leaves the
    context as it was: the enclosing transaction discards its writes. *)
Fixpoint submit_all {Bank : Type} `{!BankKeeper Bank} `{!AddressCodec}
    (k : Keeper) (ctx : Context Bank)
    (calls : list (AccAddress * EthAddress * Coin * Coin))
  : list Z * Context Bank :=
  match calls with
  | [] => ([], ctx)
  | (sender, dest, amount, fee) :: calls' =>
      match AddToOutgoingPool k ctx sender dest amount fee with
      | Done ((id, None), ctx') =>
          let '(ids, final) := submit_all k ctx' calls' in
          (id :: ids, final)
      | _ => submit_all k ctx calls'
      end
  end.

(** Every entry of the pool sits under the key made of its own fee and id,
    which is where [addUnbatchedTX] puts it. *)
Definition pool_indexed (store : KVStore) : Prop :=
  forall key tx,
    pool store !! key = Some tx ->
    key = GetOutgoingTxPoolKey (Erc20Fee tx) (Id tx).

(** [a] comes before [b] in fee priority: a higher fee, or the same fee and
    a higher id. *)
Definition fee_priority (a b : OutgoingTransferTx) : Prop :=
  Amount (Erc20Fee b) < Amount (Erc20Fee a) \/
  (Amount (Erc20Fee a) = Amount (Erc20Fee b) /\ Id b < Id a).

(** The calls the exported methods of [EthAddress] allow on a value held by
    a caller, and the value the caller holds afterwards. *)
Inductive EthAddressCall : Type :=
| CallGetAddress
| CallSetAddress (addr : string)
| CallValidateBasic.

Definition invoke (ea : EthAddress) (c : EthAddressCall) : EthAddress :=
  match c with
  | CallGetAddress =>
      fst (call_value_receiver (fun self => (self, GetAddress self)) ea)
  | CallSetAddress addr => fst (SetAddress ea addr)
  | CallValidateBasic =>
      fst (call_value_receiver
             (fun self => (self, EthAddress_ValidateBasic self)) ea)
  end.

(** The argument check at the head of [AddToOutgoingPool]. *)
Definition invalid_arguments {Bank : Type} (ctx : Context Bank)
    (sender : AccAddress) (ethReceiver : EthAddress) (amount fee : Coin)
  : Prop :=
  ctx_is_zero ctx = true \/ sender = [] \/
  EthAddress_ValidateBasic ethReceiver <> None \/
  Coin_IsValid amount = false \/ Coin_IsValid fee = false \/
  Denom fee <> Denom amount.

(** ** A concrete chain to run the pool on *)

(** A small bank, registry and address codec, used to run [AddToOutgoingPool]
    and [RemoveFromOutgoingPoolAndRefund] on concrete inputs. *)
Module Example.

(** The balances of the accounts and of the module account, and the
    permissions of the module account. *)
Record Ledger : Type := mkLedger {
  account_balances : list (AccAddress * string * Z);
  module_balances : list (string * Z);
  module_may_burn : bool;
  module_may_mint : bool
}.

Fixpoint balance_of {K : Type} `{EqDecision K} (l : list (K * Z)) (key : K)
  : Z :=
  match l with
  | [] => 0
  | (k', v) :: l' => if decide (k' = key) then v else balance_of l' key
  end.

Fixpoint set_balance {K : Type} `{EqDecision K} (l : list (K * Z)) (key : K)
    (v : Z) : list (K * Z) :=
  match l with
  | [] => [(key, v)]
  | (k', v') :: l' =>
      if decide (k' = key) then (key, v) :: l'
      else (k', v') :: set_balance l' key v
  end.

(** Takes [coins] out of the balances [l] of [holder], if they are there. *)
Fixpoint debit {K : Type} `{EqDecision K} (l : list (K * Z))
    (holder : string -> K) (coins : Coins) : option (list (K * Z)) :=
  match coins with
  | [] => Some l
  | c :: coins' =>
      let have := balance_of l (holder (Denom c)) in
      if Z.ltb have (CoinAmount c) then None
      else debit (set_balance l (holder (Denom c)) (have - CoinAmount c))
             holder coins'
  end.

Fixpoint credit {K : Type} `{EqDecision K} (l : list (K * Z))
    (holder : string -> K) (coins : Coins) : list (K * Z) :=
  match coins with
  | [] => l
  | c :: coins' =>
      let have := balance_of l (holder (Denom c)) in
      credit (set_balance l (holder (Denom c)) (have + CoinAmount c))
        holder coins'
  end.

Definition insufficient_funds : Error := Errorf "insufficient funds" [].
Definition unauthorized : Error := Errorf "unauthorized" [].

#[global] Instance ledger_bank : BankKeeper Ledger := {|
  SendCoinsFromAccountToModule b sender _ coins :=
    match debit (account_balances b) (fun d => (sender, d)) coins with
    | None => BankError insufficient_funds
    | Some accounts =>
        BankOk (mkLedger accounts (credit (module_balances b) id coins)
                  (module_may_burn b) (module_may_mint b))
    end;
  SendCoinsFromModuleToAccount b _ recipient coins :=
    match debit (module_balances b) id coins with
    | None => BankError insufficient_funds
    | Some held =>
        BankOk (mkLedger
                  (credit (account_balances b) (fun d => (recipient, d))
                     coins)
                  held (module_may_burn b) (module_may_mint b))
    end;
  BurnCoins b _ coins :=
    if negb (module_may_burn b) then BankError unauthorized
    else
      match debit (module_balances b) id coins with
      | None => BankError insufficient_funds
      | Some held =>
          BankOk (mkLedger (account_balances b) held (module_may_burn b)
                    (module_may_mint b))
      end;
  MintCoins b _ coins :=
    if negb (module_may_mint b) then BankError unauthorized
    else
      BankOk (mkLedger (account_balances b)
                (credit (module_balances b) id coins)
                (module_may_burn b) (module_may_mint b))
|}.

(** A stand-in for the SDK's bech32 codec: the prefix followed by the
    bytes of the address. *)
Definition hrp : string := "cosmos1".

#[global] Instance plain_codec : AddressCodec := {|
  AccAddress_String aa := (hrp ++ string_of_list_byte aa)%string;
  AccAddressFromBech32 s :=
    match strip_prefix hrp s with
    | Some (String c rest) => (list_byte_of_string (String c rest), None)
    | _ => ([], Some (Errorf "decoding bech32 failed" []))
    end
|}.

(** Two token contracts: [tokenA] is issued on Ethereum and circulates as
    the voucher [voucherA]; [tokenB] represents the native [ustake]. *)
Definition tokenA : string := "0xAAAAAAAAAAAAAAAAAAAAAAAAAAAAAAAAAAAAAAAA".
Definition tokenB : string := "0xBBBBBBBBBBBBBBBBBBBBBBBBBBBBBBBBBBBBBBBB".
Definition voucherA : string := GravityDenom (mkEthAddress tokenA).
Definition ustake : string := "ustake".

Definition keeper : Keeper := {|
  DenomToERC20Lookup denom :=
    if String.eqb denom voucherA then
      (false, mkOptionalEthAddress false (Some (mkEthAddress tokenA)), None)
    else if String.eqb denom ustake then
      (true, mkOptionalEthAddress false (Some (mkEthAddress tokenB)), None)
    else
      (false, NilEthAddress,
       Some (Errorf "denom not a gravity voucher coin" [FmtString denom]));
  ERC20ToDenomLookup contract :=
    if String.eqb contract tokenB then (true, ustake)
    else (false, GravityDenom (mkEthAddress contract));
  GetBridgeContractAddress := ZeroAddressString;
  GetBridgeChainID := 1
|}.

Definition alice : AccAddress := [x01; x02; x03].
Definition bob : AccAddress := [x0a; x0b].
Definition receiver : EthAddress :=
  mkEthAddress "0x1111111111111111111111111111111111111111".

Definition empty_store : KVStore := mkKVStore ∅ ∅.

(** A fresh chain: an empty pool, no counter, funded accounts. *)
Definition genesis : Context Ledger :=
  mkContext false empty_store
    (mkLedger [(alice, voucherA, 1000); (alice, ustake, 1000);
               (bob, voucherA, 1000)] [] true true)
    [].

(** The same chain with a module account that may neither burn nor
    mint. *)
Definition genesis_no_permissions : Context Ledger :=
  mkContext false empty_store
    (mkLedger [(alice, voucherA, 1000)] [] false false) [].

Definition fees_of (txs : list OutgoingTransferTx) : list Z :=
  map (fun tx => Amount (Erc20Fee tx)) txs.

Definition ids_of (txs : list OutgoingTransferTx) : list Z :=
  map Id txs.

(** The fees, and the ids, of the transfers of a contract in the order the
    scoped query returns them. *)
Definition fees_by_contract (store : KVStore) (contract : string)
  : Exec (list Z) :=
  do txs <- GetUnbatchedTransactionsByContract store (mkEthAddress contract);
  Done (fees_of txs).

Definition ids_by_contract (store : KVStore) (contract : string)
  : Exec (list Z) :=
  do txs <- GetUnbatchedTransactionsByContract store (mkEthAddress contract);
  Done (ids_of txs).

(** [alice] sends 100 of the voucher of [tokenA] with the given fee. *)
Definition send_A (fee : Z) : AccAddress * EthAddress * Coin * Coin :=
  (alice, receiver, mkCoin voucherA 100, mkCoin voucherA fee).

(** What a call of [AddToOutgoingPool] returns, without the context. *)
Definition submit_returns (ctx : Context Ledger)
    (call : AccAddress * EthAddress * Coin * Coin)
  : Exec (Z * option Error) :=
  let '(sender, dest, amount, fee) := call in
  do r <- AddToOutgoingPool keeper ctx sender dest amount fee;
  Done r.1.

(** What a call of [RemoveFromOutgoingPoolAndRefund] returns, without the
    context. *)
Definition cancel_returns (ctx : Context Ledger) (txId : Z)
    (sender : AccAddress) : Exec (option Error) :=
  do r <- RemoveFromOutgoingPoolAndRefund keeper ctx txId sender;
  Done r.1.

(** Three transfers with the fees 10, 5, 20 in that order. *)
Definition after_three : list Z * Context Ledger :=
  submit_all keeper genesis [send_A 10; send_A 5; send_A 20].

(** The chain after the three transfers, with the permission to mint taken
    from the module account. *)
Definition after_three_no_mint : Context Ledger :=
  let ctx := after_three.2 in
  mkContext false (kvstore ctx)
    (mkLedger (account_balances (bank ctx)) (module_balances (bank ctx))
       true false)
    (events ctx).

(** [alice] sends 100 [ustake], the native token behind [tokenB], with the
    given fee. *)
Definition send_B (fee : Z) : AccAddress * EthAddress * Coin * Coin :=
  (alice, receiver, mkCoin ustake 100, mkCoin ustake fee).

(** Transfers of both contracts, interleaved. *)
Definition after_mixed : list Z * Context Ledger :=
  submit_all keeper genesis [send_B 7; send_A 10; send_B 3; send_A 5].

(** A store that holds the transfer with id 1 and fee 10 but no id counter,
    and funded accounts: the pool was carried over, the counter was not. *)
Definition stale_counter : Context Ledger :=
  let ctx := (submit_all keeper genesis [send_A 10]).2 in
  mkContext false (mkKVStore (pool (kvstore ctx)) ∅) (bank ctx) [].

(** [bob] sends 100 of the voucher of [tokenA] with the given fee. *)
Definition bob_sends_A (fee : Z) : AccAddress * EthAddress * Coin * Coin :=
  (bob, receiver, mkCoin voucherA 100, mkCoin voucherA fee).

(** The senders stored in the pool for a contract. *)
Definition senders_by_contract (store : KVStore) (contract : string)
  : Exec (list string) :=
  do txs <- GetUnbatchedTransactionsByContract store (mkEthAddress contract);
  Done (map Sender txs).

(** Two transfers with the same fee. *)
Definition after_tie : list Z * Context Ledger :=
  submit_all keeper genesis [send_A 10; send_A 10].

End Example.

(** The id the next call of [autoIncrementID] returns: 1 while the counter
    is absent, else the value the counter holds. *)
Definition next_id (store : KVStore) (idKey : string) (v : Z) : Prop :=
  match sequences store !! idKey with
  | None => v = 1
  | Some bz => bz = Uint64ToBigEndian v /\ 0 <= v < 2 ^ 64
  end.

(** The record [AddToOutgoingPool] builds for a transfer. *)
Definition outgoing_tx `{!AddressCodec} (id : Z) (sender : AccAddress)
    (ethReceiver : EthAddress) (amount fee : Coin) (contract : EthAddress)
  : OutgoingTransferTx :=
  mkOutgoingTransferTx id (AccAddress_String sender) ethReceiver
    (NewSDKIntERC20Token (CoinAmount amount) contract)
    (NewSDKIntERC20Token (CoinAmount fee) contract).

(** Under the comparison [less] of a sort, [a] may stand before [b]: [b] is
    not less than [a]. *)
Definition not_after {A : Type} (less : A -> A -> bool) (a b : A) : Prop :=
  less b a = false.

(** The address a fee summary is sorted by. *)
Definition token_address (b : BatchFees) : string := address (Token b).

(** Every fee summary of the map sits under the address of its own token,
    which is where [addFeeToMap] puts it. *)
Definition keyed_by_token (m : gmap string BatchFees) : Prop :=
  forall key b, m !! key = Some b -> token_address b = key.

(** The sum of the fees of a list of transfers. *)
Definition sum_fees (txs : list OutgoingTransferTx) : Z :=
  foldr (fun tx acc => Amount (Erc20Fee tx) + acc) 0 txs.

(** The number of transfers [GetBatchFeeByTokenType] adds up when [len]
    are pending: the loop stops when its count equals [int(maxElements)],
    which a count that starts at 1 meets only for a positive value. *)
Definition batch_size (maxElements : Z) (len : nat) : nat :=
  if Z.ltb 0 (int_of_uint maxElements)
  then Z.to_nat (int_of_uint maxElements)
  else len.

(** The pool as [AddToOutgoingPool] and [RemoveFromOutgoingPoolAndRefund]
    keep it, with [v] the id the counter gives out next: every entry sits
    under the key of its own fee and id, its id was given out before, its
    token and its fee name one contract, and no two entries share an id. *)
Definition pool_wf (store : KVStore) (v : Z) : Prop :=
  next_id store KeyLastTXPoolID v /\ 1 <= v /\
  pool_indexed store /\
  (forall key tx,
     pool store !! key = Some tx ->
     1 <= Id tx < v /\ Contract (Erc20Fee tx) = Contract (Erc20Token tx)) /\
  (forall key1 tx1 key2 tx2,
     pool store !! key1 = Some tx1 -> pool store !! key2 = Some tx2 ->
     Id tx1 = Id tx2 -> key1 = key2).

(** A call of one of the two entry points of the pool. *)
Inductive PoolCall : Type :=
| CallSubmit (sender : AccAddress) (ethReceiver : EthAddress)
    (amount fee : Coin)
| CallCancel (txId : Z) (sender : AccAddress).

(** Runs calls one after the other. A call that panics leaves the context as
    it was. After a call that returns an error the run goes on from the
    context as it was before the call when [rollback] is set (the caller
    discards the writes of a failed call), and from the context the call
    returned otherwise. *)
Fixpoint run_calls {Bank : Type} `{!BankKeeper Bank} `{!AddressCodec}
    (k : Keeper) (rollback : bool) (ctx : Context Bank)
    (calls : list PoolCall) : Context Bank :=
  match calls with
  | [] => ctx
  | CallSubmit sender ethReceiver amount fee :: calls' =>
      match AddToOutgoingPool k ctx sender ethReceiver amount fee with
      | Done ((_, None), ctx') => run_calls k rollback ctx' calls'
      | Done ((_, Some _), ctx') =>
          run_calls k rollback (if rollback then ctx else ctx') calls'
      | Panicked _ => run_calls k rollback ctx calls'
      end
  | CallCancel txId sender :: calls' =>
      match RemoveFromOutgoingPoolAndRefund k ctx txId sender with
      | Done (None, ctx') => run_calls k rollback ctx' calls'
      | Done (Some _, ctx') =>
          run_calls k rollback (if rollback then ctx else ctx') calls'
      | Panicked _ => run_calls k rollback ctx calls'
      end
  end.

(** What the two maps of [createBatchFees] hold once the loop has visited
    the transfers [visited], for a positive cap: per contract, the number of
    its transfers counted (at most the cap) and the sum of the fees of the
    first cap of them. *)
Definition batch_fees_of (cap : Z) (visited : list OutgoingTransferTx)
    (batchFeesMap : gmap string BatchFees) (txCountMap : gmap string Z)
  : Prop :=
  forall c : string,
    let l := filter (fun tx => Contract (Erc20Fee tx) = c) visited in
    txCountMap !! c =
      match l with
      | [] => None
      | _ => Some (Z.min (Z.of_nat (length l)) cap)
      end /\
    batchFeesMap !! c =
      match l with
      | [] => None
      | _ => Some (mkBatchFees (mkEthAddress c)
                     (sum_fees (take (Z.to_nat cap) l)))
      end.

(** * Properties *)

(** ** The order of the keys *)

Section key_order.

Lemma string_compare_refl (s : string) : String.compare s s = Eq.
Proof.
  induction s as [|c s IH]; simpl; [done|].
  unfold Ascii.compare. by rewrite N.compare_refl.
Qed.

Lemma string_compare_eq (s t : string) : String.compare s t = Eq <-> s = t.
Proof.
  split; [apply String.compare_eq_iff|].
  intros ->. apply string_compare_refl.
Qed.

Lemma string_compare_lt_trans (a b c : string) :
  String.compare a b = Lt -> String.compare b c = Lt ->
  String.compare a c = Lt.
Proof.
  revert b c. induction a as [|x a IH]; intros [|y b] [|z c]; simpl;
    try done.
  unfold Ascii.compare.
  destruct (N.compare_spec (N_of_ascii x) (N_of_ascii y)) as [Hxy|Hxy|Hxy];
    destruct (N.compare_spec (N_of_ascii y) (N_of_ascii z)) as [Hyz|Hyz|Hyz];
    try done; intros Hab Hbc.
  - rewrite Hxy, Hyz, N.compare_refl. eauto.
  - rewrite Hxy. by apply N.compare_lt_iff in Hyz as ->.
  - rewrite <- Hyz. by apply N.compare_lt_iff in Hxy as ->.
  - assert (N_of_ascii x < N_of_ascii z)%N as H by lia.
    by apply N.compare_lt_iff in H as ->.
Qed.

Lemma string_compare_gt_lt (a b : string) :
  String.compare a b = Gt <-> String.compare b a = Lt.
Proof.
  rewrite (String.compare_antisym a b).
  destruct (String.compare b a); simpl; split; congruence.
Qed.

Lemma key_compare_refl (a : PoolKey) : key_compare a a = Eq.
Proof.
  unfold key_compare.
  by rewrite string_compare_refl, !Z.compare_refl.
Qed.

Lemma key_compare_eq (a b : PoolKey) : key_compare a b = Eq -> a = b.
Proof.
  destruct a as [c1 a1 i1], b as [c2 a2 i2]. unfold key_compare; simpl.
  destruct (String.compare c1 c2) eqn:Hc; try done.
  destruct (Z.compare_spec a1 a2); try done.
  destruct (Z.compare_spec i1 i2); try done.
  apply string_compare_eq in Hc. by subst.
Qed.

Lemma key_compare_antisym (a b : PoolKey) :
  key_compare a b = CompOpp (key_compare b a).
Proof.
  unfold key_compare.
  rewrite (String.compare_antisym (key_contract b) (key_contract a)).
  rewrite (Z.compare_antisym (key_amount a) (key_amount b)).
  rewrite (Z.compare_antisym (key_id a) (key_id b)).
  destruct (String.compare (key_contract a) (key_contract b)); simpl;
    try done.
  destruct (key_amount a ?= key_amount b)%Z; simpl; try done.
  by destruct (key_id a ?= key_id b)%Z.
Qed.

Lemma key_compare_lt_trans (a b c : PoolKey) :
  key_compare a b = Lt -> key_compare b c = Lt -> key_compare a c = Lt.
Proof.
  unfold key_compare.
  destruct (String.compare (key_contract a) (key_contract b)) eqn:Hab;
    destruct (String.compare (key_contract b) (key_contract c)) eqn:Hbc;
    try done.
  - apply string_compare_eq in Hab, Hbc. rewrite Hab, Hbc.
    rewrite string_compare_refl.
    destruct (Z.compare_spec (key_amount a) (key_amount b));
      destruct (Z.compare_spec (key_amount b) (key_amount c));
      try done; intros H1 H2.
    + replace (key_amount a ?= key_amount c)%Z with Eq
        by (symmetry; apply Z.compare_eq_iff; lia).
      rewrite Z.compare_lt_iff in H1, H2 |- *. lia.
    + replace (key_amount a ?= key_amount c)%Z with Lt
        by (symmetry; apply Z.compare_lt_iff; lia). done.
    + replace (key_amount a ?= key_amount c)%Z with Lt
        by (symmetry; apply Z.compare_lt_iff; lia). done.
    + replace (key_amount a ?= key_amount c)%Z with Lt
        by (symmetry; apply Z.compare_lt_iff; lia). done.
  - apply string_compare_eq in Hab. by rewrite Hab, Hbc.
  - apply string_compare_eq in Hbc. by rewrite <- Hbc, Hab.
  - by rewrite (string_compare_lt_trans _ _ _ Hab Hbc).
Qed.

Lemma key_leb_total (a b : PoolKey) : key_leb a b \/ key_leb b a.
Proof.
  unfold key_leb. rewrite (key_compare_antisym b a).
  destruct (key_compare a b); simpl; auto.
Qed.

Lemma key_leb_trans (a b c : PoolKey) :
  key_leb a b -> key_leb b c -> key_leb a c.
Proof.
  unfold key_leb.
  destruct (key_compare a b) eqn:Hab; [| |done];
    destruct (key_compare b c) eqn:Hbc; try done; intros _ _.
  - apply key_compare_eq in Hab, Hbc. subst. by rewrite key_compare_refl.
  - apply key_compare_eq in Hab. subst. by rewrite Hbc.
  - apply key_compare_eq in Hbc. subst. by rewrite Hab.
  - by rewrite (key_compare_lt_trans _ _ _ Hab Hbc).
Qed.

Lemma key_leb_antisym (a b : PoolKey) : key_leb a b -> key_leb b a -> a = b.
Proof.
  unfold key_leb. rewrite (key_compare_antisym b a).
  destruct (key_compare a b) eqn:Hab; simpl; try done.
  intros _ _. by apply key_compare_eq.
Qed.

#[global] Instance entry_le_total : Total entry_le.
Proof. intros x y. apply key_leb_total. Qed.

#[global] Instance entry_le_trans : Transitive entry_le.
Proof. intros x y z. apply key_leb_trans. Qed.

End key_order.

(** ** The iterators of the store *)

Section iterators.
Implicit Types (store : KVStore) (range : PoolKey -> bool).

Lemma Iterator_Permutation store range :
  Iterator store range ≡ₚ
  filter (fun e => Is_true (range e.1)) (map_to_list (pool store)).
Proof. apply merge_sort_Permutation. Qed.

Lemma elem_of_Iterator store range key tx :
  (key, tx) ∈ Iterator store range <->
  pool store !! key = Some tx /\ range key.
Proof.
  rewrite Iterator_Permutation, list_elem_of_filter, elem_of_map_to_list.
  simpl. tauto.
Qed.

Lemma Iterator_NoDup_keys store range : NoDup (Iterator store range).*1.
Proof.
  rewrite Iterator_Permutation.
  assert (NoDup (map_to_list (pool store)).*1) as Hnd
    by apply NoDup_fst_map_to_list.
  revert Hnd. generalize (map_to_list (pool store)).
  induction l as [|[k v] l IH]; simpl; [constructor|].
  rewrite NoDup_cons. intros [Hk Hl].
  rewrite filter_cons. simpl. case_decide; [|auto].
  simpl. apply NoDup_cons. split; [|auto].
  intros Hin. apply Hk.
  apply list_elem_of_fmap in Hin as [[k' v'] [-> Hin]].
  apply list_elem_of_filter in Hin as [_ Hin].
  apply list_elem_of_fmap. by exists (k', v').
Qed.

Lemma Iterator_StronglySorted store range :
  StronglySorted entry_le (Iterator store range).
Proof. apply StronglySorted_merge_sort; apply _. Qed.

Lemma elem_of_ReverseIterator store range key tx :
  (key, tx) ∈ ReverseIterator store range <->
  pool store !! key = Some tx /\ range key.
Proof.
  unfold ReverseIterator. rewrite elem_of_reverse. apply elem_of_Iterator.
Qed.

Lemma ReverseIterator_NoDup_keys store range :
  NoDup (ReverseIterator store range).*1.
Proof.
  unfold ReverseIterator. rewrite fmap_reverse, reverse_Permutation.
  apply Iterator_NoDup_keys.
Qed.

(** In a list sorted by a relation and free of duplicates under [f], the
    images under [f] of two elements in list order differ. *)
Lemma StronglySorted_NoDup_strict {A B : Type} (R : relation A)
    (f : A -> B) (l : list A) :
  StronglySorted R l -> NoDup (f <$> l) ->
  StronglySorted (fun x y => R x y /\ f x <> f y) l.
Proof.
  induction 1 as [|x l Hl IH Hx]; simpl; [constructor|].
  rewrite NoDup_cons. intros [Hnin Hnd].
  constructor; [auto|].
  rewrite Forall_forall in Hx |- *. intros y Hy. split; [auto|].
  intros Heq. apply Hnin. rewrite Heq. apply list_elem_of_fmap. eauto.
Qed.

Lemma StronglySorted_weaken {A : Type} (R1 R2 : relation A) (l : list A) :
  (forall x y, R1 x y -> R2 x y) ->
  StronglySorted R1 l -> StronglySorted R2 l.
Proof.
  intros HR. induction 1; constructor; eauto using Forall_impl.
Qed.

(** The reverse iterator walks the keys in strictly descending order. *)
Lemma ReverseIterator_descending store range :
  StronglySorted (fun x y => key_compare y.1 x.1 = Lt)
    (ReverseIterator store range).
Proof.
  assert (StronglySorted (flip entry_le) (ReverseIterator store range)) as Hs.
  { apply Sorted_StronglySorted.
    - intros x y z Hxy Hyz. unfold flip in *. by etrans.
    - apply Sorted_reverse, StronglySorted_Sorted, Iterator_StronglySorted. }
  pose proof (StronglySorted_NoDup_strict _ fst _ Hs
                (ReverseIterator_NoDup_keys store range)) as Hstrict.
  eapply StronglySorted_weaken; [|exact Hstrict].
  intros x y [Hle Hne]. unfold flip, entry_le, key_leb in Hle.
  destruct (key_compare y.1 x.1) eqn:Hc; try done.
  apply key_compare_eq in Hc. congruence.
Qed.

End iterators.

(** ** Collecting the pool in fee priority *)

Section collect.
Implicit Types (store : KVStore).

Lemma iterate_entries_collect
    (entries : list (PoolKey * OutgoingTransferTx))
    (out : list OutgoingTransferTx) :
  iterate_entries
    (fun (out : list OutgoingTransferTx) _ tx =>
       Done ((out ++ [tx])%list, false)) entries out
  = Done (out ++ entries.*2)%list.
Proof.
  revert out. induction entries as [|[key tx] entries IH]; intros out; simpl.
  - by rewrite app_nil_r.
  - rewrite IH. by rewrite <- app_assoc.
Qed.

Lemma collectUnbatchedTransactions_eq store prefixKey :
  collectUnbatchedTransactions store prefixKey
  = Done (ReverseIterator store (prefixRange prefixKey)).*2.
Proof.
  unfold collectUnbatchedTransactions, IterateUnbatchedTransactions.
  by rewrite iterate_entries_collect.
Qed.

Lemma StronglySorted_Forall_strengthen {A : Type} (R : relation A)
    (P : A -> Prop) (l : list A) :
  StronglySorted R l -> Forall P l ->
  StronglySorted (fun x y => R x y /\ P x /\ P y) l.
Proof.
  induction 1 as [|x l Hl IH Hx]; [constructor|].
  rewrite Forall_cons. intros [HPx HPl]. constructor; [auto|].
  rewrite Forall_forall in Hx, HPl |- *. auto.
Qed.

(** Within one contract the entries come out by descending fee, and by
    descending id among equal fees. *)
Lemma ReverseIterator_fee_priority store (contract : string) :
  pool_indexed store ->
  StronglySorted fee_priority
    (ReverseIterator store (prefixRange (ContractPrefix contract))).*2.
Proof.
  intros Hidx.
  set (entries := ReverseIterator store _).
  assert (Forall (fun e : PoolKey * OutgoingTransferTx =>
                    e.1 = GetOutgoingTxPoolKey (Erc20Fee e.2) (Id e.2) /\
                    key_contract e.1 = contract) entries) as Hall.
  { apply Forall_forall. intros [key tx] Hin.
    apply elem_of_ReverseIterator in Hin as [Hlook Hrange]. simpl in *.
    split; [by apply Hidx|].
    symmetry. by apply String.eqb_eq, Is_true_true. }
  pose proof (StronglySorted_Forall_strengthen _ _ _
                (ReverseIterator_descending store _) Hall) as Hs.
  eapply StronglySorted_fmap; [|exact Hs].
  intros [k1 t1] [k2 t2] (Hlt & [Hk1 Hc1] & [Hk2 Hc2]). simpl in *.
  subst k1 k2. unfold key_compare in Hlt. simpl in *.
  rewrite Hc1, Hc2, string_compare_refl in Hlt.
  unfold fee_priority.
  destruct (Z.compare_spec (Amount (Erc20Fee t2)) (Amount (Erc20Fee t1)));
    try done; [|by left].
  right. split; [done|]. by apply Z.compare_lt_iff.
Qed.

Lemma elem_of_by_contract store (contract : string) tx :
  tx ∈ (ReverseIterator store (prefixRange (ContractPrefix contract))).*2 <->
  exists key, pool store !! key = Some tx /\ key_contract key = contract.
Proof.
  rewrite list_elem_of_fmap. split.
  - intros [[key tx'] [-> Hin]].
    apply elem_of_ReverseIterator in Hin as [Hlook Hrange]. simpl in *.
    exists key. split; [done|].
    symmetry. by apply String.eqb_eq, Is_true_true.
  - intros (key & Hlook & Hc). exists (key, tx). split; [done|].
    apply elem_of_ReverseIterator. split; [done|]. simpl.
    apply Is_true_true, String.eqb_eq. done.
Qed.

End collect.

(** ** The index invariant *)

Section index_invariant.
Implicit Types (store : KVStore).

Lemma pool_indexed_empty (seqs : gmap string (list byte)) :
  pool_indexed (mkKVStore ∅ seqs).
Proof. intros key tx. simpl. by rewrite lookup_empty. Qed.

Lemma addUnbatchedTX_indexed store val :
  pool_indexed store -> pool_indexed (addUnbatchedTX store val).1.
Proof.
  intros Hidx. unfold addUnbatchedTX.
  destruct (store_Has store _); simpl; [done|].
  intros key tx. unfold store_Set. simpl. rewrite lookup_insert.
  case_decide; [|apply Hidx]. by intros [= <-].
Qed.

Lemma removeUnbatchedTX_indexed store fee txID :
  pool_indexed store -> pool_indexed (removeUnbatchedTX store fee txID).1.
Proof.
  intros Hidx. unfold removeUnbatchedTX.
  destruct (store_Has store _); simpl; [|done].
  intros key tx. unfold store_Delete. simpl. rewrite lookup_delete.
  case_decide; [done|apply Hidx].
Qed.

Lemma autoIncrementID_pool store idKey id store' :
  autoIncrementID store idKey = Done (id, store') ->
  pool store' = pool store.
Proof.
  unfold autoIncrementID.
  destruct (sequences store !! idKey) as [bz|]; simpl.
  - destruct (BigEndian_Uint64 bz); simpl; [|done]. by intros [= _ <-].
  - by intros [= _ <-].
Qed.

End index_invariant.

(** ** The steps of [AddToOutgoingPool] *)

Section submit_facts.
Context {Bank : Type} `{!BankKeeper Bank} `{!AddressCodec}.
Variable k : Keeper.
Implicit Types (ctx : Context Bank) (sender : AccAddress).

Lemma invalid_arguments_guard ctx sender ethReceiver amount fee :
  invalid_arguments ctx sender ethReceiver amount fee <->
  IsZero ctx || Empty sender ||
    bool_decide (is_Some (EthAddress_ValidateBasic ethReceiver)) ||
    negb (Coin_IsValid amount) || negb (Coin_IsValid fee) ||
    negb (String.eqb (Denom fee) (Denom amount)) = true.
Proof.
  unfold invalid_arguments, IsZero.
  rewrite !orb_true_iff, !negb_true_iff, bool_decide_eq_true.
  rewrite String.eqb_neq, <- not_eq_None_Some.
  assert (Empty sender = true <-> sender = []) as ->
    by (destruct sender; simpl; split; congruence).
  tauto.
Qed.

Lemma AddToOutgoingPool_record_inv ctx sender ethReceiver amount fee
    contractAddr r ctx' :
  AddToOutgoingPool_record k ctx sender ethReceiver amount fee contractAddr
    = Done (r, ctx') ->
  exists id store1 contract,
    autoIncrementID (kvstore ctx) KeyLastTXPoolID = Done (id, store1) /\
    contractAddr = Some contract /\
    r = (id, None) /\
    kvstore ctx' =
      (addUnbatchedTX store1
         (outgoing_tx id sender ethReceiver amount fee contract)).1 /\
    bank ctx' = bank ctx /\
    ctx_is_zero ctx' = ctx_is_zero ctx.
Proof.
  unfold AddToOutgoingPool_record.
  destruct (autoIncrementID (kvstore ctx) KeyLastTXPoolID)
    as [[id store1]|] eqn:Hid; simpl; [|done].
  destruct contractAddr as [contract|]; simpl; [|done].
  fold (outgoing_tx id sender ethReceiver amount fee contract).
  destruct (addUnbatchedTX store1 _) as [store2 err] eqn:Hadd.
  intros [= <- <-]. exists id, store1, contract.
  rewrite Hadd. done.
Qed.

Lemma AddToOutgoingPool_inv ctx sender ethReceiver amount fee r ctx' :
  AddToOutgoingPool k ctx sender ethReceiver amount fee = Done (r, ctx') ->
  (exists e, r = (0, Some e) /\ ctx' = ctx) \/
  (exists b contractAddr,
     AddToOutgoingPool_record k (with_bank ctx b) sender ethReceiver amount
       fee contractAddr = Done (r, ctx')).
Proof.
  unfold AddToOutgoingPool.
  case_match; [intros [= <- <-]; left; eauto|].
  destruct (Coin_Add amount fee) as [total|]; simpl; [|done].
  destruct (DenomToERC20Lookup k (Denom total)) as [[isCosmos tc] [err|]];
    [intros [= <- <-]; left; eauto|].
  destruct (Unwrap tc) as [contractAddr ?].
  destruct isCosmos;
    (destruct (SendCoinsFromAccountToModule _ _ _ _) as [b|err];
     [|intros [= <- <-]; left; eauto]).
  - intros Hrec. right. eauto.
  - destruct (BurnCoins _ _ _) as [b'|err]; [|done].
    intros Hrec. right. eauto.
Qed.

End submit_facts.

(** ** The id counter *)

Section id_counter.

Lemma Z_of_byte_of_Z (z : Z) : Z_of_byte (byte_of_Z z) = z mod 256.
Proof.
  unfold Z_of_byte, byte_of_Z.
  assert (0 <= z mod 256 < 256) as Hr by (apply Z.mod_pos_bound; lia).
  destruct (Byte.of_N (Z.to_N (z mod 256))) as [b|] eqn:Hb.
  - apply Byte.to_of_N in Hb. rewrite Hb. lia.
  - apply Byte.of_N_None_iff in Hb. lia.
Qed.

(** Reading back the eight bytes written for a 64-bit value gives the
    value. *)
Lemma BigEndian_roundtrip (v : Z) :
  0 <= v < 2 ^ 64 -> BigEndian_Uint64 (Uint64ToBigEndian v) = Done v.
Proof.
  intros Hv. unfold BigEndian_Uint64, Uint64ToBigEndian. simpl.
  f_equal. rewrite !Z_of_byte_of_Z, !Z.shiftr_div_pow2 by lia.
  change (2 ^ 64) with 18446744073709551616 in Hv.
  simpl Z.pow. simpl Z.mul.
  Z.div_mod_to_equations; lia.
Qed.

Lemma wrap_uint64_range (z : Z) : 0 <= wrap_uint64 z < 2 ^ 64.
Proof. unfold wrap_uint64. apply Z.mod_pos_bound. lia. Qed.

Lemma wrap_uint64_small (z : Z) : 0 <= z < 2 ^ 64 -> wrap_uint64 z = z.
Proof. intros. unfold wrap_uint64. by apply Z.mod_small. Qed.

Lemma next_id_range (store : KVStore) (idKey : string) (v : Z) :
  next_id store idKey v -> 0 <= v < 2 ^ 64.
Proof.
  unfold next_id. destruct (sequences store !! idKey); [tauto|].
  intros ->. lia.
Qed.

Lemma autoIncrementID_next (store : KVStore) (idKey : string) (v : Z) :
  next_id store idKey v ->
  autoIncrementID store idKey =
    Done (v, mkKVStore (pool store)
               (<[idKey := Uint64ToBigEndian (wrap_uint64 (v + 1))]>
                  (sequences store))).
Proof.
  unfold next_id, autoIncrementID.
  destruct (sequences store !! idKey) as [bz|].
  - intros [-> Hv]. by rewrite BigEndian_roundtrip.
  - by intros ->.
Qed.

Lemma next_id_advance (store store' : KVStore) (idKey : string) (v : Z) :
  next_id store idKey v ->
  autoIncrementID store idKey = Done (v, store') ->
  next_id store' idKey (wrap_uint64 (v + 1)).
Proof.
  intros Hn. rewrite (autoIncrementID_next _ _ _ Hn). intros [= <-].
  unfold next_id. simpl. rewrite lookup_insert_eq.
  split; [done|apply wrap_uint64_range].
Qed.

Lemma addUnbatchedTX_sequences (store : KVStore) (val : OutgoingTransferTx) :
  sequences (addUnbatchedTX store val).1 = sequences store.
Proof. unfold addUnbatchedTX. by destruct (store_Has store _). Qed.

End id_counter.

Section submit_runs.
Context {Bank : Type} `{!BankKeeper Bank} `{!AddressCodec}.
Variable k : Keeper.
Implicit Types (ctx : Context Bank) (sender : AccAddress).

(** A call that returns an error has written nothing. *)
Lemma AddToOutgoingPool_error_unchanged ctx sender ethReceiver amount fee
    id e ctx' :
  AddToOutgoingPool k ctx sender ethReceiver amount fee
    = Done ((id, Some e), ctx') ->
  ctx' = ctx /\ id = 0.
Proof.
  intros Hrun. apply AddToOutgoingPool_inv in Hrun as [(e' & Hr & ->)|Hrec].
  - by injection Hr as -> _.
  - destruct Hrec as (b & contractAddr & Hrec).
    apply AddToOutgoingPool_record_inv in Hrec
      as (? & ? & ? & _ & _ & Hr & _). done.
Qed.

(** A successful call returns the id the counter holds and moves the
    counter one up. *)
Lemma AddToOutgoingPool_next_id ctx sender ethReceiver amount fee id ctx'
    (v : Z) :
  next_id (kvstore ctx) KeyLastTXPoolID v ->
  AddToOutgoingPool k ctx sender ethReceiver amount fee
    = Done ((id, None), ctx') ->
  id = v /\ next_id (kvstore ctx') KeyLastTXPoolID (wrap_uint64 (v + 1)).
Proof.
  intros Hn Hrun.
  apply AddToOutgoingPool_inv in Hrun as [(e' & Hr & ->)|Hrec]; [done|].
  destruct Hrec as (b & contractAddr & Hrec).
  apply AddToOutgoingPool_record_inv in Hrec
    as (id' & store1 & contract & Hid & _ & Hr & Hstore & _).
  simpl in Hid. injection Hr as ->.
  rewrite (autoIncrementID_next _ _ _ Hn) in Hid.
  injection Hid as <- <-. split; [done|].
  unfold next_id. rewrite Hstore, addUnbatchedTX_sequences. simpl.
  rewrite lookup_insert_eq. split; [done|apply wrap_uint64_range].
Qed.

(** A successful call keeps every entry under the key of its own fee and
    id. *)
Lemma AddToOutgoingPool_indexed ctx sender ethReceiver amount fee r ctx' :
  pool_indexed (kvstore ctx) ->
  AddToOutgoingPool k ctx sender ethReceiver amount fee = Done (r, ctx') ->
  pool_indexed (kvstore ctx').
Proof.
  intros Hidx Hrun.
  apply AddToOutgoingPool_inv in Hrun as [(e' & Hr & ->)|Hrec]; [done|].
  destruct Hrec as (b & contractAddr & Hrec).
  apply AddToOutgoingPool_record_inv in Hrec
    as (id' & store1 & contract & Hid & _ & Hr & Hstore & _).
  rewrite Hstore. apply addUnbatchedTX_indexed.
  intros key tx. rewrite (autoIncrementID_pool _ _ _ _ Hid). apply Hidx.
Qed.

(** The ids a run of calls returns count up from the id the counter holds
    at the start. *)
Lemma submit_all_ids ctx calls (v : Z) :
  next_id (kvstore ctx) KeyLastTXPoolID v ->
  v + Z.of_nat (length calls) < 2 ^ 64 ->
  let '(ids, final) := submit_all k ctx calls in
  ids = seqZ v (Z.of_nat (length ids)) /\
  (length ids <= length calls)%nat /\
  next_id (kvstore final) KeyLastTXPoolID
    (wrap_uint64 (v + Z.of_nat (length ids))).
Proof.
  revert ctx v.
  induction calls as [|[[[sender dest] amount] fee] calls IH];
    intros ctx v Hn Hlen; simpl.
  - rewrite Z.add_0_r.
    pose proof (next_id_range _ _ _ Hn).
    rewrite wrap_uint64_small by done. done.
  - simpl length in Hlen.
    assert (forall ctx0, ctx0 = ctx ->
      let '(ids, final) := submit_all k ctx0 calls in
      ids = seqZ v (Z.of_nat (length ids)) /\
      (length ids <= S (length calls))%nat /\
      next_id (kvstore final) KeyLastTXPoolID
        (wrap_uint64 (v + Z.of_nat (length ids)))) as Hskip.
    { intros ctx0 ->. specialize (IH ctx v Hn ltac:(lia)).
      destruct (submit_all k ctx calls) as [ids final].
      destruct IH as (? & ? & ?). split_and!; [done|lia|done]. }
    destruct (AddToOutgoingPool k ctx sender dest amount fee)
      as [[[id [e|]] ctx']|] eqn:Hrun; [by apply Hskip| |by apply Hskip].
    destruct (AddToOutgoingPool_next_id _ _ _ _ _ _ _ _ Hn Hrun)
      as [-> Hn'].
    pose proof (next_id_range _ _ _ Hn) as Hv.
    rewrite wrap_uint64_small in Hn' by lia.
    specialize (IH ctx' (v + 1) Hn' ltac:(lia)).
    destruct (submit_all k ctx' calls) as [ids final].
    destruct IH as (Hids & Hle & Hfinal). simpl length.
    split_and!.
    + rewrite Nat2Z.inj_succ, seqZ_cons by lia.
      f_equal. rewrite Hids at 1. f_equal; lia.
    + lia.
    + replace (v + Z.of_nat (S (length ids)))
        with (v + 1 + Z.of_nat (length ids)) by lia. done.
Qed.

End submit_runs.

(** ** The scoped query *)

Lemma pool_indexed_map_Forall (store : KVStore) :
  pool_indexed store <->
  map_Forall (fun key tx => key = GetOutgoingTxPoolKey (Erc20Fee tx) (Id tx))
    (pool store).
Proof. done. Qed.

(** C1. For every pool whose entries sit under the keys of their own fee and
    id, and every contract, the scoped iteration
    ([IterateUnbatchedTransactionsByContract]) visits, and the scoped query
    ([GetUnbatchedTransactionsByContract]) returns, exactly the transfers of
    that contract, by descending fee and by descending id among equal fees.
    After three transfers of one contract with the fees 10, 5, 20 the query
    returns them in the order 20, 10, 5; of two transfers with the same fee
    the one with the higher id comes first. *)
Theorem unbatched_by_contract_fee_descending :
  (forall (store : KVStore) (contractAddress : EthAddress),
     pool_indexed store ->
     exists entries : list (PoolKey * OutgoingTransferTx),
       (forall (Acc : Type) cb (acc : Acc),
          IterateUnbatchedTransactionsByContract store contractAddress cb acc
          = iterate_entries cb entries acc) /\
       GetUnbatchedTransactionsByContract store contractAddress
       = Done entries.*2 /\
       StronglySorted fee_priority entries.*2 /\
       (forall tx, tx ∈ entries.*2 <->
          exists key, pool store !! key = Some tx /\
                      key_contract key = address contractAddress)) /\
  (Example.after_three.1 = [1; 2; 3] /\
   Example.fees_by_contract (kvstore Example.after_three.2) Example.tokenA
   = Done [20; 10; 5] /\
   Example.ids_by_contract (kvstore Example.after_three.2) Example.tokenA
   = Done [3; 1; 2]) /\
  (Example.after_tie.1 = [1; 2] /\
   Example.fees_by_contract (kvstore Example.after_tie.2) Example.tokenA
   = Done [10; 10] /\
   Example.ids_by_contract (kvstore Example.after_tie.2) Example.tokenA
   = Done [2; 1]).
Proof.
  split; [|split; vm_compute; done].
  intros store contractAddress Hidx.
  exists (ReverseIterator store
            (prefixRange (GetOutgoingTxPoolContractPrefix contractAddress))).
  split_and!.
  - done.
  - apply collectUnbatchedTransactions_eq.
  - by apply ReverseIterator_fee_priority.
  - intros tx. apply elem_of_by_contract.
Qed.

Lemma unbatched_by_contract_fee_descending_witness :
  pool_indexed (kvstore Example.after_three.2) /\
  exists entries : list (PoolKey * OutgoingTransferTx),
    GetUnbatchedTransactionsByContract (kvstore Example.after_three.2)
      (mkEthAddress Example.tokenA) = Done entries.*2 /\
    StronglySorted fee_priority entries.*2.
Proof.
  assert (pool_indexed (kvstore Example.after_three.2)) as Hidx.
  { apply pool_indexed_map_Forall.
    apply (bool_decide_unpack _). vm_compute. reflexivity. }
  split; [exact Hidx|].
  destruct (proj1 unbatched_by_contract_fee_descending
              (kvstore Example.after_three.2)
              (mkEthAddress Example.tokenA) Hidx)
    as (entries & _ & Hget & Hsorted & _).
  exists entries. split; assumption.
Defined.


(** C8. [autoIncrementID] returns 1 and stores 2 while the counter is absent;
    otherwise it returns the stored value [v] and stores [v + 1] (modulo
    2^64, which is [v + 1] below the last 64-bit value). Hence the ids that
    successive successful calls of [AddToOutgoingPool] return on a pool that
    starts without a counter are 1, 2, 3, ... in this order, for any run
    shorter than the 64-bit range. *)
Theorem id_allocator_sequential :
  (forall (store : KVStore) (idKey : string),
     sequences store !! idKey = None ->
     autoIncrementID store idKey =
       Done (1, mkKVStore (pool store)
                  (<[idKey := Uint64ToBigEndian 2]> (sequences store)))) /\
  (forall (store : KVStore) (idKey : string) (v : Z),
     0 <= v < 2 ^ 64 ->
     sequences store !! idKey = Some (Uint64ToBigEndian v) ->
     autoIncrementID store idKey =
       Done (v, mkKVStore (pool store)
                  (<[idKey := Uint64ToBigEndian (wrap_uint64 (v + 1))]>
                     (sequences store))) /\
     (v + 1 < 2 ^ 64 -> wrap_uint64 (v + 1) = v + 1)) /\
  (forall (Bank : Type) (B : BankKeeper Bank) (C : AddressCodec) (k : Keeper)
          (ctx : Context Bank)
          (calls : list (AccAddress * EthAddress * Coin * Coin)),
     sequences (kvstore ctx) !! KeyLastTXPoolID = None ->
     Z.of_nat (length calls) < 2 ^ 64 - 1 ->
     (submit_all k ctx calls).1 =
       seqZ 1 (Z.of_nat (length (submit_all k ctx calls).1))).
Proof.
  split_and!.
  - intros store idKey Hnone.
    by rewrite (autoIncrementID_next store idKey 1)
      by (unfold next_id; by rewrite Hnone).
  - intros store idKey v Hv Hsome. split.
    + apply autoIncrementID_next. unfold next_id. by rewrite Hsome.
    + intros. apply wrap_uint64_small. lia.
  - intros Bank B C k ctx calls Hnone Hlen.
    pose proof (submit_all_ids k ctx calls 1) as H.
    destruct (submit_all k ctx calls) as [ids final]. simpl.
    apply H; [|lia]. unfold next_id. by rewrite Hnone.
Qed.

Lemma id_allocator_sequential_witness :
  sequences (kvstore Example.genesis) !! KeyLastTXPoolID = None /\
  (Z.of_nat (length [Example.send_A 10; Example.send_A 5; Example.send_A 20])
     < 2 ^ 64 - 1) /\
  Example.after_three.1 = seqZ 1 (Z.of_nat (length Example.after_three.1)).
Proof.
  split; [reflexivity|]. split; [vm_compute; reflexivity|].
  apply (proj2 (proj2 id_allocator_sequential) _ _ _ Example.keeper
           Example.genesis
           [Example.send_A 10; Example.send_A 5; Example.send_A 20]).
  - reflexivity.
  - vm_compute. reflexivity.
Defined.

(** C10. [SetAddress] and [SetEthAddress] are declared with value receivers:
    the caller's [EthAddress], respectively [OptionalEthAddress], is the same
    after the call as before, whatever the argument (the body does update
    its own copy when the argument is valid, and [SetAddress] returns the
    validation error). Hence an [EthAddress] obtained from [NewEthAddress]
    keeps the address it was built with under every sequence of calls of
    its exported methods. *)
Theorem value_receivers_leave_caller_unchanged :
  (forall (ea : EthAddress) (addr : string),
     (SetAddress ea addr).1 = ea /\
     (SetAddress ea addr).2 = ValidateEthAddress addr /\
     (ValidateEthAddress addr = None ->
      (SetAddress_body ea addr).1 = mkEthAddress addr)) /\
  (forall (o : OptionalEthAddress) (ethAddress : option EthAddress),
     (SetEthAddress o ethAddress).1 = o) /\
  (forall (addr : string) (ea : EthAddress) (calls : list EthAddressCall),
     NewEthAddress addr = (Some ea, None) ->
     fold_left invoke calls ea = ea /\ GetAddress ea = addr).
Proof.
  split_and!.
  - intros ea addr. unfold SetAddress, call_value_receiver, SetAddress_body.
    simpl. destruct (ValidateEthAddress addr); simpl; split_and!; done.
  - done.
  - intros addr ea calls Hnew. split.
    + induction calls as [|c calls IH]; simpl; [done|].
      by destruct c.
    + unfold NewEthAddress in Hnew.
      destruct (ValidateEthAddress addr); [done|].
      by injection Hnew as <-.
Qed.

Lemma value_receivers_leave_caller_unchanged_witness :
  NewEthAddress Example.tokenA = (Some (mkEthAddress Example.tokenA), None) /\
  fold_left invoke
    [CallSetAddress Example.tokenB; CallGetAddress; CallSetAddress ""]
    (mkEthAddress Example.tokenA)
  = mkEthAddress Example.tokenA.
Proof.
  split; [reflexivity|].
  apply (proj2 (proj2 value_receivers_leave_caller_unchanged)
           Example.tokenA (mkEthAddress Example.tokenA)
           [CallSetAddress Example.tokenB; CallGetAddress; CallSetAddress ""]).
  reflexivity.
Defined.

(** ** Token amounts *)

Lemma Int_Add_uint64 (a b : Z) :
  0 <= a + b < 2 ^ 64 -> Int_Add a b = Done (a + b).
Proof.
  intros Hs. unfold Int_Add, BitLen, maxBitLen. simpl.
  destruct (Z.eqb_spec (a + b) 0) as [->|Hne]; [done|].
  assert (Z.log2 (Z.abs (a + b)) < 64) as Hlog.
  { apply Z.log2_lt_pow2; lia. }
  destruct (Z.ltb_spec 255 (Z.log2 (Z.abs (a + b)) + 1)); [lia|done].
Qed.

Lemma Int_Add_small (a b : Z) :
  0 <= a + b < 2 ^ 255 -> Int_Add a b = Done (a + b).
Proof.
  intros Hs. unfold Int_Add, BitLen, maxBitLen. simpl.
  destruct (Z.eqb_spec (a + b) 0) as [->|Hne]; [done|].
  assert (Z.log2 (Z.abs (a + b)) < 255) as Hlog.
  { apply Z.log2_lt_pow2; lia. }
  destruct (Z.ltb_spec 255 (Z.log2 (Z.abs (a + b)) + 1)); [lia|done].
Qed.

Lemma NewEthAddress_valid (addr : string) :
  ValidateEthAddress addr = None ->
  NewEthAddress addr = (Some (mkEthAddress addr), None).
Proof. unfold NewEthAddress. by intros ->. Qed.

Lemma NewEthAddress_invalid (addr : string) (err : Error) :
  ValidateEthAddress addr = Some err ->
  NewEthAddress addr = (None, Some (Wrap err "invalid input address")).
Proof. unfold NewEthAddress. by intros ->. Qed.

(** C9, as amended. [ERC20Token.Add] on two tokens of the same contract
    returns a token of that contract whose amount is the exact sum when the
    contract is a valid Ethereum address and the sum lies in the unsigned
    64-bit range. In every other case it panics instead of returning: on
    two tokens of the same contract whose sum is negative or 2^64 or more,
    on two tokens of differing contracts, and when the contract of either
    token is not a valid Ethereum address. *)
Theorem erc20_add_checked :
  (forall e o : ERC20Token,
     ValidateEthAddress (Contract e) = None ->
     Contract e = Contract o ->
     0 <= Amount e + Amount o < 2 ^ 64 ->
     ERC20Token_Add e o
     = Done (mkERC20Token (Amount e + Amount o) (Contract e))) /\
  (forall e o : ERC20Token,
     Contract e = Contract o ->
     ~ (0 <= Amount e + Amount o < 2 ^ 64) ->
     exists p, ERC20Token_Add e o = Panicked p) /\
  (forall e o : ERC20Token,
     Contract e <> Contract o ->
     exists p, ERC20Token_Add e o = Panicked p) /\
  (forall e o : ERC20Token,
     ValidateEthAddress (Contract e) <> None \/
     ValidateEthAddress (Contract o) <> None ->
     exists p, ERC20Token_Add e o = Panicked p).
Proof.
  split_and!.
  - intros e o Hvalid Heq Hsum. unfold ERC20Token_Add.
    rewrite <- Heq, (NewEthAddress_valid _ Hvalid). simpl.
    rewrite String.eqb_refl. simpl.
    rewrite (Int_Add_uint64 _ _ Hsum). simpl.
    unfold Int_IsUint64.
    destruct (Z.leb_spec 0 (Amount e + Amount o)); [|lia].
    destruct (Z.ltb_spec (Amount e + Amount o) (2 ^ 64)); [|lia].
    done.
  - intros e o Heq Hsum. unfold ERC20Token_Add. rewrite <- Heq.
    destruct (ValidateEthAddress (Contract e)) as [err|] eqn:Hv.
    { rewrite (NewEthAddress_invalid _ _ Hv). eauto. }
    rewrite (NewEthAddress_valid _ Hv). simpl.
    rewrite String.eqb_refl. simpl.
    destruct (Int_Add (Amount e) (Amount o)) as [sum|p] eqn:Hadd; simpl;
      [|eauto].
    assert (sum = Amount e + Amount o) as ->.
    { unfold Int_Add in Hadd. by destruct (_ <? _)%Z; simplify_eq. }
    unfold Int_IsUint64.
    destruct (Z.leb_spec 0 (Amount e + Amount o)); simpl; [|eauto].
    destruct (Z.ltb_spec (Amount e + Amount o) (2 ^ 64)); simpl; [lia|eauto].
  - intros e o Hne. unfold ERC20Token_Add.
    destruct (ValidateEthAddress (Contract e)) as [err|] eqn:Hve.
    { rewrite (NewEthAddress_invalid _ _ Hve). eauto. }
    rewrite (NewEthAddress_valid _ Hve).
    destruct (ValidateEthAddress (Contract o)) as [err|] eqn:Hvo.
    { rewrite (NewEthAddress_invalid _ _ Hvo). eauto. }
    rewrite (NewEthAddress_valid _ Hvo). simpl.
    apply String.eqb_neq in Hne. rewrite Hne. simpl. eauto.
  - intros e o Hinvalid. unfold ERC20Token_Add.
    destruct (ValidateEthAddress (Contract e)) as [err|] eqn:Hve.
    { rewrite (NewEthAddress_invalid _ _ Hve). eauto. }
    rewrite (NewEthAddress_valid _ Hve).
    destruct (ValidateEthAddress (Contract o)) as [err|] eqn:Hvo.
    { rewrite (NewEthAddress_invalid _ _ Hvo). eauto. }
    destruct Hinvalid; done.
Qed.

Lemma erc20_add_checked_witness :
  ValidateEthAddress Example.tokenA = None /\
  0 <= 7 + 8 < 2 ^ 64 /\
  ERC20Token_Add (mkERC20Token 7 Example.tokenA)
    (mkERC20Token 8 Example.tokenA)
  = Done (mkERC20Token 15 Example.tokenA).
Proof.
  split; [reflexivity|]. split; [lia|].
  apply (proj1 erc20_add_checked (mkERC20Token 7 Example.tokenA)
           (mkERC20Token 8 Example.tokenA)).
  - reflexivity.
  - reflexivity.
  - simpl. lia.
Defined.

(** Two tokens of the same valid contract whose amounts sum to 2^64, and
    two tokens with the amounts 1 and 2 of the same contract that is not an
    Ethereum address: [Add] panics instead of returning the sum. *)
Lemma erc20_add_exact_sum_counterexample :
  (let e := mkERC20Token (2 ^ 64 - 1) Example.tokenA in
   let o := mkERC20Token 1 Example.tokenA in
   Contract e = Contract o /\ 0 <= Amount e /\ 0 <= Amount o /\
   ERC20Token_Add e o = Panicked (PanicString "invalid amount") /\
   ERC20Token_Add e o
   <> Done (mkERC20Token (Amount e + Amount o) (Contract e))) /\
  (let e := mkERC20Token 1 "not-an-address" in
   let o := mkERC20Token 2 "not-an-address" in
   Contract e = Contract o /\ 0 <= Amount e /\ 0 <= Amount o /\
   (exists p, ERC20Token_Add e o = Panicked p) /\
   ERC20Token_Add e o
   <> Done (mkERC20Token (Amount e + Amount o) (Contract e))).
Proof.
  split; split_and!; try (vm_compute; done).
  eexists. vm_compute. reflexivity.
Qed.

(** ** The argument check of submit *)

Lemma Coin_IsValid_false (coin : Coin) :
  Coin_IsValid coin = false <->
  ValidateDenom (Denom coin) = false \/ CoinAmount coin < 0.
Proof.
  unfold Coin_IsValid, Int_IsNegative.
  rewrite andb_false_iff, negb_false_iff, Z.ltb_lt. done.
Qed.

Lemma AddToOutgoingPool_ptr_Some {Bank : Type} `{!BankKeeper Bank}
    `{!AddressCodec} (k : Keeper) (ctx : Context Bank) (sender : AccAddress)
    (ethReceiver : EthAddress) (amount fee : Coin) :
  AddToOutgoingPool_ptr k ctx sender (Some ethReceiver) amount fee
  = AddToOutgoingPool k ctx sender ethReceiver amount fee.
Proof.
  unfold AddToOutgoingPool_ptr, AddToOutgoingPool.
  destruct (IsZero ctx); [done|]. destruct (Empty sender); done.
Qed.

(** C6, as amended. A call of [AddToOutgoingPool] on a destination pointer
    that is not [nil], with an invalid context, an empty sender, a
    destination that fails address validation, an amount or a fee with an
    invalid denomination or a negative amount, or a fee whose denomination
    differs from the amount's, returns id 0 with [ErrInvalid] wrapped as
    "arguments" and the context it was given: store, id counter, balances
    and events are unchanged. On a [nil] destination the call returns the
    same when the context is invalid or the sender is empty, and panics
    otherwise. A zero amount or fee is not rejected: with a valid context,
    sender, destination and denomination, equal denominations, amounts of 0
    or more and a total below 2^255 the call goes on to the denomination
    lookup, and returns the error of the lookup when that fails. *)
Theorem submit_invalid_arguments_rejected :
  forall (Bank : Type) (B : BankKeeper Bank) (C : AddressCodec) (k : Keeper)
         (ctx : Context Bank) (sender : AccAddress) (amount fee : Coin),
    (forall ethReceiver : EthAddress,
       ctx_is_zero ctx = true \/ sender = [] \/
       EthAddress_ValidateBasic ethReceiver <> None \/
       (ValidateDenom (Denom amount) = false \/ CoinAmount amount < 0) \/
       (ValidateDenom (Denom fee) = false \/ CoinAmount fee < 0) \/
       Denom fee <> Denom amount ->
       AddToOutgoingPool_ptr k ctx sender (Some ethReceiver) amount fee
       = Done ((0, Some (Wrap ErrInvalid "arguments")), ctx)) /\
    (ctx_is_zero ctx = true \/ sender = [] ->
     AddToOutgoingPool_ptr k ctx sender None amount fee
     = Done ((0, Some (Wrap ErrInvalid "arguments")), ctx)) /\
    (ctx_is_zero ctx = false -> sender <> [] ->
     exists p,
       AddToOutgoingPool_ptr k ctx sender None amount fee = Panicked p) /\
    (forall (ethReceiver : EthAddress) (err : Error),
       ctx_is_zero ctx = false -> sender <> [] ->
       EthAddress_ValidateBasic ethReceiver = None ->
       ValidateDenom (Denom amount) = true -> Denom fee = Denom amount ->
       0 <= CoinAmount amount -> 0 <= CoinAmount fee ->
       CoinAmount amount + CoinAmount fee < 2 ^ 255 ->
       (DenomToERC20Lookup k (Denom amount)).2 = Some err ->
       AddToOutgoingPool_ptr k ctx sender (Some ethReceiver) amount fee
       = Done ((0, Some err), ctx)).
Proof.
  intros Bank B C k ctx sender amount fee. split_and!.
  - intros ethReceiver Hinv. rewrite AddToOutgoingPool_ptr_Some.
    rewrite <- !Coin_IsValid_false in Hinv.
    apply (invalid_arguments_guard ctx sender ethReceiver amount fee)
      in Hinv.
    unfold AddToOutgoingPool. by rewrite Hinv.
  - intros Hinv. unfold AddToOutgoingPool_ptr, IsZero.
    destruct Hinv as [-> | ->]; [done|]. simpl. by rewrite orb_true_r.
  - intros Hctx Hsender. unfold AddToOutgoingPool_ptr, IsZero.
    rewrite Hctx. destruct sender; [done|]. simpl. eauto.
  - intros ethReceiver err Hctx Hsender Hdest Hdenom Heq Hamount Hfee Htotal
      Hlookup.
    rewrite AddToOutgoingPool_ptr_Some. unfold AddToOutgoingPool.
    destruct (IsZero ctx || Empty sender ||
              bool_decide (is_Some (EthAddress_ValidateBasic ethReceiver)) ||
              negb (Coin_IsValid amount) || negb (Coin_IsValid fee) ||
              negb (String.eqb (Denom fee) (Denom amount))) eqn:Hguard.
    { apply invalid_arguments_guard in Hguard.
      rewrite <- Heq in Hdenom.
      destruct Hguard as [?|[?|[?|[Hv|[Hv|?]]]]]; try congruence;
        apply Coin_IsValid_false in Hv; destruct Hv; try congruence; lia. }
    unfold Coin_Add. rewrite <- Heq, String.eqb_refl.
    cbn [negb]. rewrite Int_Add_small by lia. cbn [exec_bind Denom].
    rewrite Heq.
    destruct (DenomToERC20Lookup k (Denom amount))
      as [[isCosmosOriginated tokenContract] err'].
    simpl in Hlookup. by rewrite Hlookup.
Qed.

Lemma submit_invalid_arguments_rejected_witness :
  AddToOutgoingPool_ptr Example.keeper Example.genesis Example.alice
    (Some Example.receiver) (mkCoin Example.voucherA 100)
    (mkCoin Example.voucherA (-5))
  = Done ((0, Some (Wrap ErrInvalid "arguments")), Example.genesis) /\
  exists p,
    AddToOutgoingPool_ptr Example.keeper Example.genesis Example.alice
      None (mkCoin Example.voucherA 100) (mkCoin Example.voucherA (-5))
    = Panicked p.
Proof.
  destruct (submit_invalid_arguments_rejected _ _ _ Example.keeper
              Example.genesis Example.alice (mkCoin Example.voucherA 100)
              (mkCoin Example.voucherA (-5)))
    as (Hinvalid & _ & Hnil & _).
  split.
  - apply Hinvalid.
    right. right. right. right. left. right. simpl. lia.
  - apply Hnil; [reflexivity|discriminate].
Defined.

(** A transfer with a zero fee and otherwise valid arguments: the call
    succeeds with id 1, takes the coins and stores the transfer. *)
Lemma submit_zero_fee_counterexample :
  CoinAmount (mkCoin Example.voucherA 0) = 0 /\
  Example.submit_returns Example.genesis (Example.send_A 0) = Done (1, None) /\
  (submit_all Example.keeper Example.genesis [Example.send_A 0]).1 = [1] /\
  Example.fees_by_contract
    (kvstore (submit_all Example.keeper Example.genesis [Example.send_A 0]).2)
    Example.tokenA = Done [0] /\
  bank (submit_all Example.keeper Example.genesis [Example.send_A 0]).2
  <> bank Example.genesis.
Proof. split_and!; vm_compute; done. Qed.

(** ** Cancelling *)

Lemma Equals_eq (aa aa2 : AccAddress) : Equals aa aa2 = true <-> aa = aa2.
Proof.
  unfold Equals. destruct aa, aa2; simpl; rewrite ?bool_decide_eq_true; done.
Qed.

Lemma iterate_entries_find (txID : Z)
    (entries : list (PoolKey * OutgoingTransferTx)) :
  exists r,
    iterate_entries
      (fun (r : option OutgoingTransferTx) (_ : PoolKey) tx =>
         if Z.eqb (Id tx) txID then Done (Some tx, true)
         else Done (r, false)) entries None = Done r /\
    match r with
    | Some tx => Id tx = txID /\ exists key, (key, tx) ∈ entries
    | None => forall key tx, (key, tx) ∈ entries -> Id tx <> txID
    end.
Proof.
  induction entries as [|[key tx] entries IH]; simpl.
  - exists None. split; [done|]. intros ?? Hin. inv Hin.
  - destruct (Z.eqb_spec (Id tx) txID) as [Heq|Hne]; simpl.
    + exists (Some tx). split; [done|]. split; [done|].
      exists key. left.
    + destruct IH as (r & -> & Hr). exists r. split; [done|].
      destruct r as [tx'|].
      * destruct Hr as [? [key' ?]]. split; [done|]. exists key'. by right.
      * intros key' tx' Hin. inv Hin; eauto.
Qed.

(** [GetUnbatchedTxById] returns a transfer of the pool with the id asked
    for when there is one, and [ErrUnknown] when there is none. *)
Lemma GetUnbatchedTxById_spec (store : KVStore) (txID : Z) :
  (exists tx key,
     GetUnbatchedTxById store txID = Done (Some tx, None) /\
     Id tx = txID /\ pool store !! key = Some tx) \/
  (GetUnbatchedTxById store txID
     = Done (None, Some (Wrap ErrUnknown "pool transaction")) /\
   forall key tx, pool store !! key = Some tx -> Id tx <> txID).
Proof.
  unfold GetUnbatchedTxById, IterateUnbatchedTransactions.
  destruct (iterate_entries_find txID
              (ReverseIterator store (prefixRange OutgoingTXPoolKey)))
    as (r & -> & Hr). simpl.
  destruct r as [tx|].
  - left. destruct Hr as [Hid [key Hin]].
    apply elem_of_ReverseIterator in Hin as [Hlook _]. eauto.
  - right. split; [done|]. intros key tx Hlook.
    apply (Hr key). by apply elem_of_ReverseIterator.
Qed.

Lemma GetUnbatchedTxById_found (store : KVStore) (txID : Z)
    (tx : OutgoingTransferTx) (err : option Error) :
  GetUnbatchedTxById store txID = Done (Some tx, err) ->
  err = None /\ Id tx = txID /\ exists key, pool store !! key = Some tx.
Proof.
  destruct (GetUnbatchedTxById_spec store txID)
    as [(tx' & key & -> & Hid & Hlook)|[-> _]]; [|done].
  intros [= <- <-]. eauto.
Qed.

(** C7. When the pool holds a transfer with the id asked for, the lookup by
    id finds such a transfer; if the sender stored with it decodes to an
    address other than the requester, [RemoveFromOutgoingPoolAndRefund]
    returns an error whose root is [ErrInvalid] together with the context
    it was given: pool, id counter, balances and events are unchanged. For
    a valid context, an id of at least 1 and a non-empty requester the error
    is the one that names the requester and the id. *)
Theorem cancel_by_other_sender_rejected :
  forall (Bank : Type) (B : BankKeeper Bank) (C : AddressCodec) (k : Keeper)
         (ctx : Context Bank) (txId : Z) (sender : AccAddress)
         (key0 : PoolKey) (tx0 : OutgoingTransferTx),
    pool (kvstore ctx) !! key0 = Some tx0 ->
    Id tx0 = txId ->
    exists tx,
      GetUnbatchedTxById (kvstore ctx) txId = Done (Some tx, None) /\
      Id tx = txId /\
      (exists key, pool (kvstore ctx) !! key = Some tx) /\
      forall txSender : AccAddress,
        AccAddressFromBech32 (Sender tx) = (txSender, None) ->
        txSender <> sender ->
        exists e,
          RemoveFromOutgoingPoolAndRefund k ctx txId sender
          = Done (Some e, ctx) /\
          error_root e = ErrInvalid /\
          (ctx_is_zero ctx = false -> 1 <= txId -> sender <> [] ->
           e = Wrapf ErrInvalid "Sender %s did not send Id %d"
                 [FmtString (AccAddress_String sender); FmtInt txId]).
Proof.
  intros Bank B C k ctx txId sender key0 tx0 Hlook0 Hid0.
  destruct (GetUnbatchedTxById_spec (kvstore ctx) txId)
    as [(tx & key & Hget & Hid & Hlook)|[_ Hnone]];
    [|by destruct (Hnone _ _ Hlook0)].
  exists tx. split_and!; [done|done|by exists key|].
  intros txSender Hdecode Hne.
  unfold RemoveFromOutgoingPoolAndRefund.
  destruct (IsZero ctx || (txId <? 1)%Z || Empty sender) eqn:Hguard.
  - eexists. split_and!; [done|done|].
    unfold IsZero in Hguard. intros Hz Hid1 Hs. exfalso.
    rewrite Hz in Hguard. simpl in Hguard.
    destruct (Z.ltb_spec txId 1); [lia|]. by destruct sender.
  - rewrite Hget. simpl. rewrite Hdecode.
    assert (Equals txSender sender = false) as ->.
    { apply not_true_is_false. by rewrite Equals_eq. }
    simpl. eexists. split_and!; done.
Qed.

Lemma cancel_by_other_sender_rejected_witness :
  pool (kvstore Example.after_three.2)
    !! GetOutgoingTxPoolKey (mkERC20Token 5 Example.tokenA) 2
  = Some (outgoing_tx 2 Example.alice Example.receiver
            (mkCoin Example.voucherA 100) (mkCoin Example.voucherA 5)
            (mkEthAddress Example.tokenA)) /\
  Example.alice <> Example.bob /\
  exists e,
    RemoveFromOutgoingPoolAndRefund Example.keeper Example.after_three.2 2
      Example.bob
    = Done (Some e, Example.after_three.2) /\
    error_root e = ErrInvalid.
Proof.
  assert (pool (kvstore Example.after_three.2)
            !! GetOutgoingTxPoolKey (mkERC20Token 5 Example.tokenA) 2
          = Some (outgoing_tx 2 Example.alice Example.receiver
                    (mkCoin Example.voucherA 100) (mkCoin Example.voucherA 5)
                    (mkEthAddress Example.tokenA))) as Hlook
    by (vm_compute; reflexivity).
  split; [exact Hlook|]. split; [discriminate|].
  destruct (cancel_by_other_sender_rejected _ _ _ Example.keeper
              Example.after_three.2 2 Example.bob _ _ Hlook eq_refl)
    as (tx & Hget & _ & _ & Hcancel).
  assert (tx = outgoing_tx 2 Example.alice Example.receiver
                 (mkCoin Example.voucherA 100) (mkCoin Example.voucherA 5)
                 (mkEthAddress Example.tokenA)) as ->.
  { vm_compute in Hget. injection Hget as <-. vm_compute. reflexivity. }
  destruct (Hcancel Example.alice) as (e & Hrun & Hroot & _).
  - vm_compute. reflexivity.
  - discriminate.
  - exists e. split; assumption.
Defined.


(** C2. In [AddToOutgoingPool], for an asset that is not cosmos-originated,
    a failure of [BurnCoins] after [SendCoinsFromAccountToModule] has
    succeeded makes the call panic with that error: the enclosing state
    transition is aborted and nothing is returned. In
    [RemoveFromOutgoingPoolAndRefund], for an asset that is not
    cosmos-originated, a failure of [MintCoins] is returned as an error that
    wraps the bank's; the balances are the ones before the call (the entry
    has left the pool by then). *)
Theorem burn_failure_fatal_mint_failure_returned :
  forall (Bank : Type) (B : BankKeeper Bank) (C : AddressCodec) (k : Keeper),
    (forall (ctx : Context Bank) (sender : AccAddress)
            (ethReceiver : EthAddress) (amount fee total : Coin)
            (tokenContract : OptionalEthAddress) (b : Bank) (err : Error),
       ~ invalid_arguments ctx sender ethReceiver amount fee ->
       Coin_Add amount fee = Done total ->
       DenomToERC20Lookup k (Denom total) = (false, tokenContract, None) ->
       SendCoinsFromAccountToModule (bank ctx) sender ModuleName [total]
       = BankOk b ->
       BurnCoins b ModuleName [total] = BankError err ->
       AddToOutgoingPool k ctx sender ethReceiver amount fee
       = Panicked (PanicError err)) /\
    (forall (ctx : Context Bank) (txId : Z) (sender : AccAddress)
            (tx : OutgoingTransferTx) (coins : Coins) (err : Error),
       ctx_is_zero ctx = false -> 1 <= txId -> sender <> [] ->
       pool_indexed (kvstore ctx) ->
       GetUnbatchedTxById (kvstore ctx) txId = Done (Some tx, None) ->
       AccAddressFromBech32 (Sender tx) = (sender, None) ->
       Contract (Erc20Fee tx) = Contract (Erc20Token tx) ->
       refund_coins tx = Done coins ->
       (ERC20ToDenomLookup k (Contract (Erc20Token tx))).1 = false ->
       MintCoins (bank ctx) ModuleName coins = BankError err ->
       exists ctx',
         RemoveFromOutgoingPoolAndRefund k ctx txId sender
         = Done (Some (Wrapf err "mint vouchers coins: %s" [fmt_coins coins]),
                 ctx') /\
         bank ctx' = bank ctx /\
         events ctx' = events ctx /\
         kvstore ctx'
         = store_Delete (kvstore ctx)
             (GetOutgoingTxPoolKey (Erc20Fee tx) txId)).
Proof.
  intros Bank B C k. split.
  - intros ctx sender ethReceiver amount fee total tokenContract b err
      Hvalid Hadd Hlookup Hlock Hburn.
    unfold AddToOutgoingPool.
    rewrite invalid_arguments_guard in Hvalid.
    apply not_true_is_false in Hvalid. rewrite Hvalid, Hadd. simpl.
    rewrite Hlookup. destruct (Unwrap tokenContract) as [contractAddr ?].
    by rewrite Hlock, Hburn.
  - intros ctx txId sender tx coins err Hz Hid Hs Hidx Hget Hdecode Hcontract
      Hcoins Horigin Hmint.
    destruct (GetUnbatchedTxById_found _ _ _ _ Hget)
      as (_ & Hidtx & key & Hlook).
    pose proof (Hidx _ _ Hlook) as Hkey. rewrite Hidtx in Hkey. subst key.
    unfold RemoveFromOutgoingPoolAndRefund, IsZero.
    rewrite Hz. destruct (Z.ltb_spec txId 1) as [|_]; [lia|].
    destruct sender as [|byte0 sender]; [done|]. simpl.
    rewrite Hget. simpl. rewrite Hdecode.
    assert (Equals (byte0 :: sender) (byte0 :: sender) = true) as ->
      by by apply Equals_eq.
    simpl. rewrite Hcontract, String.eqb_refl. simpl.
    unfold removeUnbatchedTX, store_Has. rewrite Hlook.
    rewrite bool_decide_eq_true_2 by eauto. simpl.
    unfold GetUnbatchedTxByFeeAndId, store_Get, with_store. simpl.
    rewrite Hidtx, lookup_delete_eq. simpl.
    unfold RemoveFromOutgoingPool_refund. rewrite Hcoins. simpl.
    destruct (ERC20ToDenomLookup k (Contract (Erc20Token tx)))
      as [isCosmos denom]. simpl in Horigin. subst isCosmos.
    simpl. rewrite Hmint. eexists. split_and!; done.
Qed.

Lemma burn_failure_fatal_mint_failure_returned_witness :
  AddToOutgoingPool Example.keeper Example.genesis_no_permissions
    Example.alice Example.receiver (mkCoin Example.voucherA 100)
    (mkCoin Example.voucherA 10)
  = Panicked (PanicError Example.unauthorized) /\
  exists ctx',
    RemoveFromOutgoingPoolAndRefund Example.keeper Example.after_three_no_mint
      2 Example.alice
    = Done (Some (Wrapf Example.unauthorized "mint vouchers coins: %s"
                    [fmt_coins [mkCoin Example.voucherA 105]]), ctx') /\
    bank ctx' = bank Example.after_three_no_mint.
Proof.
  pose proof (burn_failure_fatal_mint_failure_returned
                Example.Ledger _ _ Example.keeper) as [Hburn Hmint].
  split.
  - apply (Hburn Example.genesis_no_permissions Example.alice
             Example.receiver (mkCoin Example.voucherA 100)
             (mkCoin Example.voucherA 10) (mkCoin Example.voucherA 110)
             (mkOptionalEthAddress false
                (Some (mkEthAddress Example.tokenA)))
             (Example.mkLedger [(Example.alice, Example.voucherA, 890)]
                [(Example.voucherA, 110)] false false)
             Example.unauthorized).
    + rewrite invalid_arguments_guard. vm_compute. discriminate.
    + vm_compute. reflexivity.
    + vm_compute. reflexivity.
    + vm_compute. reflexivity.
    + vm_compute. reflexivity.
  - destruct (Hmint Example.after_three_no_mint 2 Example.alice
                (outgoing_tx 2 Example.alice Example.receiver
                   (mkCoin Example.voucherA 100) (mkCoin Example.voucherA 5)
                   (mkEthAddress Example.tokenA))
                [mkCoin Example.voucherA 105] Example.unauthorized)
      as (ctx' & Hrun & Hbank & _).
    + reflexivity.
    + lia.
    + discriminate.
    + apply pool_indexed_map_Forall.
      apply (bool_decide_unpack _). vm_compute. reflexivity.
    + vm_compute. reflexivity.
    + vm_compute. reflexivity.
    + reflexivity.
    + vm_compute. reflexivity.
    + vm_compute. reflexivity.
    + vm_compute. reflexivity.
    + exists ctx'. split; assumption.
Defined.


(** ** Sorting the fee summaries *)

Section sort_slice.
Context {A : Type} (less : A -> A -> bool).

Hypothesis less_asym : forall a b, less a b = true -> less b a = false.

Lemma sort_insert_Permutation (x : A) (l : list A) :
  sort_insert less x l ≡ₚ x :: l.
Proof.
  induction l as [|y l IH]; simpl; [done|].
  destruct (less x y); [done|]. rewrite IH. apply Permutation_swap.
Qed.

Lemma sort_Slice_Permutation (l : list A) : sort_Slice less l ≡ₚ l.
Proof.
  unfold sort_Slice.
  assert (forall acc, fold_left (fun sorted x => sort_insert less x sorted) l acc
                      ≡ₚ acc ++ l) as H; [|by rewrite H].
  induction l as [|x l IH]; intros acc; simpl.
  - by rewrite app_nil_r.
  - rewrite IH, sort_insert_Permutation.
    by rewrite <- Permutation_middle.
Qed.

Lemma sort_insert_Sorted (x : A) (l : list A) :
  Sorted (not_after less) l -> Sorted (not_after less) (sort_insert less x l).
Proof.
  induction l as [|y l IH]; simpl; intros Hs.
  - repeat constructor.
  - destruct (less x y) eqn:Hxy.
    + constructor; [done|]. constructor. by apply less_asym.
    + apply Sorted_inv in Hs as [Hs Hhd].
      constructor; [by apply IH|].
      destruct l as [|z l]; simpl.
      * by constructor.
      * destruct (less x z); constructor; [done|].
        by apply HdRel_inv in Hhd.
Qed.

Lemma sort_Slice_Sorted (l : list A) : Sorted (not_after less) (sort_Slice less l).
Proof.
  unfold sort_Slice.
  assert (forall acc, Sorted (not_after less) acc ->
            Sorted (not_after less)
              (fold_left (fun sorted x => sort_insert less x sorted) l acc))
    as H; [|apply H; constructor].
  induction l as [|x l IH]; intros acc Hacc; simpl; [done|].
  apply IH. by apply sort_insert_Sorted.
Qed.

End sort_slice.

Lemma NoDup_fmap_inj_on {A B : Type} (f : A -> B) (l : list A) (x y : A) :
  NoDup (f <$> l) -> x ∈ l -> y ∈ l -> f x = f y -> x = y.
Proof.
  induction l as [|z l IH]; simpl; [by intros _ Hx; inv Hx|].
  rewrite NoDup_cons. intros [Hnin Hnd] Hx Hy Hf.
  inv Hx; inv Hy; try done.
  - destruct Hnin. rewrite Hf. by apply list_elem_of_fmap_2.
  - destruct Hnin. rewrite <- Hf. by apply list_elem_of_fmap_2.
  - by apply IH.
Qed.

Section token_order.

Lemma token_less_asym (a b : BatchFees) :
  token_less a b = true -> token_less b a = false.
Proof.
  unfold token_less, String.ltb.
  rewrite (String.compare_antisym (address (Token b))).
  by destruct (String.compare (address (Token a)) (address (Token b))).
Qed.

Lemma not_after_token_trans : Transitive (not_after token_less).
Proof.
  intros a b c. unfold not_after, token_less, String.ltb.
  rewrite (String.compare_antisym (address (Token b)) (address (Token a))).
  rewrite (String.compare_antisym (address (Token c)) (address (Token b))).
  rewrite (String.compare_antisym (address (Token c)) (address (Token a))).
  destruct (String.compare (address (Token a)) (address (Token b))) eqn:Hab;
    destruct (String.compare (address (Token b)) (address (Token c))) eqn:Hbc;
    simpl; try done; intros _ _.
  - apply string_compare_eq in Hab, Hbc.
    by rewrite Hab, Hbc, string_compare_refl.
  - apply string_compare_eq in Hab. by rewrite Hab, Hbc.
  - apply string_compare_eq in Hbc. by rewrite <- Hbc, Hab.
  - by rewrite (string_compare_lt_trans _ _ _ Hab Hbc).
Qed.

Lemma not_after_token_antisym (a b : BatchFees) :
  not_after token_less a b -> not_after token_less b a ->
  token_address a = token_address b.
Proof.
  unfold not_after, token_less, String.ltb, token_address.
  rewrite (String.compare_antisym (address (Token b)) (address (Token a))).
  destruct (String.compare (address (Token a)) (address (Token b))) eqn:Hab;
    simpl; try done.
  intros _ _. by apply string_compare_eq.
Qed.

(** Summaries of pairwise different tokens sort to one list, whatever the
    order they are handed over in. *)
Lemma sort_Slice_token_unique (l1 l2 : list BatchFees) :
  NoDup (token_address <$> l1) -> l1 ≡ₚ l2 ->
  sort_Slice token_less l1 = sort_Slice token_less l2.
Proof.
  intros Hnd Hperm.
  apply (Sorted_unique_strong (not_after token_less)
           (Transitive0 := not_after_token_trans)).
  - intros x1 x2 Hx1 Hx2 H12 H21.
    rewrite sort_Slice_Permutation in Hx1.
    rewrite sort_Slice_Permutation, <- Hperm in Hx2.
    eapply NoDup_fmap_inj_on; eauto using not_after_token_antisym.
  - apply sort_Slice_Sorted, token_less_asym.
  - apply sort_Slice_Sorted, token_less_asym.
  - by rewrite !sort_Slice_Permutation.
Qed.

(** Sorted summaries of pairwise different tokens ascend strictly. *)
Lemma sort_Slice_token_ascending (l : list BatchFees) :
  NoDup (token_address <$> l) ->
  StronglySorted (fun a b => token_less a b = true) (sort_Slice token_less l).
Proof.
  intros Hnd.
  assert (StronglySorted (not_after token_less) (sort_Slice token_less l))
    as Hs.
  { apply Sorted_StronglySorted; [apply not_after_token_trans|].
    apply sort_Slice_Sorted, token_less_asym. }
  assert (NoDup (token_address <$> sort_Slice token_less l)) as Hnd'
    by by rewrite sort_Slice_Permutation.
  pose proof (StronglySorted_NoDup_strict _ _ _ Hs Hnd') as Hstrict.
  eapply StronglySorted_weaken; [|exact Hstrict].
  intros a b [Hle Hne]. unfold not_after, token_less, String.ltb in *.
  unfold token_address in Hne.
  rewrite (String.compare_antisym (address (Token b))) in Hle.
  destruct (String.compare (address (Token a)) (address (Token b))) eqn:Hab;
    simpl in *; try done.
  by apply string_compare_eq in Hab.
Qed.

End token_order.


(** ** The fee summaries of all contracts *)

Lemma iterate_entries_invariant {Acc : Type} (P : Acc -> Prop)
    (cb : Acc -> PoolKey -> OutgoingTransferTx -> Exec (Acc * bool))
    (entries : list (PoolKey * OutgoingTransferTx)) (acc r : Acc) :
  (forall acc key tx acc' stop,
     P acc -> cb acc key tx = Done (acc', stop) -> P acc') ->
  P acc -> iterate_entries cb entries acc = Done r -> P r.
Proof.
  intros Hstep. revert acc.
  induction entries as [|[key tx] entries IH]; intros acc Hacc; simpl.
  - by intros [= <-].
  - destruct (cb acc key tx) as [[acc' stop]|] eqn:Hcb; simpl; [|done].
    pose proof (Hstep _ _ _ _ _ Hacc Hcb) as Hacc'.
    destruct stop; [by intros [= <-]|]. by apply IH.
Qed.

Lemma addFeeToMap_keyed (fee : ERC20Token)
    (batchFeesMap batchFeesMap' : gmap string BatchFees)
    (txCountMap txCountMap' : gmap string Z) :
  keyed_by_token batchFeesMap ->
  addFeeToMap fee batchFeesMap txCountMap = Done (batchFeesMap', txCountMap') ->
  keyed_by_token batchFeesMap'.
Proof.
  intros Hkeyed. unfold addFeeToMap.
  destruct (batchFeesMap !! Contract fee) as [b|] eqn:Hb.
  - destruct (Int_Add (TotalFees b) (Amount fee)) as [total|]; simpl;
      [|done].
    intros [= <- _] key b'. rewrite lookup_insert.
    case_decide; [|apply Hkeyed]. intros [= <-]. subst key.
    apply (Hkeyed _ _ Hb).
  - intros [= <- _] key b'. rewrite lookup_insert.
    case_decide; [|apply Hkeyed]. by intros [= <-].
Qed.

Lemma createBatchFees_keyed (store : KVStore) (maxElements : Z)
    (m : gmap string BatchFees) :
  createBatchFees store maxElements = Done m -> keyed_by_token m.
Proof.
  unfold createBatchFees, IterateUnbatchedTransactions.
  destruct (iterate_entries _ _ _) as [[m' counts]|] eqn:Hit; simpl; [|done].
  intros [= <-].
  apply (iterate_entries_invariant (fun acc => keyed_by_token acc.1))
    in Hit; [done| |].
  - intros [bm cm] key tx [bm' cm'] stop Hacc. simpl in *.
    unfold createBatchFees_cb.
    destruct (_ <? _)%Z; [|by intros [= <- _ _]].
    destruct (addFeeToMap _ _ _) as [[bm'' cm'']|] eqn:Hadd; simpl; [|done].
    intros [= <- _ _]. by eapply addFeeToMap_keyed.
  - intros key b. simpl. by rewrite lookup_empty.
Qed.

Lemma keyed_by_token_NoDup (m : gmap string BatchFees)
    (l : list (string * BatchFees)) :
  keyed_by_token m -> l ≡ₚ map_to_list m ->
  NoDup (token_address <$> l.*2).
Proof.
  intros Hkeyed Hperm.
  assert (token_address <$> l.*2 = l.*1) as ->.
  { rewrite <- list_fmap_compose. apply Forall_fmap_ext_1, Forall_forall.
    intros [key b] Hin. simpl. apply Hkeyed.
    rewrite Hperm in Hin. by apply elem_of_map_to_list in Hin. }
  rewrite Hperm. apply NoDup_fst_map_to_list.
Qed.

Lemma fold_left_append_values {K V : Type} (l : list (K * V)) (acc : list V) :
  fold_left (fun batchFees kv => (batchFees ++ [kv.2])%list) l acc
  = (acc ++ l.*2)%list.
Proof.
  revert acc. induction l as [|kv l IH]; intros acc; simpl.
  - by rewrite app_nil_r.
  - by rewrite IH, <- app_assoc.
Qed.

(** C3. For every pool snapshot and every [maxElements], the result of
    [GetAllBatchFees] is the same under any two orders in which the runtime
    may walk the map of fee summaries; when the call returns, the result
    holds exactly the summaries of that map, in strictly ascending order of
    their contract address. *)
Theorem all_batch_fees_sorted_order_independent :
  forall (rangeOrder1 rangeOrder2 :
            gmap string BatchFees -> list (string * BatchFees))
         (store : KVStore) (maxElements : Z),
    range_order rangeOrder1 ->
    range_order rangeOrder2 ->
    GetAllBatchFees rangeOrder1 store maxElements
    = GetAllBatchFees rangeOrder2 store maxElements /\
    forall out,
      GetAllBatchFees rangeOrder1 store maxElements = Done out ->
      StronglySorted
        (fun a b => String.ltb (address (Token a)) (address (Token b)) = true)
        out /\
      exists m, createBatchFees store maxElements = Done m /\
                out ≡ₚ (map_to_list m).*2.
Proof.
  intros r1 r2 store maxElements Hr1 Hr2. unfold GetAllBatchFees.
  destruct (createBatchFees store maxElements) as [m|] eqn:Hm; simpl;
    [|done].
  apply createBatchFees_keyed in Hm.
  rewrite !fold_left_append_values. simpl.
  pose proof (keyed_by_token_NoDup m (r1 m) Hm (Hr1 m)) as Hnd.
  split.
  - f_equal. apply sort_Slice_token_unique; [done|].
    by rewrite (Hr1 m), (Hr2 m).
  - intros out [= <-]. split.
    + by apply sort_Slice_token_ascending.
    + exists m. split; [done|].
      by rewrite sort_Slice_Permutation, (Hr1 m).
Qed.

Lemma all_batch_fees_sorted_order_independent_witness :
  range_order map_to_list /\
  range_order (fun m => reverse (map_to_list m)) /\
  GetAllBatchFees map_to_list (kvstore Example.after_mixed.2) 2
  = GetAllBatchFees (fun m => reverse (map_to_list m))
      (kvstore Example.after_mixed.2) 2 /\
  GetAllBatchFees map_to_list (kvstore Example.after_mixed.2) 2
  = Done [mkBatchFees (mkEthAddress Example.tokenA) 15;
          mkBatchFees (mkEthAddress Example.tokenB) 10].
Proof.
  assert (range_order (map_to_list (K := string) (A := BatchFees))) as H1
    by (intros m; reflexivity).
  assert (range_order
            (fun m : gmap string BatchFees => reverse (map_to_list m))) as H2
    by (intros m; apply reverse_Permutation).
  split; [exact H1|]. split; [exact H2|].
  split; [|vm_compute; reflexivity].
  apply (all_batch_fees_sorted_order_independent _ _
           (kvstore Example.after_mixed.2) 2 H1 H2).
Defined.


(** ** The fee of the next batch *)

Lemma wrap_int64_small (z : Z) : - 2 ^ 63 <= z < 2 ^ 63 -> wrap_int64 z = z.
Proof. intros. unfold wrap_int64. rewrite Z.mod_small; lia. Qed.

Lemma sum_fees_nonneg (txs : list OutgoingTransferTx) :
  Forall (fun tx => 0 <= Amount (Erc20Fee tx)) txs -> 0 <= sum_fees txs.
Proof. induction 1; simpl; lia. Qed.

(** The loop of [GetBatchFeeByTokenType], started with the total [t] and the
    count [c]: it adds the fees of the entries up to and including the one
    that brings the count to [int(maxElements)], and of all entries when the
    count is past that value already. *)
Lemma iterate_batchFee (tokenContractAddr : EthAddress) (maxElements : Z)
    (entries : list (PoolKey * OutgoingTransferTx)) (t c : Z) :
  Forall (fun e => Contract (Erc20Fee e.2) = address tokenContractAddr)
    entries ->
  Forall (fun tx => 0 <= Amount (Erc20Fee tx)) entries.*2 ->
  0 <= t -> t + sum_fees entries.*2 < 2 ^ 255 ->
  0 <= c -> c + Z.of_nat (length entries) < 2 ^ 63 ->
  exists c',
    iterate_entries (batchFee_cb tokenContractAddr maxElements) entries
      (mkBatchFees tokenContractAddr t, c)
    = Done (mkBatchFees tokenContractAddr
              (t + sum_fees
                     (take (if Z.ltb c (int_of_uint maxElements)
                            then Z.to_nat (int_of_uint maxElements - c)
                            else length entries) entries.*2)), c').
Proof.
  revert t c. induction entries as [|[key tx] entries IH];
    intros t c Hcontract Hfees Ht Hsum Hc Hlen; csimpl.
  - exists c. rewrite take_nil. simpl. by rewrite Z.add_0_r.
  - apply Forall_cons in Hcontract as [Hc1 Hcontract].
    csimpl in Hfees. apply Forall_cons in Hfees as [Hf1 Hfees].
    csimpl in Hc1. csimpl in Hsum. csimpl in Hlen.
    rewrite Hc1, String.eqb_refl. csimpl.
    pose proof (sum_fees_nonneg _ Hfees) as Hrest.
    rewrite Int_Add_small by lia. cbn [exec_bind].
    rewrite wrap_int64_small by lia.
    destruct (Z.eqb_spec (c + 1) (int_of_uint maxElements)) as [Heq|Hne].
    + exists (c + 1). rewrite <- Heq.
      destruct (Z.ltb_spec c (c + 1)); [|lia].
      replace (Z.to_nat (c + 1 - c)) with 1%nat by lia.
      cbn [take sum_fees foldr]. rewrite take_0. cbn [foldr].
      do 3 f_equal. lia.
    + destruct (IH (t + Amount (Erc20Fee tx)) (c + 1)) as [c' ->];
        [done|done|lia|lia|lia|lia|].
      exists c'. do 3 f_equal.
      destruct (Z.ltb_spec c (int_of_uint maxElements));
        destruct (Z.ltb_spec (c + 1) (int_of_uint maxElements)); try lia.
      * replace (Z.to_nat (int_of_uint maxElements - c))
          with (S (Z.to_nat (int_of_uint maxElements - (c + 1)))) by lia.
        cbn [take sum_fees foldr]. fold (sum_fees (take
          (Z.to_nat (int_of_uint maxElements - (c + 1))) entries.*2)). lia.
      * cbn [take sum_fees foldr].
        fold (sum_fees (take (length entries) entries.*2)). lia.
Qed.

(** What [GetBatchFeeByTokenType] returns on a pool whose entries sit under
    the keys of their own fee and id, with non-negative fees that add up
    below the range of [sdk.Int]: the sum of the fees of the first
    [batch_size maxElements] transfers of the contract in fee priority. *)
Lemma GetBatchFeeByTokenType_sum (store : KVStore)
    (tokenContractAddr : EthAddress) (maxElements : Z)
    (txs : list OutgoingTransferTx) :
  pool_indexed store ->
  GetUnbatchedTransactionsByContract store tokenContractAddr = Done txs ->
  Forall (fun tx => 0 <= Amount (Erc20Fee tx)) txs ->
  sum_fees txs < 2 ^ 255 ->
  Z.of_nat (length txs) < 2 ^ 63 ->
  GetBatchFeeByTokenType store tokenContractAddr maxElements
  = Done (mkBatchFees tokenContractAddr
            (sum_fees (take (batch_size maxElements (length txs)) txs))).
Proof.
  intros Hidx Hget Hfees Hsum Hlen.
  unfold GetUnbatchedTransactionsByContract in Hget.
  rewrite collectUnbatchedTransactions_eq in Hget. injection Hget as <-.
  unfold GetBatchFeeByTokenType, IterateUnbatchedTransactions.
  set (entries := ReverseIterator store _) in *.
  destruct (iterate_batchFee tokenContractAddr maxElements entries 0 0)
    as [c' ->]; try done; try lia.
  - apply Forall_forall. intros [key tx] Hin.
    apply elem_of_ReverseIterator in Hin as [Hlook Hrange]. simpl in *.
    apply Hidx in Hlook. subst key. simpl in Hrange.
    symmetry. by apply String.eqb_eq, Is_true_true.
  - by rewrite length_fmap in Hlen.
  - simpl. unfold batch_size. rewrite Z.sub_0_r, length_fmap. done.
Qed.

(** C4, on the code. Over the pending fees 20, 10, 5 of one contract
    [GetBatchFeeByTokenType] returns 30 for [maxElements = 2] and 35 for
    [maxElements = 10]; for [maxElements = 0] it returns 35, the sum of all
    three fees, although a cap of 0 allows no transfer, while
    [createBatchFees] and [GetAllBatchFees] with the same cap count none. *)
Theorem batch_fee_cap_zero_sums_all :
  Example.fees_by_contract (kvstore Example.after_three.2) Example.tokenA
  = Done [20; 10; 5] /\
  GetBatchFeeByTokenType (kvstore Example.after_three.2)
    (mkEthAddress Example.tokenA) 2
  = Done (mkBatchFees (mkEthAddress Example.tokenA) 30) /\
  GetBatchFeeByTokenType (kvstore Example.after_three.2)
    (mkEthAddress Example.tokenA) 10
  = Done (mkBatchFees (mkEthAddress Example.tokenA) 35) /\
  GetBatchFeeByTokenType (kvstore Example.after_three.2)
    (mkEthAddress Example.tokenA) 0
  = Done (mkBatchFees (mkEthAddress Example.tokenA) 35) /\
  createBatchFees (kvstore Example.after_three.2) 0 = Done ∅ /\
  GetAllBatchFees map_to_list (kvstore Example.after_three.2) 0 = Done [] /\
  GetAllBatchFees map_to_list (kvstore Example.after_three.2) 2
  = Done [mkBatchFees (mkEthAddress Example.tokenA) 30].
Proof. split_and!; vm_compute; reflexivity. Qed.

(** ** Submitting onto an existing key *)

(** C5, on the code. On a store that holds a transfer under the key of
    contract [tokenA], fee 10 and id 1 but no id counter, a call of
    [AddToOutgoingPool] by [bob] with fee 10 is given id 1 again;
    [addUnbatchedTX] finds the key and returns [ErrDuplicate], which
    [AddToOutgoingPool] drops: the call returns id 1 and no error, the
    coins of [bob] are taken, and the pool still holds the earlier transfer
    of [alice] alone. *)
Theorem submit_on_existing_key_returns_no_error :
  sequences (kvstore Example.stale_counter) !! KeyLastTXPoolID = None /\
  store_Has (kvstore Example.stale_counter)
    (GetOutgoingTxPoolKey (mkERC20Token 10 Example.tokenA) 1) = true /\
  (addUnbatchedTX (kvstore Example.stale_counter)
     (outgoing_tx 1 Example.bob Example.receiver
        (mkCoin Example.voucherA 100) (mkCoin Example.voucherA 10)
        (mkEthAddress Example.tokenA))).2
  = Some (Wrap ErrDuplicate "transaction already in pool") /\
  Example.submit_returns Example.stale_counter (Example.bob_sends_A 10)
  = Done (1, None) /\
  (submit_all Example.keeper Example.stale_counter
     [Example.bob_sends_A 10]).1 = [1] /\
  Example.ids_by_contract
    (kvstore (submit_all Example.keeper Example.stale_counter
                [Example.bob_sends_A 10]).2) Example.tokenA
  = Done [1] /\
  Example.senders_by_contract
    (kvstore (submit_all Example.keeper Example.stale_counter
                [Example.bob_sends_A 10]).2) Example.tokenA
  = Done [AccAddress_String Example.alice] /\
  Example.balance_of
    (Example.account_balances
       (bank (submit_all Example.keeper Example.stale_counter
                [Example.bob_sends_A 10]).2))
    (Example.bob, Example.voucherA)
  = Example.balance_of
      (Example.account_balances (bank Example.stale_counter))
      (Example.bob, Example.voucherA) - 110.
Proof. split_and!; vm_compute; reflexivity. Qed.

(** The errors [AddToOutgoingPool] returns are the argument error, the
    error of the denomination lookup and the error of the transfer into the
    module account: the error of [addUnbatchedTX] is not among them. *)
Lemma AddToOutgoingPool_errors {Bank : Type} `{!BankKeeper Bank}
    `{!AddressCodec} (k : Keeper) (ctx ctx' : Context Bank)
    (sender : AccAddress) (ethReceiver : EthAddress) (amount fee : Coin)
    (id : Z) (e : Error) :
  AddToOutgoingPool k ctx sender ethReceiver amount fee
  = Done ((id, Some e), ctx') ->
  e = Wrap ErrInvalid "arguments" \/
  (exists total, Coin_Add amount fee = Done total /\
                 (DenomToERC20Lookup k (Denom total)).2 = Some e) \/
  (exists total, Coin_Add amount fee = Done total /\
                 SendCoinsFromAccountToModule (bank ctx) sender ModuleName
                   [total] = BankError e).
Proof.
  unfold AddToOutgoingPool.
  case_match; [intros [= _ <- _]; by left|].
  destruct (Coin_Add amount fee) as [total|]; simpl; [|done].
  destruct (DenomToERC20Lookup k (Denom total)) as [[isCosmos tc] [err|]]
    eqn:Hlookup.
  { intros [= _ <- _]. right. left. exists total. by rewrite Hlookup. }
  destruct (Unwrap tc) as [contractAddr ?].
  destruct isCosmos;
    (destruct (SendCoinsFromAccountToModule _ _ _ _) as [b|err] eqn:Hlock;
     [|intros [= _ <- _]; right; right; by exists total]).
  - intros Hrec. apply AddToOutgoingPool_record_inv in Hrec
      as (? & ? & ? & _ & _ & ? & _). done.
  - destruct (BurnCoins _ _ _) as [b'|err]; [|done].
    intros Hrec. apply AddToOutgoingPool_record_inv in Hrec
      as (? & ? & ? & _ & _ & ? & _). done.
Qed.

(** The store [RemoveFromOutgoingPoolAndRefund] leaves behind is the one it
    found, with at most one entry removed. *)
Lemma RemoveFromOutgoingPoolAndRefund_store {Bank : Type} `{!BankKeeper Bank}
    `{!AddressCodec} (k : Keeper) (ctx ctx' : Context Bank) (txId : Z)
    (sender : AccAddress) (e : option Error) :
  RemoveFromOutgoingPoolAndRefund k ctx txId sender = Done (e, ctx') ->
  kvstore ctx' = kvstore ctx \/
  exists fee, kvstore ctx' = (removeUnbatchedTX (kvstore ctx) fee txId).1.
Proof.
  unfold RemoveFromOutgoingPoolAndRefund.
  case_match; [intros [= _ <-]; by left|].
  destruct (GetUnbatchedTxById (kvstore ctx) txId) as [[tx [err|]]|]; simpl;
    try done; [intros [= _ <-]; by left|].
  destruct tx as [tx|]; simpl; [|done].
  destruct (AccAddressFromBech32 (Sender tx)) as [txSender [err|]]; [done|].
  case_match; [intros [= _ <-]; by left|].
  case_match; [intros [= _ <-]; by left|].
  destruct (removeUnbatchedTX (kvstore ctx) (Erc20Fee tx) txId)
    as [store err] eqn:Hrem.
  assert (store = (removeUnbatchedTX (kvstore ctx) (Erc20Fee tx) txId).1)
    as Hstore by by rewrite Hrem.
  destruct err as [err|]; [intros [= _ <-]; right; by exists (Erc20Fee tx)|].
  destruct (GetUnbatchedTxByFeeAndId _ _ _) as [oldTx oldTxErr].
  case_match; [intros [= _ <-]; right; by exists (Erc20Fee tx)|].
  unfold RemoveFromOutgoingPool_refund.
  destruct (refund_coins tx) as [coins|]; simpl; [|done].
  destruct (ERC20ToDenomLookup k (Contract (Erc20Token tx)))
    as [isCosmos denom].
  destruct isCosmos.
  - destruct (SendCoinsFromModuleToAccount _ _ _ _);
      intros [= _ <-]; right; by exists (Erc20Fee tx).
  - destruct (MintCoins _ _ _);
      [|intros [= _ <-]; right; by exists (Erc20Fee tx)].
    simpl. destruct (SendCoinsFromModuleToAccount _ _ _ _);
      intros [= _ <-]; right; by exists (Erc20Fee tx).
Qed.

(** A cancel keeps every entry under the key of its own fee and id. *)
Lemma RemoveFromOutgoingPoolAndRefund_indexed {Bank : Type}
    `{!BankKeeper Bank} `{!AddressCodec} (k : Keeper)
    (ctx ctx' : Context Bank) (txId : Z) (sender : AccAddress)
    (e : option Error) :
  pool_indexed (kvstore ctx) ->
  RemoveFromOutgoingPoolAndRefund k ctx txId sender = Done (e, ctx') ->
  pool_indexed (kvstore ctx').
Proof.
  intros Hidx Hrun.
  apply RemoveFromOutgoingPoolAndRefund_store in Hrun as [->|[fee ->]];
    [done|]. by apply removeUnbatchedTX_indexed.
Qed.


(** * Further properties of the pool *)

(** ** Entries: insert, look up, remove *)

Lemma store_Has_true (store : KVStore) (key : PoolKey) :
  store_Has store key = true <-> is_Some (pool store !! key).
Proof. unfold store_Has. by rewrite bool_decide_eq_true. Qed.

Lemma store_Has_false (store : KVStore) (key : PoolKey) :
  store_Has store key = false <-> pool store !! key = None.
Proof.
  unfold store_Has. rewrite bool_decide_eq_false.
  symmetry. apply eq_None_not_Some.
Qed.

(** The life of an entry. Adding a transfer whose key is free succeeds;
    from then on the lookup by fee and id returns this transfer and leaves
    the answers for all other keys as they were, adding any transfer of the
    same fee and id again is refused with [ErrDuplicate] and changes
    nothing, and removing it gives back the store as it was, on which the
    lookup and a second removal answer [ErrUnknown]. *)
Theorem pool_entry_lifecycle :
  forall (store : KVStore) (val : OutgoingTransferTx),
    pool store !! GetOutgoingTxPoolKey (Erc20Fee val) (Id val) = None ->
    exists store',
      addUnbatchedTX store val = (store', None) /\
      GetUnbatchedTxByFeeAndId store' (Erc20Fee val) (Id val)
      = (Some val, None) /\
      (forall fee id,
         GetOutgoingTxPoolKey fee id
         <> GetOutgoingTxPoolKey (Erc20Fee val) (Id val) ->
         GetUnbatchedTxByFeeAndId store' fee id
         = GetUnbatchedTxByFeeAndId store fee id) /\
      (forall val',
         Erc20Fee val' = Erc20Fee val -> Id val' = Id val ->
         addUnbatchedTX store' val'
         = (store', Some (Wrap ErrDuplicate "transaction already in pool"))) /\
      removeUnbatchedTX store' (Erc20Fee val) (Id val) = (store, None) /\
      GetUnbatchedTxByFeeAndId store (Erc20Fee val) (Id val)
      = (None, Some (Wrap ErrUnknown "pool transaction")) /\
      removeUnbatchedTX store (Erc20Fee val) (Id val)
      = (store, Some (Wrap ErrUnknown "pool transaction")).
Proof.
  intros store val Hfree.
  set (key := GetOutgoingTxPoolKey (Erc20Fee val) (Id val)) in *.
  exists (store_Set store key val).
  assert (store_Has store key = false) as Hhas by by apply store_Has_false.
  assert (store_Has (store_Set store key val) key = true) as Hhas'.
  { apply store_Has_true. unfold store_Set. simpl.
    rewrite lookup_insert_eq. eauto. }
  split_and!.
  - unfold addUnbatchedTX. fold key. by rewrite Hhas.
  - unfold GetUnbatchedTxByFeeAndId, store_Get, store_Set. fold key. simpl.
    by rewrite lookup_insert_eq.
  - intros fee id Hne.
    unfold GetUnbatchedTxByFeeAndId, store_Get, store_Set. simpl.
    by rewrite lookup_insert_ne.
  - intros val' Hfee Hid. unfold addUnbatchedTX.
    rewrite Hfee, Hid. fold key. by rewrite Hhas'.
  - unfold removeUnbatchedTX. fold key. rewrite Hhas'. simpl.
    unfold store_Delete, store_Set. simpl.
    rewrite delete_insert_id by done. by destruct store.
  - unfold GetUnbatchedTxByFeeAndId, store_Get. fold key. by rewrite Hfree.
  - unfold removeUnbatchedTX. fold key. by rewrite Hhas.
Qed.

Lemma pool_entry_lifecycle_witness :
  pool Example.empty_store
    !! GetOutgoingTxPoolKey (mkERC20Token 10 Example.tokenA) 1 = None /\
  exists store',
    addUnbatchedTX Example.empty_store
      (outgoing_tx 1 Example.alice Example.receiver
         (mkCoin Example.voucherA 100) (mkCoin Example.voucherA 10)
         (mkEthAddress Example.tokenA)) = (store', None) /\
    removeUnbatchedTX store' (mkERC20Token 10 Example.tokenA) 1
    = (Example.empty_store, None).
Proof.
  split; [reflexivity|].
  destruct (pool_entry_lifecycle Example.empty_store
              (outgoing_tx 1 Example.alice Example.receiver
                 (mkCoin Example.voucherA 100) (mkCoin Example.voucherA 10)
                 (mkEthAddress Example.tokenA)))
    as (store' & Hadd & _ & _ & _ & Hrem & _); [reflexivity|].
  exists store'. split; assumption.
Defined.

(** Removing an entry that is there takes out this entry and no other: the
    lookup of its key answers [ErrUnknown] afterwards, the lookups of all
    other keys answer as before, the id counters are untouched, and adding
    the removed transfer again (when it sat under the key of its own fee and
    id) gives back the store as it was. *)
Theorem pool_remove_only_that_entry :
  forall (store : KVStore) (fee : ERC20Token) (txID : Z)
         (tx : OutgoingTransferTx),
    pool store !! GetOutgoingTxPoolKey fee txID = Some tx ->
    exists store',
      removeUnbatchedTX store fee txID = (store', None) /\
      GetUnbatchedTxByFeeAndId store' fee txID
      = (None, Some (Wrap ErrUnknown "pool transaction")) /\
      (forall fee' id',
         GetOutgoingTxPoolKey fee' id' <> GetOutgoingTxPoolKey fee txID ->
         GetUnbatchedTxByFeeAndId store' fee' id'
         = GetUnbatchedTxByFeeAndId store fee' id') /\
      sequences store' = sequences store /\
      (GetOutgoingTxPoolKey (Erc20Fee tx) (Id tx)
       = GetOutgoingTxPoolKey fee txID ->
       addUnbatchedTX store' tx = (store, None)).
Proof.
  intros store fee txID tx Hlook.
  set (key := GetOutgoingTxPoolKey fee txID) in *.
  exists (store_Delete store key).
  assert (store_Has store key = true) as Hhas
    by (apply store_Has_true; eauto).
  split_and!.
  - unfold removeUnbatchedTX. fold key. by rewrite Hhas.
  - unfold GetUnbatchedTxByFeeAndId, store_Get, store_Delete. fold key.
    simpl. by rewrite lookup_delete_eq.
  - intros fee' id' Hne.
    unfold GetUnbatchedTxByFeeAndId, store_Get, store_Delete. simpl.
    by rewrite lookup_delete_ne.
  - done.
  - intros Hkey. unfold addUnbatchedTX. rewrite Hkey.
    assert (store_Has (store_Delete store key) key = false) as ->.
    { apply store_Has_false. unfold store_Delete. simpl.
      apply lookup_delete_eq. }
    unfold store_Set, store_Delete. simpl.
    rewrite insert_delete_id by done. by destruct store.
Qed.

Lemma pool_remove_only_that_entry_witness :
  pool (kvstore Example.after_three.2)
    !! GetOutgoingTxPoolKey (mkERC20Token 5 Example.tokenA) 2
  = Some (outgoing_tx 2 Example.alice Example.receiver
            (mkCoin Example.voucherA 100) (mkCoin Example.voucherA 5)
            (mkEthAddress Example.tokenA)) /\
  exists store',
    removeUnbatchedTX (kvstore Example.after_three.2)
      (mkERC20Token 5 Example.tokenA) 2 = (store', None) /\
    GetUnbatchedTxByFeeAndId store' (mkERC20Token 5 Example.tokenA) 2
    = (None, Some (Wrap ErrUnknown "pool transaction")).
Proof.
  assert (pool (kvstore Example.after_three.2)
            !! GetOutgoingTxPoolKey (mkERC20Token 5 Example.tokenA) 2
          = Some (outgoing_tx 2 Example.alice Example.receiver
                    (mkCoin Example.voucherA 100) (mkCoin Example.voucherA 5)
                    (mkEthAddress Example.tokenA))) as Hlook
    by (vm_compute; reflexivity).
  split; [exact Hlook|].
  destruct (pool_remove_only_that_entry _ _ _ _ Hlook)
    as (store' & Hrem & Hget & _).
  exists store'. split; assumption.
Defined.

(** ** Looking a transfer up by its id *)

Lemma iterate_entries_find_first (txID : Z)
    (entries : list (PoolKey * OutgoingTransferTx)) :
  (exists before key tx after,
     entries = (before ++ (key, tx) :: after)%list /\
     Forall (fun e => Id e.2 <> txID) before /\ Id tx = txID /\
     iterate_entries
       (fun (r : option OutgoingTransferTx) (_ : PoolKey) tx =>
          if Z.eqb (Id tx) txID then Done (Some tx, true)
          else Done (r, false)) entries None = Done (Some tx)) \/
  (Forall (fun e => Id e.2 <> txID) entries /\
   iterate_entries
     (fun (r : option OutgoingTransferTx) (_ : PoolKey) tx =>
        if Z.eqb (Id tx) txID then Done (Some tx, true)
        else Done (r, false)) entries None = Done None).
Proof.
  induction entries as [|[key tx] entries IH]; simpl.
  - right. split; [constructor|done].
  - destruct (Z.eqb_spec (Id tx) txID) as [Heq|Hne]; simpl.
    + left. exists [], key, tx, entries. split_and!; [done|constructor|done..].
    + destruct IH as [(before & key' & tx' & after & -> & Hb & Hid & ->)
                     |[Hall ->]].
      * left. exists ((key, tx) :: before), key', tx', after.
        split_and!; [done|by constructor|done..].
      * right. split; [by constructor|done].
Qed.

(** [GetUnbatchedTxById] never panics. It answers [ErrUnknown] exactly when
    no entry of the pool has the id; otherwise it returns an entry with the
    id, and among several entries with the id the one with the greatest
    key. *)
Theorem lookup_by_id_first_match :
  forall (store : KVStore) (txID : Z),
    (exists key tx,
       GetUnbatchedTxById store txID = Done (Some tx, None) /\
       pool store !! key = Some tx /\ Id tx = txID /\
       forall key' tx',
         pool store !! key' = Some tx' -> Id tx' = txID ->
         key_leb key' key) \/
    (GetUnbatchedTxById store txID
       = Done (None, Some (Wrap ErrUnknown "pool transaction")) /\
     forall key tx, pool store !! key = Some tx -> Id tx <> txID).
Proof.
  intros store txID. unfold GetUnbatchedTxById, IterateUnbatchedTransactions.
  pose proof (ReverseIterator_descending store (prefixRange OutgoingTXPoolKey))
    as Hsorted.
  destruct (iterate_entries_find_first txID
              (ReverseIterator store (prefixRange OutgoingTXPoolKey)))
    as [(before & key & tx & after & Hentries & Hbefore & Hid & ->)
       |[Hall ->]]; simpl.
  - left. exists key, tx.
    assert ((key, tx) ∈ ReverseIterator store (prefixRange OutgoingTXPoolKey))
      as Hin by (rewrite Hentries; set_solver).
    apply elem_of_ReverseIterator in Hin as [Hlook _].
    split_and!; [done..|].
    intros key' tx' Hlook' Hid'.
    assert ((key', tx') ∈ ReverseIterator store
                            (prefixRange OutgoingTXPoolKey)) as Hin'
      by by apply elem_of_ReverseIterator.
    rewrite Hentries in Hin', Hsorted.
    apply elem_of_app in Hin' as [Hin'|Hin'].
    { rewrite Forall_forall in Hbefore. by destruct (Hbefore _ Hin'). }
    apply elem_of_cons in Hin' as [Heq|Hin'].
    { injection Heq as -> _. unfold key_leb. by rewrite key_compare_refl. }
    apply StronglySorted_app_1_r, StronglySorted_inv in Hsorted
      as [_ Hafter].
    rewrite Forall_forall in Hafter. specialize (Hafter _ Hin').
    simpl in Hafter. unfold key_leb. by rewrite Hafter.
  - right. split; [done|]. intros key tx Hlook.
    rewrite Forall_forall in Hall.
    apply (Hall (key, tx)). by apply elem_of_ReverseIterator.
Qed.

Lemma pool_wf_lookups (store : KVStore) (v : Z) (key : PoolKey)
    (tx : OutgoingTransferTx) :
  pool_wf store v ->
  pool store !! key = Some tx ->
  GetUnbatchedTxById store (Id tx) = Done (Some tx, None) /\
  GetUnbatchedTxByFeeAndId store (Erc20Fee tx) (Id tx) = (Some tx, None).
Proof.
  intros (_ & _ & Hidx & _ & Huniq) Hlook. split.
  - destruct (GetUnbatchedTxById_spec store (Id tx))
      as [(tx' & key' & -> & Hid & Hlook')|[_ Hnone]];
      [|by destruct (Hnone _ _ Hlook)].
    pose proof (Huniq _ _ _ _ Hlook' Hlook Hid) as ->.
    rewrite Hlook in Hlook'. by injection Hlook' as ->.
  - unfold GetUnbatchedTxByFeeAndId, store_Get.
    by rewrite <- (Hidx _ _ Hlook), Hlook.
Qed.

(** In a well-formed pool the lookup by id and the lookup by fee and id
    return the same record for every entry. *)
Theorem wf_lookups_agree :
  forall (store : KVStore) (v : Z) (key : PoolKey) (tx : OutgoingTransferTx),
    pool_wf store v ->
    pool store !! key = Some tx ->
    GetUnbatchedTxById store (Id tx) = Done (Some tx, None) /\
    GetUnbatchedTxByFeeAndId store (Erc20Fee tx) (Id tx) = (Some tx, None).
Proof. intros store v key tx. apply pool_wf_lookups. Qed.

(** ** What a successful submit has done *)

Lemma Coin_Add_Done (coin coinB total : Coin) :
  Coin_Add coin coinB = Done total ->
  total = mkCoin (Denom coin) (CoinAmount coin + CoinAmount coinB) /\
  Denom coin = Denom coinB.
Proof.
  unfold Coin_Add.
  destruct (String.eqb_spec (Denom coin) (Denom coinB)) as [Hd|]; simpl;
    [|done].
  unfold Int_Add. destruct (_ <? _)%Z; simpl; [done|].
  by intros [= <-].
Qed.

Section submit_success.
Context {Bank : Type} `{!BankKeeper Bank} `{!AddressCodec}.
Variable k : Keeper.
Implicit Types (ctx : Context Bank) (sender : AccAddress).

Lemma AddToOutgoingPool_record_events ctx sender ethReceiver amount fee
    contractAddr r ctx' :
  AddToOutgoingPool_record k ctx sender ethReceiver amount fee contractAddr
    = Done (r, ctx') ->
  exists ev,
    events ctx' = (events ctx ++ [ev])%list /\
    event_type ev = EventTypeBridgeWithdrawalReceived /\
    (AttributeKeyOutgoingTXID, FmtInt (wrap_int64 r.1))
      ∈ event_attributes ev /\
    (AttributeKeyNonce, FmtInt r.1) ∈ event_attributes ev.
Proof.
  unfold AddToOutgoingPool_record.
  destruct (autoIncrementID (kvstore ctx) KeyLastTXPoolID)
    as [[id store1]|]; simpl; [|done].
  destruct contractAddr as [contract|]; simpl; [|done].
  destruct (addUnbatchedTX _ _) as [store2 err].
  intros [= <- <-]. eexists. split_and!; [done|done|set_solver..].
Qed.

Lemma AddToOutgoingPool_success_inv ctx sender ethReceiver amount fee id
    ctx' :
  AddToOutgoingPool k ctx sender ethReceiver amount fee
    = Done ((id, None), ctx') ->
  exists total isCosmos tokenContract contract b store1,
    ~ invalid_arguments ctx sender ethReceiver amount fee /\
    Coin_Add amount fee = Done total /\
    DenomToERC20Lookup k (Denom total) = (isCosmos, tokenContract, None) /\
    (Unwrap tokenContract).1 = Some contract /\
    SendCoinsFromAccountToModule (bank ctx) sender ModuleName [total]
    = BankOk b /\
    (if isCosmos then bank ctx' = b
     else BurnCoins b ModuleName [total] = BankOk (bank ctx')) /\
    autoIncrementID (kvstore ctx) KeyLastTXPoolID = Done (id, store1) /\
    kvstore ctx' =
      (addUnbatchedTX store1
         (outgoing_tx id sender ethReceiver amount fee contract)).1 /\
    exists ev,
      events ctx' = (events ctx ++ [ev])%list /\
      event_type ev = EventTypeBridgeWithdrawalReceived /\
      (AttributeKeyOutgoingTXID, FmtInt (wrap_int64 id))
        ∈ event_attributes ev.
Proof.
  unfold AddToOutgoingPool.
  destruct (_ || _) eqn:Hguard; [done|].
  assert (~ invalid_arguments ctx sender ethReceiver amount fee) as Hvalid.
  { rewrite invalid_arguments_guard. by rewrite Hguard. }
  destruct (Coin_Add amount fee) as [total|] eqn:Hadd; simpl; [|done].
  destruct (DenomToERC20Lookup k (Denom total)) as [[isCosmos tc] [err|]]
    eqn:Hlookup; [done|].
  destruct (Unwrap tc) as [contractAddr uerr] eqn:Hunwrap.
  destruct isCosmos.
  - destruct (SendCoinsFromAccountToModule _ _ _ _) as [b|err] eqn:Hlock;
      [|done].
    intros Hrec.
    destruct (AddToOutgoingPool_record_events _ _ _ _ _ _ _ _ Hrec)
      as (ev & Hev & Htype & Hattr & _).
    apply AddToOutgoingPool_record_inv in Hrec
      as (id' & store1 & contract & Hid & -> & [= <-] & Hstore & Hbank & _).
    exists total, true, tc, contract, b, store1.
    rewrite Hunwrap. split_and!; try done. by exists ev.
  - destruct (SendCoinsFromAccountToModule _ _ _ _) as [b|err] eqn:Hlock;
      [|done].
    destruct (BurnCoins b ModuleName [total]) as [b'|err] eqn:Hburn; [|done].
    intros Hrec.
    destruct (AddToOutgoingPool_record_events _ _ _ _ _ _ _ _ Hrec)
      as (ev & Hev & Htype & Hattr & _).
    apply AddToOutgoingPool_record_inv in Hrec
      as (id' & store1 & contract & Hid & -> & [= <-] & Hstore & Hbank & _).
    exists total, false, tc, contract, b, store1.
    rewrite Hunwrap. split_and!; try done.
    + by rewrite Hbank.
    + by exists ev.
Qed.

End submit_success.

(** A call of [AddToOutgoingPool] that returns an id and no error had valid
    arguments and has done the following: it has asked the bank once to move
    exactly amount plus fee, in their common denomination, from the sender
    into the module account, and once more to burn the same coins if and
    only if the registry does not report the denomination as
    cosmos-originated; it has taken the id from the counter; and it has
    announced that id in one [withdrawal_received] event appended to the
    events. *)
Theorem submit_success_effects :
  forall (Bank : Type) (B : BankKeeper Bank) (C : AddressCodec) (k : Keeper)
         (ctx ctx' : Context Bank) (sender : AccAddress)
         (ethReceiver : EthAddress) (amount fee : Coin) (id : Z),
    AddToOutgoingPool k ctx sender ethReceiver amount fee
      = Done ((id, None), ctx') ->
    let total := mkCoin (Denom amount) (CoinAmount amount + CoinAmount fee) in
    ~ invalid_arguments ctx sender ethReceiver amount fee /\
    (exists b,
       SendCoinsFromAccountToModule (bank ctx) sender ModuleName [total]
       = BankOk b /\
       if (DenomToERC20Lookup k (Denom total)).1.1 then bank ctx' = b
       else BurnCoins b ModuleName [total] = BankOk (bank ctx')) /\
    (exists store1,
       autoIncrementID (kvstore ctx) KeyLastTXPoolID = Done (id, store1) /\
       sequences (kvstore ctx') = sequences store1) /\
    exists ev,
      events ctx' = (events ctx ++ [ev])%list /\
      event_type ev = EventTypeBridgeWithdrawalReceived /\
      (AttributeKeyOutgoingTXID, FmtInt (wrap_int64 id))
        ∈ event_attributes ev.
Proof.
  intros Bank B C k ctx ctx' sender ethReceiver amount fee id Hrun total.
  apply AddToOutgoingPool_success_inv in Hrun
    as (total' & isCosmos & tc & contract & b & store1 & Hvalid & Hadd
        & Hlookup & _ & Hlock & Hburn & Hid & Hstore & Hev).
  apply Coin_Add_Done in Hadd as [-> _]. fold total in Hlookup, Hlock, Hburn.
  split_and!; [done| | |done].
  - exists b. split; [done|]. by rewrite Hlookup.
  - exists store1. split; [done|].
    by rewrite Hstore, addUnbatchedTX_sequences.
Qed.

(** The first transfer on the fresh chain of the examples is accepted with
    id 1. *)
Lemma example_first_submit :
  exists ctx',
    AddToOutgoingPool Example.keeper Example.genesis Example.alice
      Example.receiver (mkCoin Example.voucherA 100)
      (mkCoin Example.voucherA 10)
    = Done ((1, None), ctx').
Proof.
  assert (Example.submit_returns Example.genesis (Example.send_A 10)
          = Done (1, None)) as Hret by (vm_compute; reflexivity).
  unfold Example.submit_returns, Example.send_A in Hret.
  destruct (AddToOutgoingPool _ _ _ _ _ _) as [[[id e] ctx']|];
    simpl in Hret; [|discriminate].
  injection Hret as -> ->. by exists ctx'.
Qed.

Lemma submit_success_effects_witness :
  exists ctx',
    AddToOutgoingPool Example.keeper Example.genesis Example.alice
      Example.receiver (mkCoin Example.voucherA 100)
      (mkCoin Example.voucherA 10)
    = Done ((1, None), ctx') /\
    exists b,
      SendCoinsFromAccountToModule (bank Example.genesis) Example.alice
        ModuleName [mkCoin Example.voucherA 110] = BankOk b.
Proof.
  destruct example_first_submit as [ctx' Hrun].
  exists ctx'. split; [exact Hrun|].
  destruct (submit_success_effects _ _ _ _ _ _ _ _ _ _ _ Hrun)
    as (_ & (b & Hlock & _) & _).
  exists b. exact Hlock.
Defined.


(** ** Submit and the well-formed pool *)

Lemma pool_wf_empty (seqs : gmap string (list byte)) :
  seqs !! KeyLastTXPoolID = None -> pool_wf (mkKVStore ∅ seqs) 1.
Proof.
  intros Hnone. unfold pool_wf, next_id. simpl. rewrite Hnone.
  split_and!; [done|lia|apply pool_indexed_empty|..];
    intros *; by rewrite lookup_empty.
Qed.

Lemma pool_wf_fresh_key (store : KVStore) (v : Z) (fee : ERC20Token) :
  pool_wf store v -> pool store !! GetOutgoingTxPoolKey fee v = None.
Proof.
  intros (_ & _ & Hidx & Hids & _).
  destruct (pool store !! GetOutgoingTxPoolKey fee v) as [tx|] eqn:Hlook;
    [|done].
  pose proof (Hidx _ _ Hlook) as Hkey. apply (f_equal key_id) in Hkey.
  simpl in Hkey. destruct (Hids _ _ Hlook) as [? _]. lia.
Qed.

Section submit_wf.
Context {Bank : Type} `{!BankKeeper Bank} `{!AddressCodec}.
Variable k : Keeper.
Implicit Types (ctx : Context Bank) (sender : AccAddress).

(** A successful submit on a well-formed pool stores its record under a
    key that was free. *)
Lemma AddToOutgoingPool_pool_wf ctx sender ethReceiver amount fee id ctx'
    (v : Z) :
  pool_wf (kvstore ctx) v -> v + 1 < 2 ^ 64 ->
  AddToOutgoingPool k ctx sender ethReceiver amount fee
    = Done ((id, None), ctx') ->
  id = v /\
  pool_wf (kvstore ctx') (v + 1) /\
  exists contract,
    let record := outgoing_tx v sender ethReceiver amount fee contract in
    let key := GetOutgoingTxPoolKey (Erc20Fee record) v in
    pool (kvstore ctx) !! key = None /\
    pool (kvstore ctx') = <[key := record]> (pool (kvstore ctx)).
Proof.
  intros Hwf Hv Hrun.
  pose proof Hwf as (Hnext & Hv1 & Hidx & Hids & Huniq).
  destruct (AddToOutgoingPool_next_id k _ _ _ _ _ _ _ _ Hnext Hrun)
    as [-> Hnext'].
  rewrite wrap_uint64_small in Hnext' by lia.
  apply AddToOutgoingPool_success_inv in Hrun
    as (total & isCosmos & tc & contract & b & store1 & _ & _ & _ & _ & _ & _
        & Hid & Hstore & _).
  pose proof (autoIncrementID_pool _ _ _ _ Hid) as Hpool1.
  set (record := outgoing_tx v sender ethReceiver amount fee contract) in *.
  set (key := GetOutgoingTxPoolKey (Erc20Fee record) v).
  assert (pool (kvstore ctx) !! key = None) as Hfree
    by by apply (pool_wf_fresh_key _ v).
  assert (pool (kvstore ctx') = <[key := record]> (pool (kvstore ctx)))
    as Hpool'.
  { rewrite Hstore. unfold addUnbatchedTX.
    change (GetOutgoingTxPoolKey (Erc20Fee record) (Id record)) with key.
    assert (store_Has store1 key = false) as ->
      by (apply store_Has_false; by rewrite Hpool1).
    simpl. by rewrite Hpool1. }
  split; [done|]. split; [|by exists contract].
  unfold pool_wf. rewrite Hpool'. split_and!; [done|lia|..].
  - intros key' tx'. rewrite Hpool', lookup_insert.
    case_decide; [|apply Hidx]. by intros [= <-].
  - intros key' tx'. rewrite lookup_insert.
    case_decide.
    + intros [= <-]. simpl. split; [lia|done].
    + intros Hlook. destruct (Hids _ _ Hlook). split; [lia|done].
  - intros key1 tx1 key2 tx2. rewrite !lookup_insert.
    repeat case_decide; subst.
    + done.
    + intros [= <-] Hlook2 Heq. simpl in Heq.
      destruct (Hids _ _ Hlook2). lia.
    + intros Hlook1 [= <-] Heq. simpl in Heq.
      destruct (Hids _ _ Hlook1). lia.
    + apply Huniq.
Qed.

End submit_wf.

(** ** The outcomes of a cancel *)

Section cancel_outcomes.
Context {Bank : Type} `{!BankKeeper Bank} `{!AddressCodec}.
Variable k : Keeper.
Implicit Types (ctx : Context Bank) (sender : AccAddress).

Lemma with_store_same ctx : with_store ctx (kvstore ctx) = ctx.
Proof. by destruct ctx. Qed.

(** The refund stage: it computes the coins, asks the bank, and on success
    appends one event; it does not touch the store. *)
Lemma RemoveFromOutgoingPool_refund_inv ctx tx sender e ctx' :
  RemoveFromOutgoingPool_refund k ctx tx sender = Done (e, ctx') ->
  exists coins,
    refund_coins tx = Done coins /\
    kvstore ctx' = kvstore ctx /\
    match e with
    | None =>
        (exists ev,
           events ctx' = (events ctx ++ [ev])%list /\
           event_type ev = EventTypeBridgeWithdrawCanceled) /\
        if (ERC20ToDenomLookup k (Contract (Erc20Token tx))).1
        then SendCoinsFromModuleToAccount (bank ctx) ModuleName sender coins
             = BankOk (bank ctx')
        else exists b,
               MintCoins (bank ctx) ModuleName coins = BankOk b /\
               SendCoinsFromModuleToAccount b ModuleName sender coins
               = BankOk (bank ctx')
    | Some err =>
        events ctx' = events ctx /\
        if (ERC20ToDenomLookup k (Contract (Erc20Token tx))).1
        then SendCoinsFromModuleToAccount (bank ctx) ModuleName sender coins
             = BankError err /\ bank ctx' = bank ctx
        else (exists err0,
                MintCoins (bank ctx) ModuleName coins = BankError err0 /\
                err = Wrapf err0 "mint vouchers coins: %s" [fmt_coins coins] /\
                bank ctx' = bank ctx) \/
             (exists err0,
                MintCoins (bank ctx) ModuleName coins = BankOk (bank ctx') /\
                SendCoinsFromModuleToAccount (bank ctx') ModuleName sender
                  coins = BankError err0 /\
                err = Wrap err0 "transfer vouchers")
    end.
Proof.
  unfold RemoveFromOutgoingPool_refund.
  destruct (refund_coins tx) as [coins|]; simpl; [|done].
  destruct (ERC20ToDenomLookup k (Contract (Erc20Token tx)))
    as [isCosmos denom]. simpl.
  destruct isCosmos.
  - destruct (SendCoinsFromModuleToAccount _ _ _ _) as [b|err] eqn:Hsend;
      intros [= <- <-]; exists coins; simpl; split_and!; eauto.
  - destruct (MintCoins _ _ _) as [b|err] eqn:Hmint.
    + simpl.
      destruct (SendCoinsFromModuleToAccount _ _ _ _) as [b'|err] eqn:Hsend;
        intros [= <- <-]; exists coins; simpl; split_and!; eauto.
    + intros [= <- <-]. exists coins. simpl. split_and!; eauto.
Qed.

(** Every way [RemoveFromOutgoingPoolAndRefund] returns: it has changed
    nothing and reports [ErrInvalid] or [ErrUnknown], or it has found the
    transfer, belonging to the requester and naming one contract, has
    deleted its entry and has gone on to the refund. *)
Lemma RemoveFromOutgoingPoolAndRefund_inv ctx txId sender e ctx' :
  RemoveFromOutgoingPoolAndRefund k ctx txId sender = Done (e, ctx') ->
  (ctx' = ctx /\
   exists err, e = Some err /\
               (error_root err = ErrInvalid \/ error_root err = ErrUnknown)) \/
  (exists tx,
     ctx_is_zero ctx = false /\ 1 <= txId /\ sender <> [] /\
     GetUnbatchedTxById (kvstore ctx) txId = Done (Some tx, None) /\
     (AccAddressFromBech32 (Sender tx)).1 = sender /\
     Contract (Erc20Fee tx) = Contract (Erc20Token tx) /\
     is_Some (pool (kvstore ctx) !! GetOutgoingTxPoolKey (Erc20Fee tx) txId) /\
     RemoveFromOutgoingPool_refund k
       (with_store ctx
          (store_Delete (kvstore ctx)
             (GetOutgoingTxPoolKey (Erc20Fee tx) txId))) tx sender
     = Done (e, ctx')).
Proof.
  unfold RemoveFromOutgoingPoolAndRefund, IsZero.
  destruct (ctx_is_zero ctx) eqn:Hz; simpl;
    [intros [= <- <-]; left; eauto|].
  destruct (Z.ltb_spec txId 1) as [|Hid]; simpl;
    [intros [= <- <-]; left; eauto|].
  destruct sender as [|byte0 sender]; simpl;
    [intros [= <- <-]; left; eauto|].
  destruct (GetUnbatchedTxById_spec (kvstore ctx) txId)
    as [(tx & key & Hget & Hidtx & Hlook)|[Hget _]]; rewrite Hget; simpl;
    [|intros [= <- <-]; left; eauto].
  destruct (AccAddressFromBech32 (Sender tx)) as [txSender [err|]] eqn:Hdec;
    [done|].
  destruct (Equals txSender (byte0 :: sender)) eqn:Heq; simpl;
    [|intros [= <- <-]; left; eauto].
  apply Equals_eq in Heq.
  destruct (String.eqb_spec (Contract (Erc20Fee tx))
              (Contract (Erc20Token tx))) as [Hc|]; simpl;
    [|intros [= <- <-]; left; eauto].
  unfold removeUnbatchedTX.
  destruct (store_Has (kvstore ctx)
              (GetOutgoingTxPoolKey (Erc20Fee tx) txId)) eqn:Hhas; simpl.
  - unfold GetUnbatchedTxByFeeAndId, store_Get, with_store. simpl.
    rewrite Hidtx, lookup_delete_eq. simpl.
    intros Hrefund. right. exists tx.
    apply store_Has_true in Hhas. split_and!; try done. by rewrite Hdec.
  - rewrite with_store_same. intros [= <- <-]. left. eauto.
Qed.

End cancel_outcomes.

Section cancel_steps.
Context {Bank : Type} `{!BankKeeper Bank} `{!AddressCodec}.
Variable k : Keeper.
Implicit Types (ctx : Context Bank) (sender : AccAddress).

(** With valid arguments, a transfer found under the id, stored with the
    requester as its sender and naming one contract, and its entry in the
    pool, the cancel deletes the entry and goes on to the refund. *)
Lemma RemoveFromOutgoingPoolAndRefund_reaches_refund ctx txId sender tx :
  ctx_is_zero ctx = false -> 1 <= txId -> sender <> [] ->
  GetUnbatchedTxById (kvstore ctx) txId = Done (Some tx, None) ->
  AccAddressFromBech32 (Sender tx) = (sender, None) ->
  Contract (Erc20Fee tx) = Contract (Erc20Token tx) ->
  is_Some (pool (kvstore ctx) !! GetOutgoingTxPoolKey (Erc20Fee tx) txId) ->
  RemoveFromOutgoingPoolAndRefund k ctx txId sender
  = RemoveFromOutgoingPool_refund k
      (with_store ctx
         (store_Delete (kvstore ctx)
            (GetOutgoingTxPoolKey (Erc20Fee tx) txId))) tx sender.
Proof.
  intros Hz Hid Hs Hget Hdecode Hcontract Hlook.
  destruct (GetUnbatchedTxById_found _ _ _ _ Hget) as (_ & Hidtx & _).
  unfold RemoveFromOutgoingPoolAndRefund, IsZero.
  rewrite Hz. destruct (Z.ltb_spec txId 1) as [|_]; [lia|].
  destruct sender as [|byte0 sender]; [done|]. simpl.
  rewrite Hget. simpl. rewrite Hdecode.
  assert (Equals (byte0 :: sender) (byte0 :: sender) = true) as ->
    by by apply Equals_eq.
  simpl. rewrite Hcontract, String.eqb_refl. simpl.
  unfold removeUnbatchedTX.
  apply store_Has_true in Hlook. rewrite Hlook. simpl.
  unfold GetUnbatchedTxByFeeAndId, store_Get, with_store. simpl.
  by rewrite Hidtx, lookup_delete_eq.
Qed.

Lemma removeUnbatchedTX_pool_wf (store : KVStore) (fee : ERC20Token)
    (txID v : Z) :
  pool_wf store v -> pool_wf (removeUnbatchedTX store fee txID).1 v.
Proof.
  intros (Hnext & Hv & Hidx & Hids & Huniq). unfold removeUnbatchedTX.
  destruct (store_Has store _); simpl; [|done].
  unfold pool_wf, store_Delete, next_id. simpl.
  split_and!; [done|done|..].
  - intros key tx. simpl. rewrite lookup_delete.
    case_decide; [done|apply Hidx].
  - intros key tx. rewrite lookup_delete. case_decide; [done|apply Hids].
  - intros key1 tx1 key2 tx2. rewrite !lookup_delete.
    repeat case_decide; try done. apply Huniq.
Qed.

End cancel_steps.

(** With an invalid context, an id below 1 or an empty requester the cancel
    returns [ErrInvalid] wrapped as "arguments"; with valid arguments and
    an id that no entry of the pool has it returns [ErrUnknown] wrapped as
    "pool transaction". Either way it returns the context it was given. *)
Theorem cancel_rejects_bad_arguments_and_unknown_ids :
  forall (Bank : Type) (B : BankKeeper Bank) (C : AddressCodec) (k : Keeper)
         (ctx : Context Bank) (txId : Z) (sender : AccAddress),
    (ctx_is_zero ctx = true \/ txId < 1 \/ sender = [] ->
     RemoveFromOutgoingPoolAndRefund k ctx txId sender
     = Done (Some (Wrap ErrInvalid "arguments"), ctx)) /\
    (ctx_is_zero ctx = false -> 1 <= txId -> sender <> [] ->
     (forall key tx, pool (kvstore ctx) !! key = Some tx -> Id tx <> txId) ->
     RemoveFromOutgoingPoolAndRefund k ctx txId sender
     = Done (Some (Wrap ErrUnknown "pool transaction"), ctx)).
Proof.
  intros Bank B C k ctx txId sender. split.
  - intros Hbad. unfold RemoveFromOutgoingPoolAndRefund, IsZero.
    assert (ctx_is_zero ctx || (txId <? 1)%Z || Empty sender = true) as ->;
      [|done].
    rewrite !orb_true_iff, Z.ltb_lt.
    destruct Hbad as [?|[?| ->]]; auto.
  - intros Hz Hid Hs Hnone.
    unfold RemoveFromOutgoingPoolAndRefund, IsZero. rewrite Hz.
    destruct (Z.ltb_spec txId 1) as [|_]; [lia|].
    destruct sender as [|byte0 sender]; [done|]. simpl.
    destruct (GetUnbatchedTxById_spec (kvstore ctx) txId)
      as [(tx & key & _ & Hidtx & Hlook)|[-> _]];
      [by destruct (Hnone _ _ Hlook)|done].
Qed.

Lemma cancel_rejects_bad_arguments_and_unknown_ids_witness :
  RemoveFromOutgoingPoolAndRefund Example.keeper Example.genesis 0
    Example.alice
  = Done (Some (Wrap ErrInvalid "arguments"), Example.genesis) /\
  RemoveFromOutgoingPoolAndRefund Example.keeper Example.genesis 7
    Example.alice
  = Done (Some (Wrap ErrUnknown "pool transaction"), Example.genesis).
Proof.
  destruct (cancel_rejects_bad_arguments_and_unknown_ids _ _ _ Example.keeper
              Example.genesis 0 Example.alice) as [Hbad _].
  destruct (cancel_rejects_bad_arguments_and_unknown_ids _ _ _ Example.keeper
              Example.genesis 7 Example.alice) as [_ Hunknown].
  split.
  - apply Hbad. right. left. lia.
  - apply Hunknown; [reflexivity|lia|discriminate|].
    intros key tx. simpl. by rewrite lookup_empty.
Defined.

(** When a cancel returns no error it has found a transfer with the id whose
    stored sender decodes to the requester, has deleted the entry of that
    transfer and nothing else from the store, has had the bank send the
    refund coins of the transfer from the module account to the requester,
    after minting them first if and only if the registry does not report
    the token's contract as cosmos-originated, and has appended one
    [withdraw_canceled] event. *)
Theorem cancel_success_effects :
  forall (Bank : Type) (B : BankKeeper Bank) (C : AddressCodec) (k : Keeper)
         (ctx ctx' : Context Bank) (txId : Z) (sender : AccAddress),
    RemoveFromOutgoingPoolAndRefund k ctx txId sender = Done (None, ctx') ->
    exists tx coins,
      GetUnbatchedTxById (kvstore ctx) txId = Done (Some tx, None) /\
      (AccAddressFromBech32 (Sender tx)).1 = sender /\
      refund_coins tx = Done coins /\
      kvstore ctx'
      = store_Delete (kvstore ctx) (GetOutgoingTxPoolKey (Erc20Fee tx) txId) /\
      (if (ERC20ToDenomLookup k (Contract (Erc20Token tx))).1
       then SendCoinsFromModuleToAccount (bank ctx) ModuleName sender coins
            = BankOk (bank ctx')
       else exists b,
              MintCoins (bank ctx) ModuleName coins = BankOk b /\
              SendCoinsFromModuleToAccount b ModuleName sender coins
              = BankOk (bank ctx')) /\
      exists ev,
        events ctx' = (events ctx ++ [ev])%list /\
        event_type ev = EventTypeBridgeWithdrawCanceled.
Proof.
  intros Bank B C k ctx ctx' txId sender Hrun.
  apply RemoveFromOutgoingPoolAndRefund_inv in Hrun
    as [[_ (err & ? & _)]|(tx & _ & _ & _ & Hget & Hdec & _ & _ & Hrefund)];
    [done|].
  apply RemoveFromOutgoingPool_refund_inv in Hrefund
    as (coins & Hcoins & Hstore & Hev & Hbank).
  exists tx, coins. split_and!; done.
Qed.

(** When a cancel returns an error, either it has changed nothing and the
    error is rooted in [ErrInvalid] or [ErrUnknown], or the entry of the
    transfer is deleted in the context it returns and the error is the
    bank's: the failed send for a cosmos-originated token, else the failed
    mint (balances as before) or the failed send after a successful mint
    (the minted coins stay in the module account). No event is emitted. *)
Theorem cancel_error_cases :
  forall (Bank : Type) (B : BankKeeper Bank) (C : AddressCodec) (k : Keeper)
         (ctx ctx' : Context Bank) (txId : Z) (sender : AccAddress)
         (err : Error),
    RemoveFromOutgoingPoolAndRefund k ctx txId sender
      = Done (Some err, ctx') ->
    (ctx' = ctx /\
     (error_root err = ErrInvalid \/ error_root err = ErrUnknown)) \/
    (exists tx coins,
       GetUnbatchedTxById (kvstore ctx) txId = Done (Some tx, None) /\
       refund_coins tx = Done coins /\
       kvstore ctx'
       = store_Delete (kvstore ctx)
           (GetOutgoingTxPoolKey (Erc20Fee tx) txId) /\
       events ctx' = events ctx /\
       if (ERC20ToDenomLookup k (Contract (Erc20Token tx))).1
       then SendCoinsFromModuleToAccount (bank ctx) ModuleName sender coins
            = BankError err /\ bank ctx' = bank ctx
       else (exists err0,
               MintCoins (bank ctx) ModuleName coins = BankError err0 /\
               err = Wrapf err0 "mint vouchers coins: %s" [fmt_coins coins] /\
               bank ctx' = bank ctx) \/
            (exists err0,
               MintCoins (bank ctx) ModuleName coins = BankOk (bank ctx') /\
               SendCoinsFromModuleToAccount (bank ctx') ModuleName sender
                 coins = BankError err0 /\
               err = Wrap err0 "transfer vouchers")).
Proof.
  intros Bank B C k ctx ctx' txId sender err Hrun.
  apply RemoveFromOutgoingPoolAndRefund_inv in Hrun
    as [[-> (err' & [= <-] & Hroot)]
       |(tx & _ & _ & _ & Hget & _ & _ & _ & Hrefund)];
    [by left|].
  apply RemoveFromOutgoingPool_refund_inv in Hrefund
    as (coins & Hcoins & Hstore & Hev & Hbank).
  right. exists tx, coins. split_and!; done.
Qed.


Lemma example_cancel_succeeds :
  exists ctx',
    RemoveFromOutgoingPoolAndRefund Example.keeper Example.after_three.2 2
      Example.alice = Done (None, ctx').
Proof.
  assert (Example.cancel_returns Example.after_three.2 2 Example.alice
          = Done None) as Hret by (vm_compute; reflexivity).
  unfold Example.cancel_returns in Hret.
  destruct (RemoveFromOutgoingPoolAndRefund _ _ _ _) as [[e ctx']|];
    simpl in Hret; [|discriminate].
  injection Hret as ->. by exists ctx'.
Qed.

Lemma example_cancel_mint_fails :
  exists err ctx',
    RemoveFromOutgoingPoolAndRefund Example.keeper
      Example.after_three_no_mint 2 Example.alice = Done (Some err, ctx').
Proof.
  assert (Example.cancel_returns Example.after_three_no_mint 2 Example.alice
          = Done (Some (Wrapf Example.unauthorized "mint vouchers coins: %s"
                          [fmt_coins [mkCoin Example.voucherA 105]])))
    as Hret by (vm_compute; reflexivity).
  unfold Example.cancel_returns in Hret.
  destruct (RemoveFromOutgoingPoolAndRefund _ _ _ _) as [[e ctx']|];
    simpl in Hret; [|discriminate].
  injection Hret as ->. eauto.
Qed.

Lemma cancel_success_effects_witness :
  exists ctx' tx coins,
    RemoveFromOutgoingPoolAndRefund Example.keeper Example.after_three.2 2
      Example.alice = Done (None, ctx') /\
    GetUnbatchedTxById (kvstore Example.after_three.2) 2
    = Done (Some tx, None) /\
    refund_coins tx = Done coins.
Proof.
  destruct example_cancel_succeeds as [ctx' Hrun].
  destruct (cancel_success_effects _ _ _ _ _ _ _ _ Hrun)
    as (tx & coins & Hget & _ & Hcoins & _).
  exists ctx', tx, coins. split_and!; assumption.
Defined.

Lemma cancel_error_cases_witness :
  exists err ctx',
    RemoveFromOutgoingPoolAndRefund Example.keeper
      Example.after_three_no_mint 2 Example.alice = Done (Some err, ctx') /\
    (ctx' = Example.after_three_no_mint \/
     exists tx,
       kvstore ctx'
       = store_Delete (kvstore Example.after_three_no_mint)
           (GetOutgoingTxPoolKey (Erc20Fee tx) 2)).
Proof.
  destruct example_cancel_mint_fails as (err & ctx' & Hrun).
  exists err, ctx'. split; [exact Hrun|].
  destruct (cancel_error_cases _ _ _ _ _ _ _ _ _ Hrun)
    as [[-> _]|(tx & coins & _ & _ & Hstore & _)].
  - by left.
  - right. by exists tx.
Defined.

(** ** The well-formed pool is kept *)

Section pool_wf_kept.
Context {Bank : Type} `{!BankKeeper Bank} `{!AddressCodec}.
Variable k : Keeper.
Implicit Types (ctx : Context Bank) (sender : AccAddress).

Lemma RemoveFromOutgoingPoolAndRefund_pool_wf ctx txId sender e ctx' (v : Z) :
  pool_wf (kvstore ctx) v ->
  RemoveFromOutgoingPoolAndRefund k ctx txId sender = Done (e, ctx') ->
  pool_wf (kvstore ctx') v.
Proof.
  intros Hwf Hrun.
  apply RemoveFromOutgoingPoolAndRefund_store in Hrun as [->|[fee ->]];
    [done|]. by apply removeUnbatchedTX_pool_wf.
Qed.

Lemma run_calls_pool_wf (rollback : bool) ctx (calls : list PoolCall)
    (v : Z) :
  pool_wf (kvstore ctx) v ->
  v + Z.of_nat (length calls) < 2 ^ 64 ->
  exists v',
    v <= v' <= v + Z.of_nat (length calls) /\
    pool_wf (kvstore (run_calls k rollback ctx calls)) v'.
Proof.
  revert ctx v. induction calls as [|call calls IH]; intros ctx v Hwf Hlen.
  - exists v. simpl. split; [lia|done].
  - simpl length in Hlen.
    assert (forall ctx0, pool_wf (kvstore ctx0) v ->
              exists v',
                v <= v' <= v + Z.of_nat (S (length calls)) /\
                pool_wf (kvstore (run_calls k rollback ctx0 calls)) v')
      as Hsame.
    { intros ctx0 Hwf0. destruct (IH ctx0 v Hwf0) as (v' & ? & ?); [lia|].
      exists v'. split; [lia|done]. }
    destruct call as [sender dest amount fee|txId sender]; simpl.
    + destruct (AddToOutgoingPool k ctx sender dest amount fee)
        as [[[id [e|]] ctx']|] eqn:Hrun; [| |by apply Hsame].
      * apply AddToOutgoingPool_error_unchanged in Hrun as [-> _].
        apply Hsame. by destruct rollback.
      * destruct (AddToOutgoingPool_pool_wf k _ _ _ _ _ _ _ v Hwf
                    ltac:(lia) Hrun) as (_ & Hwf' & _).
        destruct (IH ctx' (v + 1) Hwf') as (v' & ? & ?); [lia|].
        exists v'. split; [lia|done].
    + destruct (RemoveFromOutgoingPoolAndRefund k ctx txId sender)
        as [[[e|] ctx']|] eqn:Hrun; [| |by apply Hsame].
      * apply Hsame. destruct rollback; [done|].
        by eapply RemoveFromOutgoingPoolAndRefund_pool_wf.
      * apply Hsame. by eapply RemoveFromOutgoingPoolAndRefund_pool_wf.
Qed.

End pool_wf_kept.

(** A successful submit on a well-formed pool whose counter is below the
    last 64-bit value returns the id the counter held, stores its record
    under a key that was free, keeps all other entries, and leaves the pool
    well-formed with the counter one up. *)
Theorem submit_keeps_pool_wf :
  forall (Bank : Type) (B : BankKeeper Bank) (C : AddressCodec) (k : Keeper)
         (ctx ctx' : Context Bank) (sender : AccAddress)
         (ethReceiver : EthAddress) (amount fee : Coin) (id v : Z),
    pool_wf (kvstore ctx) v -> v + 1 < 2 ^ 64 ->
    AddToOutgoingPool k ctx sender ethReceiver amount fee
      = Done ((id, None), ctx') ->
    id = v /\
    pool_wf (kvstore ctx') (v + 1) /\
    exists contract,
      let record := outgoing_tx v sender ethReceiver amount fee contract in
      let key := GetOutgoingTxPoolKey (Erc20Fee record) v in
      pool (kvstore ctx) !! key = None /\
      pool (kvstore ctx') = <[key := record]> (pool (kvstore ctx)).
Proof. intros Bank B C k *. apply AddToOutgoingPool_pool_wf. Qed.

Lemma submit_keeps_pool_wf_witness :
  pool_wf (kvstore Example.genesis) 1 /\
  exists ctx',
    AddToOutgoingPool Example.keeper Example.genesis Example.alice
      Example.receiver (mkCoin Example.voucherA 100)
      (mkCoin Example.voucherA 10)
    = Done ((1, None), ctx') /\
    pool_wf (kvstore ctx') 2.
Proof.
  assert (pool_wf (kvstore Example.genesis) 1) as Hwf
    by (apply pool_wf_empty; reflexivity).
  split; [exact Hwf|].
  destruct example_first_submit as [ctx' Hrun].
  exists ctx'. split; [exact Hrun|].
  destruct (submit_keeps_pool_wf _ _ _ _ _ _ _ _ _ _ _ 1 Hwf ltac:(lia) Hrun)
    as (_ & Hwf' & _).
  exact Hwf'.
Defined.

(** Whatever a cancel returns, a well-formed pool stays well-formed under
    the same counter: the cancel writes no counter and adds no entry. *)
Theorem cancel_keeps_pool_wf :
  forall (Bank : Type) (B : BankKeeper Bank) (C : AddressCodec) (k : Keeper)
         (ctx ctx' : Context Bank) (txId : Z) (sender : AccAddress)
         (e : option Error) (v : Z),
    pool_wf (kvstore ctx) v ->
    RemoveFromOutgoingPoolAndRefund k ctx txId sender = Done (e, ctx') ->
    pool_wf (kvstore ctx') v /\
    sequences (kvstore ctx') = sequences (kvstore ctx) /\
    pool (kvstore ctx') ⊆ pool (kvstore ctx).
Proof.
  intros Bank B C k ctx ctx' txId sender e v Hwf Hrun.
  split; [by eapply RemoveFromOutgoingPoolAndRefund_pool_wf|].
  apply RemoveFromOutgoingPoolAndRefund_store in Hrun as [->|[fee ->]];
    [done|].
  unfold removeUnbatchedTX. destruct (store_Has _ _); simpl; [|done].
  split; [done|]. apply delete_subseteq.
Qed.

(** Starting from an empty pool without a counter, after any sequence of
    submits and cancels shorter than the 64-bit range the pool is
    well-formed: every entry sits under the key of its own fee and id, its
    token and its fee name one contract, and no two entries share an id.
    This holds whether or not the caller discards the writes of calls that
    return an error. *)
Theorem reachable_pools_are_well_formed :
  forall (Bank : Type) (B : BankKeeper Bank) (C : AddressCodec) (k : Keeper)
         (rollback : bool) (ctx : Context Bank) (calls : list PoolCall),
    pool (kvstore ctx) = ∅ ->
    sequences (kvstore ctx) !! KeyLastTXPoolID = None ->
    Z.of_nat (length calls) < 2 ^ 64 - 1 ->
    exists v,
      1 <= v <= 1 + Z.of_nat (length calls) /\
      pool_wf (kvstore (run_calls k rollback ctx calls)) v.
Proof.
  intros Bank B C k rollback ctx calls Hempty Hnone Hlen.
  apply run_calls_pool_wf; [|lia].
  destruct ctx as [z [p seqs] b ev]. simpl in *. subst p.
  by apply pool_wf_empty.
Qed.

Lemma submit_all_run_calls {Bank : Type} `{!BankKeeper Bank}
    `{!AddressCodec} (k : Keeper) (ctx : Context Bank)
    (calls : list (AccAddress * EthAddress * Coin * Coin)) :
  (submit_all k ctx calls).2
  = run_calls k true ctx
      (map (fun c => CallSubmit c.1.1.1 c.1.1.2 c.1.2 c.2) calls).
Proof.
  revert ctx. induction calls as [|[[[sender dest] amount] fee] calls IH];
    intros ctx; simpl; [done|].
  destruct (AddToOutgoingPool k ctx sender dest amount fee)
    as [[[id [e|]] ctx']|]; try apply IH.
  specialize (IH ctx'). by destruct (submit_all k ctx' calls).
Qed.

Lemma example_after_three_wf :
  exists v, pool_wf (kvstore Example.after_three.2) v.
Proof.
  unfold Example.after_three. rewrite submit_all_run_calls.
  destruct (run_calls_pool_wf Example.keeper true Example.genesis
              (map (fun c => CallSubmit c.1.1.1 c.1.1.2 c.1.2 c.2)
                 [Example.send_A 10; Example.send_A 5; Example.send_A 20]) 1)
    as (v & _ & Hwf).
  - apply pool_wf_empty. reflexivity.
  - vm_compute. reflexivity.
  - by exists v.
Qed.

Lemma wf_lookups_agree_witness :
  exists v,
    pool_wf (kvstore Example.after_three.2) v /\
    GetUnbatchedTxById (kvstore Example.after_three.2) 2
    = Done (Some (outgoing_tx 2 Example.alice Example.receiver
                    (mkCoin Example.voucherA 100) (mkCoin Example.voucherA 5)
                    (mkEthAddress Example.tokenA)), None).
Proof.
  destruct example_after_three_wf as [v Hwf].
  exists v. split; [exact Hwf|].
  apply (wf_lookups_agree _ v
           (GetOutgoingTxPoolKey (mkERC20Token 5 Example.tokenA) 2)
           (outgoing_tx 2 Example.alice Example.receiver
              (mkCoin Example.voucherA 100) (mkCoin Example.voucherA 5)
              (mkEthAddress Example.tokenA)) Hwf).
  vm_compute. reflexivity.
Defined.

Lemma cancel_keeps_pool_wf_witness :
  exists v ctx',
    pool_wf (kvstore Example.after_three.2) v /\
    RemoveFromOutgoingPoolAndRefund Example.keeper Example.after_three.2 2
      Example.alice = Done (None, ctx') /\
    pool_wf (kvstore ctx') v.
Proof.
  destruct example_after_three_wf as [v Hwf].
  destruct example_cancel_succeeds as [ctx' Hrun].
  exists v, ctx'. split; [exact Hwf|]. split; [exact Hrun|].
  apply (cancel_keeps_pool_wf _ _ _ _ _ _ _ _ _ _ Hwf Hrun).
Defined.

Lemma reachable_pools_are_well_formed_witness :
  pool (kvstore Example.genesis) = ∅ /\
  sequences (kvstore Example.genesis) !! KeyLastTXPoolID = None /\
  exists v,
    pool_wf
      (kvstore
         (run_calls Example.keeper false Example.genesis
            [CallSubmit Example.alice Example.receiver
               (mkCoin Example.voucherA 100) (mkCoin Example.voucherA 10);
             CallCancel 1 Example.bob;
             CallCancel 1 Example.alice])) v.
Proof.
  split; [reflexivity|]. split; [reflexivity|].
  destruct (reachable_pools_are_well_formed _ _ _ Example.keeper false
              Example.genesis
              [CallSubmit Example.alice Example.receiver
                 (mkCoin Example.voucherA 100) (mkCoin Example.voucherA 10);
               CallCancel 1 Example.bob;
               CallCancel 1 Example.alice])
    as (v & _ & Hwf).
  - reflexivity.
  - reflexivity.
  - vm_compute. reflexivity.
  - by exists v.
Defined.

(** ** Submit, then look up or cancel *)

Section submit_then.
Context {Bank : Type} `{!BankKeeper Bank} `{!AddressCodec}.
Variable k : Keeper.
Implicit Types (ctx : Context Bank) (sender : AccAddress).

Lemma AddToOutgoingPool_ctx_is_zero ctx sender ethReceiver amount fee r
    ctx' :
  AddToOutgoingPool k ctx sender ethReceiver amount fee = Done (r, ctx') ->
  ctx_is_zero ctx' = ctx_is_zero ctx.
Proof.
  intros Hrun.
  apply AddToOutgoingPool_inv in Hrun as [(e' & _ & ->)|Hrec]; [done|].
  destruct Hrec as (b & contractAddr & Hrec).
  by apply AddToOutgoingPool_record_inv in Hrec
    as (? & ? & ? & _ & _ & _ & _ & _ & ->).
Qed.

Lemma submit_then_lookup_aux ctx ctx' sender ethReceiver amount fee id
    (v : Z) :
  pool_wf (kvstore ctx) v -> v + 1 < 2 ^ 64 ->
  AddToOutgoingPool k ctx sender ethReceiver amount fee
    = Done ((id, None), ctx') ->
  exists record,
    GetUnbatchedTxById (kvstore ctx') id = Done (Some record, None) /\
    GetUnbatchedTxByFeeAndId (kvstore ctx') (Erc20Fee record) id
    = (Some record, None) /\
    Id record = id /\
    Sender record = AccAddress_String sender /\
    DestAddress record = ethReceiver /\
    Amount (Erc20Token record) = CoinAmount amount /\
    Amount (Erc20Fee record) = CoinAmount fee /\
    Contract (Erc20Token record) = Contract (Erc20Fee record) /\
    pool (kvstore ctx) !! GetOutgoingTxPoolKey (Erc20Fee record) id = None /\
    pool (kvstore ctx')
    = <[GetOutgoingTxPoolKey (Erc20Fee record) id := record]>
        (pool (kvstore ctx)).
Proof.
  intros Hwf Hv Hrun.
  destruct (AddToOutgoingPool_pool_wf k _ _ _ _ _ _ _ v Hwf Hv Hrun)
    as (-> & Hwf' & contract & Hfree & Hpool).
  set (record := outgoing_tx v sender ethReceiver amount fee contract) in *.
  exists record.
  assert (pool (kvstore ctx') !! GetOutgoingTxPoolKey (Erc20Fee record) v
          = Some record) as Hlook
    by (rewrite Hpool; apply lookup_insert_eq).
  destruct (pool_wf_lookups _ _ _ _ Hwf' Hlook) as [Hbyid Hbyfee].
  split_and!; done.
Qed.

End submit_then.

(** Round trip of a submit. After a successful submit on a well-formed pool
    the lookup by the returned id and the lookup by fee and id both return
    one record: it carries the returned id, the sender rendered as a string,
    the destination, and the amounts of the amount and of the fee under one
    contract. *)
Theorem submit_then_lookup :
  forall (Bank : Type) (B : BankKeeper Bank) (C : AddressCodec) (k : Keeper)
         (ctx ctx' : Context Bank) (sender : AccAddress)
         (ethReceiver : EthAddress) (amount fee : Coin) (id v : Z),
    pool_wf (kvstore ctx) v -> v + 1 < 2 ^ 64 ->
    AddToOutgoingPool k ctx sender ethReceiver amount fee
      = Done ((id, None), ctx') ->
    exists record,
      GetUnbatchedTxById (kvstore ctx') id = Done (Some record, None) /\
      GetUnbatchedTxByFeeAndId (kvstore ctx') (Erc20Fee record) id
      = (Some record, None) /\
      Id record = id /\
      Sender record = AccAddress_String sender /\
      DestAddress record = ethReceiver /\
      Amount (Erc20Token record) = CoinAmount amount /\
      Amount (Erc20Fee record) = CoinAmount fee /\
      Contract (Erc20Token record) = Contract (Erc20Fee record).
Proof.
  intros Bank B C k ctx ctx' sender ethReceiver amount fee id v Hwf Hv Hrun.
  destruct (submit_then_lookup_aux k _ _ _ _ _ _ _ v Hwf Hv Hrun)
    as (record & ? & ? & ? & ? & ? & ? & ? & ? & _).
  exists record. split_and!; done.
Qed.

Lemma submit_then_lookup_witness :
  exists ctx' record,
    pool_wf (kvstore Example.genesis) 1 /\
    AddToOutgoingPool Example.keeper Example.genesis Example.alice
      Example.receiver (mkCoin Example.voucherA 100)
      (mkCoin Example.voucherA 10)
    = Done ((1, None), ctx') /\
    GetUnbatchedTxById (kvstore ctx') 1 = Done (Some record, None) /\
    Amount (Erc20Fee record) = 10.
Proof.
  assert (pool_wf (kvstore Example.genesis) 1) as Hwf
    by (apply pool_wf_empty; reflexivity).
  destruct example_first_submit as [ctx' Hrun].
  destruct (submit_then_lookup _ _ _ _ _ _ _ _ _ _ _ 1 Hwf ltac:(lia) Hrun)
    as (record & Hget & _ & _ & _ & _ & _ & Hfee & _).
  exists ctx', record. split_and!; assumption.
Defined.

(** Submit, then cancel. After a successful submit on a well-formed pool, a
    cancel of the returned id by the same sender (whose string form decodes
    back to the sender) never answers "not found" or "not yours": whatever
    it returns, the pool is again the pool from before the submit and the
    lookup of the id answers [ErrUnknown]; the id counter keeps the value
    the submit left, so the id is not given out again. *)
Theorem submit_then_cancel_restores_pool :
  forall (Bank : Type) (B : BankKeeper Bank) (C : AddressCodec) (k : Keeper)
         (ctx ctx1 ctx2 : Context Bank) (sender : AccAddress)
         (ethReceiver : EthAddress) (amount fee : Coin) (id v : Z)
         (e : option Error),
    pool_wf (kvstore ctx) v -> v + 1 < 2 ^ 64 ->
    AccAddressFromBech32 (AccAddress_String sender) = (sender, None) ->
    AddToOutgoingPool k ctx sender ethReceiver amount fee
      = Done ((id, None), ctx1) ->
    RemoveFromOutgoingPoolAndRefund k ctx1 id sender = Done (e, ctx2) ->
    pool (kvstore ctx2) = pool (kvstore ctx) /\
    sequences (kvstore ctx2) = sequences (kvstore ctx1) /\
    next_id (kvstore ctx2) KeyLastTXPoolID (v + 1) /\
    GetUnbatchedTxById (kvstore ctx2) id
    = Done (None, Some (Wrap ErrUnknown "pool transaction")).
Proof.
  intros Bank B C k ctx ctx1 ctx2 sender ethReceiver amount fee id v e
    Hwf Hv Hcodec Hsubmit Hcancel.
  pose proof Hwf as (_ & Hv1 & _ & Hids & _).
  destruct (AddToOutgoingPool_pool_wf k _ _ _ _ _ _ _ v Hwf Hv Hsubmit)
    as (-> & Hwf1 & _).
  destruct (submit_then_lookup_aux k _ _ _ _ _ _ _ v Hwf Hv Hsubmit)
    as (record & Hget & _ & Hid & Hsender & _ & _ & _ & Hcontract & Hfree
        & Hpool).
  pose proof (AddToOutgoingPool_ctx_is_zero k _ _ _ _ _ _ _ Hsubmit) as Hz1.
  apply AddToOutgoingPool_success_inv in Hsubmit
    as (total & isCosmos & tc & contract & b & store1 & Hvalid & _).
  assert (ctx_is_zero ctx1 = false /\ sender <> []) as [Hz Hs].
  { unfold invalid_arguments in Hvalid. split.
    - rewrite Hz1. destruct (ctx_is_zero ctx); [|done].
      destruct Hvalid. auto.
    - intros ->. apply Hvalid. auto. }
  rewrite (RemoveFromOutgoingPoolAndRefund_reaches_refund k ctx1 v sender
             record) in Hcancel; try done.
  - apply RemoveFromOutgoingPool_refund_inv in Hcancel
      as (coins & _ & Hstore2 & _).
    simpl in Hstore2.
    assert (pool (kvstore ctx2) = pool (kvstore ctx)) as Hpool2.
    { rewrite Hstore2. simpl. rewrite Hpool.
      by apply delete_insert_id. }
    split_and!; [done|by rewrite Hstore2| |].
    + destruct Hwf1 as (Hnext1 & _). unfold next_id in *.
      by rewrite Hstore2.
    + destruct (GetUnbatchedTxById_spec (kvstore ctx2) v)
        as [(tx & key & _ & Hidtx & Hlook)|[-> _]]; [|done].
      rewrite Hpool2 in Hlook. destruct (Hids _ _ Hlook). lia.
  - by rewrite Hsender.
  - rewrite Hpool, lookup_insert_eq. eauto.
Qed.

Lemma submit_all_single {Bank : Type} `{!BankKeeper Bank} `{!AddressCodec}
    (k : Keeper) (ctx ctx' : Context Bank) (sender : AccAddress)
    (dest : EthAddress) (amount fee : Coin) (id : Z) :
  AddToOutgoingPool k ctx sender dest amount fee = Done ((id, None), ctx') ->
  submit_all k ctx [(sender, dest, amount, fee)] = ([id], ctx').
Proof. intros Hrun. cbn [submit_all]. by rewrite Hrun. Qed.

Lemma example_submit_then_cancel :
  exists ctx1 ctx2 e,
    AddToOutgoingPool Example.keeper Example.genesis Example.alice
      Example.receiver (mkCoin Example.voucherA 100)
      (mkCoin Example.voucherA 10)
    = Done ((1, None), ctx1) /\
    RemoveFromOutgoingPoolAndRefund Example.keeper ctx1 1 Example.alice
    = Done (e, ctx2).
Proof.
  destruct example_first_submit as [ctx1 Hrun].
  assert (Example.cancel_returns
            (submit_all Example.keeper Example.genesis
               [Example.send_A 10]).2 1 Example.alice
          = Done None) as Hret by (vm_compute; reflexivity).
  unfold Example.send_A in Hret.
  rewrite (submit_all_single _ _ _ _ _ _ _ _ Hrun) in Hret.
  unfold Example.cancel_returns in Hret. simpl in Hret.
  destruct (RemoveFromOutgoingPoolAndRefund _ _ _ _) as [[e ctx2]|]
    eqn:Hcancel; simpl in Hret; [|discriminate].
  exists ctx1, ctx2, e. by split.
Qed.

Lemma submit_then_cancel_restores_pool_witness :
  exists ctx1 ctx2 e,
    pool_wf (kvstore Example.genesis) 1 /\
    AccAddressFromBech32 (AccAddress_String Example.alice)
    = (Example.alice, None) /\
    AddToOutgoingPool Example.keeper Example.genesis Example.alice
      Example.receiver (mkCoin Example.voucherA 100)
      (mkCoin Example.voucherA 10)
    = Done ((1, None), ctx1) /\
    RemoveFromOutgoingPoolAndRefund Example.keeper ctx1 1 Example.alice
    = Done (e, ctx2) /\
    pool (kvstore ctx2) = pool (kvstore Example.genesis).
Proof.
  assert (pool_wf (kvstore Example.genesis) 1) as Hwf
    by (apply pool_wf_empty; reflexivity).
  assert (AccAddressFromBech32 (AccAddress_String Example.alice)
          = (Example.alice, None)) as Hcodec by (vm_compute; reflexivity).
  destruct example_submit_then_cancel as (ctx1 & ctx2 & e & Hsubmit & Hcancel).
  exists ctx1, ctx2, e. split_and!; [assumption..|].
  apply (submit_then_cancel_restores_pool _ _ _ _ _ _ _ _ _ _ _ _ 1 _ Hwf
           ltac:(lia) Hcodec Hsubmit Hcancel).
Defined.

(** ** The errors of a submit *)

(** When [AddToOutgoingPool] returns an error it returns id 0 and the
    context it was given: nothing has been written. The error is the
    argument error, or the error of the denomination lookup, or the error
    of the bank's transfer of amount plus fee into the module account;
    [ErrDuplicate] of [addUnbatchedTX] is never passed on. *)
Theorem submit_error_writes_nothing :
  forall (Bank : Type) (B : BankKeeper Bank) (C : AddressCodec) (k : Keeper)
         (ctx ctx' : Context Bank) (sender : AccAddress)
         (ethReceiver : EthAddress) (amount fee : Coin) (id : Z) (e : Error),
    AddToOutgoingPool k ctx sender ethReceiver amount fee
      = Done ((id, Some e), ctx') ->
    ctx' = ctx /\ id = 0 /\
    let total := mkCoin (Denom amount) (CoinAmount amount + CoinAmount fee) in
    (e = Wrap ErrInvalid "arguments" \/
     (DenomToERC20Lookup k (Denom total)).2 = Some e \/
     SendCoinsFromAccountToModule (bank ctx) sender ModuleName [total]
     = BankError e).
Proof.
  intros Bank B C k ctx ctx' sender ethReceiver amount fee id e Hrun.
  destruct (AddToOutgoingPool_error_unchanged k _ _ _ _ _ _ _ _ Hrun)
    as [-> ->].
  split; [done|]. split; [done|].
  apply AddToOutgoingPool_errors in Hrun
    as [->|[(total & Hadd & Herr)|(total & Hadd & Herr)]];
    [by left|..]; apply Coin_Add_Done in Hadd as [-> _]; auto.
Qed.

Lemma submit_error_writes_nothing_witness :
  AddToOutgoingPool Example.keeper Example.genesis Example.alice
    Example.receiver (mkCoin Example.voucherA 5000)
    (mkCoin Example.voucherA 10)
  = Done ((0, Some Example.insufficient_funds), Example.genesis) /\
  SendCoinsFromAccountToModule (bank Example.genesis) Example.alice
    ModuleName [mkCoin Example.voucherA 5010]
  = BankError Example.insufficient_funds.
Proof.
  assert (AddToOutgoingPool Example.keeper Example.genesis Example.alice
            Example.receiver (mkCoin Example.voucherA 5000)
            (mkCoin Example.voucherA 10)
          = Done ((0, Some Example.insufficient_funds), Example.genesis))
    as Hrun by (vm_compute; reflexivity).
  split; [exact Hrun|].
  destruct (submit_error_writes_nothing _ _ _ _ _ _ _ _ _ _ _ _ Hrun)
    as (_ & _ & [Harg|[Hlookup|Hlock]]).
  - discriminate Harg.
  - vm_compute in Hlookup. discriminate Hlookup.
  - exact Hlock.
Defined.

(** * Further properties of the address and token types *)

(** ** Addresses *)

Lemma matches_eth_regex_shape (s : string) :
  matches_eth_regex s = true ->
  exists rest,
    s = String "0" (String "x" rest) /\ String.length rest = 40%nat /\
    string_forall is_hex_digit rest = true.
Proof.
  destruct s as [|c0 [|c1 rest]]; [done| |].
  - by destruct c0 as [[] [] [] [] [] [] [] []].
  - destruct c0 as [[] [] [] [] [] [] [] []]; try done.
    destruct c1 as [[] [] [] [] [] [] [] []]; try done.
    simpl. rewrite andb_true_iff, Nat.eqb_eq. intros [??]. by exists rest.
Qed.

Lemma ValidateEthAddress_regex (addr : string) :
  ValidateEthAddress addr = None <-> matches_eth_regex addr = true.
Proof.
  unfold ValidateEthAddress. split.
  - destruct (String.eqb addr ""); [done|].
    destruct (negb _); [done|].
    by destruct (matches_eth_regex addr).
  - intros Hm. destruct (matches_eth_regex_shape _ Hm) as (rest & -> & Hl & _).
    simpl String.eqb. simpl String.length. rewrite Hl. simpl.
    simpl in Hm. by rewrite Hm.
Qed.

(** [NewEthAddress] accepts exactly the strings of the form 0x followed by
    forty hexadecimal digits (the checks for an empty string and for the
    length never decide on their own); it returns either an address or an
    error, never both and never neither; an address it returns wraps the
    string given, has length 42 and passes [ValidateBasic]. *)
Theorem new_eth_address_accepts_exactly_the_pattern :
  forall addr : string,
    (matches_eth_regex addr = true ->
     NewEthAddress addr = (Some (mkEthAddress addr), None) /\
     String.length addr = ETHContractAddressLen /\
     EthAddress_ValidateBasic (mkEthAddress addr) = None) /\
    (matches_eth_regex addr = false ->
     exists err,
       ValidateEthAddress addr = Some err /\
       NewEthAddress addr = (None, Some (Wrap err "invalid input address"))).
Proof.
  intros addr. split.
  - intros Hm. pose proof Hm as Hvalid.
    apply ValidateEthAddress_regex in Hvalid.
    split; [by apply NewEthAddress_valid|].
    split; [|done].
    destruct (matches_eth_regex_shape _ Hm) as (rest & -> & Hl & _).
    simpl. by rewrite Hl.
  - intros Hm.
    destruct (ValidateEthAddress addr) as [err|] eqn:Hv.
    + exists err. split; [done|]. by apply NewEthAddress_invalid.
    + apply ValidateEthAddress_regex in Hv. congruence.
Qed.

Lemma new_eth_address_accepts_exactly_the_pattern_witness :
  matches_eth_regex Example.tokenA = true /\
  NewEthAddress Example.tokenA = (Some (mkEthAddress Example.tokenA), None) /\
  matches_eth_regex "0xAAAA" = false /\
  exists err,
    NewEthAddress "0xAAAA" = (None, Some (Wrap err "invalid input address")).
Proof.
  split; [reflexivity|].
  split.
  { apply (proj1 (new_eth_address_accepts_exactly_the_pattern Example.tokenA)).
    reflexivity. }
  split; [reflexivity|].
  destruct (proj2 (new_eth_address_accepts_exactly_the_pattern "0xAAAA"))
    as (err & _ & Hnew); [reflexivity|].
  by exists err.
Defined.

(** The wrapper [NewOptionalEthAddress] builds never has a flag and a
    payload that disagree: it passes [ValidateBasic], it is nil exactly
    when an error is returned, and [Unwrap] returns the address exactly
    when no error is returned. *)
Theorem new_optional_eth_address_consistent :
  forall addr : string,
    let '(o, err) := NewOptionalEthAddress addr in
    OptionalEthAddress_ValidateBasic o = None /\
    (IsNil o = true <-> optional o = None) /\
    (IsNil o = true <-> err <> None) /\
    (err = None -> Unwrap o = (Some (mkEthAddress addr), None)) /\
    (err <> None -> Unwrap o = (None, Some (Errorf "nil value" []))).
Proof.
  intros addr. unfold NewOptionalEthAddress, NewEthAddress.
  destruct (ValidateEthAddress addr) as [e|] eqn:Hv; simpl.
  - split_and!; done.
  - unfold OptionalEthAddress_ValidateBasic, EthAddress_ValidateBasic, Unwrap.
    simpl. rewrite Hv. split_and!; try done. all: split; done.
Qed.

Lemma new_optional_eth_address_consistent_witness :
  (NewOptionalEthAddress Example.tokenA).2 = None /\
  Unwrap (NewOptionalEthAddress Example.tokenA).1
  = (Some (mkEthAddress Example.tokenA), None).
Proof.
  assert ((NewOptionalEthAddress Example.tokenA).2 = None) as Herr
    by (vm_compute; reflexivity).
  split; [exact Herr|].
  pose proof (new_optional_eth_address_consistent Example.tokenA) as H.
  destruct (NewOptionalEthAddress Example.tokenA) as [o err]. simpl in *.
  destruct H as (_ & _ & _ & Hok & _). apply Hok, Herr.
Defined.

(** [EthAddrLessThan] is a strict total order on addresses: no address is
    below itself, the relation is transitive, and of two different
    addresses exactly one is below the other. *)
Theorem eth_addr_less_than_strict_total_order :
  (forall a : EthAddress, EthAddrLessThan a a = false) /\
  (forall a b c : EthAddress,
     EthAddrLessThan a b = true -> EthAddrLessThan b c = true ->
     EthAddrLessThan a c = true) /\
  (forall a b : EthAddress,
     EthAddrLessThan a b = true -> EthAddrLessThan b a = false) /\
  (forall a b : EthAddress,
     a <> b -> EthAddrLessThan a b = true \/ EthAddrLessThan b a = true).
Proof.
  unfold EthAddrLessThan, String.ltb, GetAddress. split_and!.
  - intros a. by rewrite string_compare_refl.
  - intros a b c.
    destruct (String.compare (address a) (address b)) eqn:Hab; try done.
    destruct (String.compare (address b) (address c)) eqn:Hbc; try done.
    by rewrite (string_compare_lt_trans _ _ _ Hab Hbc).
  - intros a b. rewrite (String.compare_antisym (address b)).
    by destruct (String.compare (address a) (address b)).
  - intros [a] [b] Hne. simpl.
    rewrite (String.compare_antisym b a).
    destruct (String.compare a b) eqn:Hab; simpl; auto.
    apply string_compare_eq in Hab. congruence.
Qed.

Lemma eth_addr_less_than_strict_total_order_witness :
  EthAddrLessThan (mkEthAddress Example.tokenA) (mkEthAddress Example.tokenB)
  = true /\
  EthAddrLessThan (mkEthAddress Example.tokenB) (mkEthAddress Example.tokenA)
  = false.
Proof.
  split; [reflexivity|].
  apply (proj1 (proj2 (proj2 eth_addr_less_than_strict_total_order))).
  reflexivity.
Defined.

(** ** Voucher denominations *)

Lemma strip_prefix_Some (p s r : string) :
  strip_prefix p s = Some r -> s = (p ++ r)%string.
Proof.
  revert s. induction p as [|a p IH]; intros [|b s]; simpl; try done.
  - by intros [= <-].
  - by intros [= <-].
  - destruct (Ascii.eqb_spec a b) as [->|]; [|done].
    intros Hs. by rewrite (IH _ Hs).
Qed.

(** Round trip of the voucher denomination. The denomination
    [GravityDenom] builds for a valid address parses back to that address,
    and a denomination that [GravityDenomToERC20] parses to an address is
    the one [GravityDenom] builds for it, with a valid address. *)
Theorem gravity_denom_round_trip :
  (forall ea : EthAddress,
     EthAddress_ValidateBasic ea = None ->
     GravityDenomToERC20 (GravityDenom ea) = (Some ea, None)) /\
  (forall (denom : string) (ea : EthAddress),
     (GravityDenomToERC20 denom).1 = Some ea ->
     denom = GravityDenom ea /\ EthAddress_ValidateBasic ea = None /\
     (GravityDenomToERC20 denom).2 = None).
Proof.
  split.
  - intros [addr] Hvalid. unfold EthAddress_ValidateBasic in Hvalid.
    simpl in Hvalid.
    unfold GravityDenomToERC20, GravityDenom. simpl.
    change (String.append "" (String.append GravityDenomSeparator addr))
      with addr.
    rewrite (NewEthAddress_valid _ Hvalid).
    apply ValidateEthAddress_regex in Hvalid.
    destruct (matches_eth_regex_shape _ Hvalid) as (rest & -> & Hl & _).
    simpl. by rewrite Hl.
  - intros denom ea. unfold GravityDenomToERC20.
    destruct (strip_prefix _ denom) as [rest|] eqn:Hstrip; [|done].
    apply strip_prefix_Some in Hstrip.
    destruct (ValidateEthAddress rest) as [err|] eqn:Hv.
    + by rewrite (NewEthAddress_invalid _ _ Hv).
    + rewrite (NewEthAddress_valid _ Hv).
      destruct (negb _); simpl; [done|].
      intros [= <-]. split_and!; done.
Qed.

Lemma gravity_denom_round_trip_witness :
  EthAddress_ValidateBasic (mkEthAddress Example.tokenA) = None /\
  GravityDenomToERC20 Example.voucherA
  = (Some (mkEthAddress Example.tokenA), None).
Proof.
  split; [reflexivity|].
  apply (proj1 gravity_denom_round_trip (mkEthAddress Example.tokenA)).
  reflexivity.
Defined.

Lemma string_forall_impl (p q : ascii -> bool) (s : string) :
  (forall c, p c = true -> q c = true) ->
  string_forall p s = true -> string_forall q s = true.
Proof.
  intros Hpq. induction s as [|c s IH]; simpl; [done|].
  rewrite !andb_true_iff. intros [??]. auto.
Qed.

Lemma is_hex_digit_denom_char (c : ascii) :
  is_hex_digit c = true -> is_denom_char c = true.
Proof.
  unfold is_hex_digit, is_denom_char, is_letter, is_digit.
  generalize (N_of_ascii c). intros n.
  rewrite !orb_true_iff, !andb_true_iff, !N.leb_le. lia.
Qed.

(** The voucher denomination of a valid address is a valid denomination of
    the SDK. *)
Lemma ValidateDenom_GravityDenom (addr : string) :
  matches_eth_regex addr = true ->
  ValidateDenom (GravityDenom (mkEthAddress addr)) = true.
Proof.
  intros Hm. destruct (matches_eth_regex_shape _ Hm) as (rest & -> & Hl & Hhex).
  unfold GravityDenom.
  change (String.append GravityDenomPrefix
            (String.append GravityDenomSeparator
               (GetAddress (mkEthAddress (String "0" (String "x" rest))))))
    with (String.append "gravity0x" rest).
  simpl. change (String.append "" rest) with rest.
  rewrite Hl. simpl. rewrite !andb_true_r.
  revert Hhex. apply string_forall_impl, is_hex_digit_denom_char.
Qed.

(** The coins a cancel asks the bank for. For a transfer whose token
    contract is a valid address, with a non-negative amount and a total of
    amount and fee within the range of [sdk.Int], they are one coin of the
    voucher denomination of the contract, worth amount plus fee (no coin
    when that is zero), whether or not the token is cosmos-originated. An
    invalid contract address or a negative amount makes the computation
    panic. *)
Theorem refund_is_one_voucher_coin :
  forall tx : OutgoingTransferTx,
    let contract := Contract (Erc20Token tx) in
    let total := Amount (Erc20Token tx) + Amount (Erc20Fee tx) in
    (matches_eth_regex contract = true ->
     0 <= Amount (Erc20Token tx) -> 0 <= total < 2 ^ 255 ->
     refund_coins tx
     = Done (if Z.eqb total 0 then []
             else [mkCoin (GravityDenom (mkEthAddress contract)) total])) /\
    (matches_eth_regex contract = false ->
     exists p, refund_coins tx = Panicked p) /\
    (matches_eth_regex contract = true -> Amount (Erc20Token tx) < 0 ->
     exists p, refund_coins tx = Panicked p).
Proof.
  intros tx contract total. unfold refund_coins, GravityCoin.
  fold contract. split_and!.
  - intros Hm Hamount Htotal.
    pose proof (proj2 (ValidateEthAddress_regex contract) Hm) as Hvalid.
    rewrite (NewEthAddress_valid _ Hvalid). cbn [deref exec_bind].
    unfold NewCoin, Coin_Validate. cbn [Denom CoinAmount].
    rewrite (ValidateDenom_GravityDenom _ Hm). unfold Int_IsNegative.
    destruct (Z.ltb_spec (Amount (Erc20Token tx)) 0); [lia|].
    cbn [andb negb exec_bind CoinAmount Denom].
    rewrite Int_Add_small by done. cbn [exec_bind]. fold total.
    unfold NewCoins, Coin_IsValid. cbn [Denom CoinAmount].
    rewrite (ValidateDenom_GravityDenom _ Hm). unfold Int_IsNegative.
    destruct (Z.eqb_spec total 0); [done|].
    destruct (Z.ltb_spec total 0); [lia|done].
  - intros Hm.
    destruct (ValidateEthAddress contract) as [err|] eqn:Hv.
    + rewrite (NewEthAddress_invalid _ _ Hv). eauto.
    + apply ValidateEthAddress_regex in Hv. congruence.
  - intros Hm Hneg.
    pose proof (proj2 (ValidateEthAddress_regex contract) Hm) as Hvalid.
    rewrite (NewEthAddress_valid _ Hvalid). cbn [deref exec_bind].
    unfold NewCoin, Coin_Validate. cbn [Denom CoinAmount].
    rewrite (ValidateDenom_GravityDenom _ Hm). unfold Int_IsNegative.
    destruct (Z.ltb_spec (Amount (Erc20Token tx)) 0); [|lia].
    cbn [negb exec_bind]. eauto.
Qed.

Lemma refund_is_one_voucher_coin_witness :
  matches_eth_regex Example.tokenB = true /\
  refund_coins
    (outgoing_tx 1 Example.alice Example.receiver (mkCoin Example.ustake 100)
       (mkCoin Example.ustake 7) (mkEthAddress Example.tokenB))
  = Done [mkCoin (GravityDenom (mkEthAddress Example.tokenB)) 107].
Proof.
  split; [reflexivity|].
  apply (proj1 (refund_is_one_voucher_coin
                  (outgoing_tx 1 Example.alice Example.receiver
                     (mkCoin Example.ustake 100) (mkCoin Example.ustake 7)
                     (mkEthAddress Example.tokenB)))).
  - reflexivity.
  - simpl. lia.
  - simpl. lia.
Defined.

(** ** Adding token amounts *)

(** Whenever [ERC20Token.Add] returns, the two tokens named the same valid
    contract, the result names that contract, its amount is the exact sum
    and lies in the unsigned 64-bit range, it passes [ValidateBasic], and
    adding in the other order returns the same token. *)
Theorem erc20_add_returns_checked_sums :
  forall e o r : ERC20Token,
    ERC20Token_Add e o = Done r ->
    Contract e = Contract o /\
    matches_eth_regex (Contract e) = true /\
    r = mkERC20Token (Amount e + Amount o) (Contract e) /\
    0 <= Amount r < 2 ^ 64 /\
    ERC20Token_ValidateBasic r = None /\
    ERC20Token_Add o e = Done r.
Proof.
  intros e o r. unfold ERC20Token_Add at 1.
  destruct (ValidateEthAddress (Contract e)) as [err|] eqn:Hve;
    [by rewrite (NewEthAddress_invalid _ _ Hve)|].
  rewrite (NewEthAddress_valid _ Hve).
  destruct (ValidateEthAddress (Contract o)) as [err|] eqn:Hvo;
    [by rewrite (NewEthAddress_invalid _ _ Hvo)|].
  rewrite (NewEthAddress_valid _ Hvo). simpl.
  destruct (String.eqb_spec (Contract e) (Contract o)) as [Hc|]; simpl;
    [|done].
  unfold Int_Add. destruct (_ <? _)%Z eqn:Hbits; simpl; [done|].
  unfold Int_IsUint64.
  destruct (Z.leb_spec 0 (Amount e + Amount o)); simpl; [|done].
  destruct (Z.ltb_spec (Amount e + Amount o) (2 ^ 64)); simpl; [|done].
  intros [= <-]. unfold NewERC20Token. simpl.
  split_and!; try done.
  - by apply ValidateEthAddress_regex.
  - unfold ERC20Token_ValidateBasic. simpl.
    by rewrite (NewEthAddress_valid _ Hve).
  - unfold ERC20Token_Add.
    rewrite (NewEthAddress_valid _ Hvo), (NewEthAddress_valid _ Hve). simpl.
    rewrite <- Hc, String.eqb_refl. cbn [negb deref exec_bind].
    rewrite Int_Add_uint64 by lia. cbn [exec_bind].
    rewrite (Z.add_comm (Amount o)).
    unfold Int_IsUint64.
    destruct (Z.leb_spec 0 (Amount e + Amount o)); [|lia].
    destruct (Z.ltb_spec (Amount e + Amount o) (2 ^ 64)); [|lia].
    done.
Qed.

Lemma erc20_add_returns_checked_sums_witness :
  ERC20Token_Add (mkERC20Token 7 Example.tokenA)
    (mkERC20Token 8 Example.tokenA)
  = Done (mkERC20Token 15 Example.tokenA) /\
  ERC20Token_Add (mkERC20Token 8 Example.tokenA)
    (mkERC20Token 7 Example.tokenA)
  = Done (mkERC20Token 15 Example.tokenA).
Proof.
  assert (ERC20Token_Add (mkERC20Token 7 Example.tokenA)
            (mkERC20Token 8 Example.tokenA)
          = Done (mkERC20Token 15 Example.tokenA)) as Hadd by reflexivity.
  split; [exact Hadd|].
  apply (erc20_add_returns_checked_sums _ _ _ Hadd).
Defined.

(** * Further properties of the id counter *)

Lemma Z_of_byte_range (b : byte) : 0 <= Z_of_byte b < 256.
Proof.
  unfold Z_of_byte. pose proof (Byte.to_N_bounded b). lia.
Qed.

Lemma BigEndian_Uint64_range (bz : list byte) (v : Z) :
  BigEndian_Uint64 bz = Done v -> 0 <= v < 2 ^ 64.
Proof.
  unfold BigEndian_Uint64.
  destruct bz as [|b0 [|b1 [|b2 [|b3 [|b4 [|b5 [|b6 [|b7 rest]]]]]]]];
    try done.
  simpl. intros [= <-].
  pose proof (Z_of_byte_range b0). pose proof (Z_of_byte_range b1).
  pose proof (Z_of_byte_range b2). pose proof (Z_of_byte_range b3).
  pose proof (Z_of_byte_range b4). pose proof (Z_of_byte_range b5).
  pose proof (Z_of_byte_range b6). pose proof (Z_of_byte_range b7).
  change (2 ^ 64) with 18446744073709551616. lia.
Qed.

(** The eight bytes [Uint64ToBigEndian] writes read back as the value
    modulo 2^64, also when more bytes follow them; a slice of fewer than
    eight bytes makes [binary.BigEndian.Uint64] panic. *)
Theorem big_endian_round_trip :
  (forall (v : Z) (rest : list byte),
     length (Uint64ToBigEndian v) = 8%nat /\
     BigEndian_Uint64 (Uint64ToBigEndian v ++ rest) = Done (v mod 2 ^ 64)) /\
  (forall v w : Z,
     0 <= v < 2 ^ 64 -> 0 <= w < 2 ^ 64 ->
     Uint64ToBigEndian v = Uint64ToBigEndian w -> v = w) /\
  (forall bz : list byte,
     (length bz < 8)%nat ->
     BigEndian_Uint64 bz = Panicked PanicIndexOutOfRange).
Proof.
  assert (forall (v : Z) (rest : list byte),
            BigEndian_Uint64 (Uint64ToBigEndian v ++ rest)
            = Done (v mod 2 ^ 64)) as Hround.
  { intros v rest. unfold BigEndian_Uint64, Uint64ToBigEndian. simpl.
    f_equal. rewrite !Z_of_byte_of_Z, !Z.shiftr_div_pow2 by lia.
    change (2 ^ 64) with 18446744073709551616.
    simpl Z.pow. simpl Z.mul.
    Z.div_mod_to_equations; lia. }
  split_and!.
  - intros v rest. split; [done|apply Hround].
  - intros v w Hv Hw Heq.
    pose proof (Hround v []) as Hv'. pose proof (Hround w []) as Hw'.
    rewrite app_nil_r in Hv', Hw'. rewrite Heq, Hw' in Hv'.
    injection Hv' as Hmod. rewrite !Z.mod_small in Hmod by done. done.
  - intros bz Hlen. unfold BigEndian_Uint64.
    destruct (Nat.ltb_spec (length bz) 8); [done|lia].
Qed.

Lemma big_endian_round_trip_witness :
  0 <= 258 < 2 ^ 64 /\ 0 <= 513 < 2 ^ 64 /\
  (Uint64ToBigEndian 258 = Uint64ToBigEndian 513 -> 258 = 513) /\
  BigEndian_Uint64 [x00; x01] = Panicked PanicIndexOutOfRange.
Proof.
  split; [lia|]. split; [lia|]. split.
  - apply (proj1 (proj2 big_endian_round_trip)); lia.
  - apply (proj2 (proj2 big_endian_round_trip)). simpl. lia.
Defined.

(** Whenever [autoIncrementID] returns, the id lies in the unsigned 64-bit
    range, the pool and the entries under all other keys are as before, and
    the counter holds the id plus one modulo 2^64: the next call returns
    that value, so after the last 64-bit id the counter starts again at 0.
    On a stored value of fewer than eight bytes the call panics. *)
Theorem id_counter_step :
  (forall (store store' : KVStore) (idKey : string) (id : Z),
     autoIncrementID store idKey = Done (id, store') ->
     0 <= id < 2 ^ 64 /\
     pool store' = pool store /\
     (forall key', key' <> idKey ->
                   sequences store' !! key' = sequences store !! key') /\
     exists store'',
       autoIncrementID store' idKey
       = Done ((id + 1) mod 2 ^ 64, store'')) /\
  (forall (store : KVStore) (idKey : string) (bz : list byte),
     sequences store !! idKey = Some bz -> (length bz < 8)%nat ->
     autoIncrementID store idKey = Panicked PanicIndexOutOfRange).
Proof.
  split.
  - intros store store' idKey id Hrun.
    assert (0 <= id < 2 ^ 64) as Hid.
    { unfold autoIncrementID in Hrun.
      destruct (sequences store !! idKey) as [bz|].
      - destruct (BigEndian_Uint64 bz) as [v|] eqn:Hdec; simpl in Hrun;
          [|done].
        injection Hrun as <- _. by eapply BigEndian_Uint64_range.
      - simpl in Hrun. injection Hrun as <- _. lia. }
    split; [done|]. split; [by eapply autoIncrementID_pool|].
    assert (sequences store'
            = <[idKey := Uint64ToBigEndian (wrap_uint64 (id + 1))]>
                (sequences store)) as Hseq.
    { unfold autoIncrementID in Hrun.
      destruct (sequences store !! idKey) as [bz|].
      - destruct (BigEndian_Uint64 bz) as [v|]; simpl in Hrun; [|done].
        by injection Hrun as <- <-.
      - simpl in Hrun. by injection Hrun as <- <-. }
    split.
    + intros key' Hne. by rewrite Hseq, lookup_insert_ne.
    + eexists. apply autoIncrementID_next. unfold next_id.
      rewrite Hseq, lookup_insert_eq. split; [done|].
      apply wrap_uint64_range.
  - intros store idKey bz Hlook Hlen. unfold autoIncrementID.
    rewrite Hlook. unfold BigEndian_Uint64.
    destruct (Nat.ltb_spec (length bz) 8); [done|lia].
Qed.

Lemma id_counter_step_witness :
  exists store' store'',
    autoIncrementID
      (mkKVStore ∅ {[KeyLastTXPoolID := Uint64ToBigEndian (2 ^ 64 - 1)]})
      KeyLastTXPoolID = Done (2 ^ 64 - 1, store') /\
    autoIncrementID store' KeyLastTXPoolID = Done (0, store'').
Proof.
  assert (autoIncrementID
            (mkKVStore ∅
               {[KeyLastTXPoolID := Uint64ToBigEndian (2 ^ 64 - 1)]})
            KeyLastTXPoolID
          = Done (2 ^ 64 - 1,
                  mkKVStore ∅
                    (<[KeyLastTXPoolID := Uint64ToBigEndian 0]>
                       {[KeyLastTXPoolID
                         := Uint64ToBigEndian (2 ^ 64 - 1)]}))) as Hrun
    by (vm_compute; reflexivity).
  destruct (proj1 id_counter_step _ _ _ _ Hrun)
    as (_ & _ & _ & store'' & Hnext).
  eexists _, store''. split; [exact Hrun|exact Hnext].
Defined.


(** * Further properties of the fee summaries *)

(** ** The scoped iteration is the whole iteration, filtered *)

Lemma StronglySorted_filter {A : Type} (R : relation A) (P : A -> Prop)
    `{forall x, Decision (P x)} (l : list A) :
  StronglySorted R l -> StronglySorted R (filter P l).
Proof.
  induction 1 as [|x l Hl IH Hx]; [constructor|].
  rewrite filter_cons. case_decide; [|done].
  constructor; [done|].
  rewrite Forall_forall in Hx |- *. intros y Hy.
  apply list_elem_of_filter in Hy as [_ Hy]. auto.
Qed.

Lemma filter_ext_in {A : Type} (P Q : A -> Prop)
    `{forall x, Decision (P x)} `{forall x, Decision (Q x)} (l : list A) :
  (forall x, x ∈ l -> P x <-> Q x) -> filter P l = filter Q l.
Proof.
  induction l as [|x l IH]; intros Hext; [done|].
  rewrite !filter_cons.
  assert (filter P l = filter Q l) as ->
    by (apply IH; intros; apply Hext; by right).
  pose proof (Hext x ltac:(left)) as Hx.
  repeat case_decide; tauto.
Qed.

Lemma filter_fmap_snd {K V : Type} (P : V -> Prop)
    `{forall x, Decision (P x)} (l : list (K * V)) :
  filter P l.*2 = (filter (fun e => P e.2) l).*2.
Proof.
  induction l as [|e l IH]; [done|].
  csimpl. rewrite !filter_cons. simpl. case_decide; csimpl; by rewrite IH.
Qed.

Lemma ReverseIterator_filter_contract (store : KVStore) (c : string) :
  filter (fun e : PoolKey * OutgoingTransferTx => key_contract e.1 = c)
    (ReverseIterator store (prefixRange OutgoingTXPoolKey))
  = ReverseIterator store (prefixRange (ContractPrefix c)).
Proof.
  apply (StronglySorted_unique_strong
           (fun x y : PoolKey * OutgoingTransferTx =>
              key_compare y.1 x.1 = Lt)).
  - intros x y _ _ Hxy Hyx. rewrite key_compare_antisym, Hxy in Hyx. done.
  - apply StronglySorted_filter, ReverseIterator_descending.
  - apply ReverseIterator_descending.
  - apply NoDup_Permutation.
    + apply NoDup_filter. eapply NoDup_fmap_1, ReverseIterator_NoDup_keys.
    + eapply NoDup_fmap_1, ReverseIterator_NoDup_keys.
    + intros [key tx]. rewrite list_elem_of_filter, !elem_of_ReverseIterator.
      simpl. rewrite Is_true_true, String.eqb_eq.
      split; [intros [<- [??]]|intros [? <-]]; done.
Qed.

(** Under the index invariant, the transfers of a contract in the whole
    pool listing are the scoped listing, in the same order. *)
Lemma by_contract_is_filter (store : KVStore) (c : string) :
  pool_indexed store ->
  filter (fun tx => Contract (Erc20Fee tx) = c)
    (ReverseIterator store (prefixRange OutgoingTXPoolKey)).*2
  = (ReverseIterator store (prefixRange (ContractPrefix c))).*2.
Proof.
  intros Hidx. rewrite filter_fmap_snd. f_equal.
  rewrite <- ReverseIterator_filter_contract.
  apply filter_ext_in. intros [key tx] Hin.
  apply elem_of_ReverseIterator in Hin as [Hlook _].
  apply Hidx in Hlook. subst key. done.
Qed.

(** ** The loop of [createBatchFees] *)

Lemma sum_fees_app (l1 l2 : list OutgoingTransferTx) :
  sum_fees (l1 ++ l2)%list = sum_fees l1 + sum_fees l2.
Proof.
  induction l1 as [|tx l1 IH]; [done|].
  change (sum_fees ((tx :: l1) ++ l2))
    with (Amount (Erc20Fee tx) + sum_fees (l1 ++ l2)).
  change (sum_fees (tx :: l1)) with (Amount (Erc20Fee tx) + sum_fees l1).
  lia.
Qed.

Lemma sum_fees_filter_le (P : OutgoingTransferTx -> Prop)
    `{forall x, Decision (P x)} (l : list OutgoingTransferTx) :
  Forall (fun tx => 0 <= Amount (Erc20Fee tx)) l ->
  0 <= sum_fees (filter P l) <= sum_fees l.
Proof.
  induction 1 as [|tx l Htx Hl IH]; [done|].
  rewrite filter_cons.
  change (sum_fees (tx :: l)) with (Amount (Erc20Fee tx) + sum_fees l).
  case_decide; [|lia].
  change (sum_fees (tx :: filter P l))
    with (Amount (Erc20Fee tx) + sum_fees (filter P l)).
  lia.
Qed.

(** With a cap below 1 the loop of [createBatchFees] counts no transfer. *)
Lemma iterate_createBatchFees_none (maxElements : Z)
    (entries : list (PoolKey * OutgoingTransferTx)) :
  int_of_uint maxElements <= 0 ->
  iterate_entries (createBatchFees_cb maxElements) entries (∅, ∅)
  = Done (∅, ∅).
Proof.
  intros Hcap. induction entries as [|[key tx] entries IH]; [done|].
  cbn [iterate_entries]. unfold createBatchFees_cb at 1.
  rewrite lookup_empty. cbn [default].
  destruct (Z.ltb_spec 0 (int_of_uint maxElements)); [lia|].
  cbn [exec_bind]. apply IH.
Qed.

(** One step and then the rest of the loop of [createBatchFees], for a cap
    of at least 1. *)
Lemma iterate_createBatchFees (maxElements : Z)
    (entries : list (PoolKey * OutgoingTransferTx))
    (visited : list OutgoingTransferTx)
    (bm : gmap string BatchFees) (cm : gmap string Z) :
  1 <= int_of_uint maxElements ->
  Forall (fun tx => 0 <= Amount (Erc20Fee tx)) visited ->
  Forall (fun tx => 0 <= Amount (Erc20Fee tx)) entries.*2 ->
  sum_fees visited + sum_fees entries.*2 < 2 ^ 255 ->
  batch_fees_of (int_of_uint maxElements) visited bm cm ->
  exists bm' cm',
    iterate_entries (createBatchFees_cb maxElements) entries (bm, cm)
    = Done (bm', cm') /\
    batch_fees_of (int_of_uint maxElements) (visited ++ entries.*2) bm' cm'.
Proof.
  intros Hcap. revert visited bm cm.
  assert (int_of_uint maxElements < 2 ^ 63) as Hcap'.
  { unfold int_of_uint, wrap_int64.
    pose proof (Z.mod_pos_bound (maxElements + 2 ^ 63) (2 ^ 64)). lia. }
  induction entries as [|[key tx] entries IH];
    intros visited bm cm Hvis Hrest Hsum Hinv.
  { exists bm, cm. csimpl. by rewrite app_nil_r. }
  csimpl in Hrest. apply Forall_cons in Hrest as [Htx Hrest].
  change (sum_fees (((key, tx) :: entries).*2))
    with (Amount (Erc20Fee tx) + sum_fees entries.*2) in Hsum.
  pose proof (sum_fees_nonneg _ Hrest) as Hrest0.
  pose proof (sum_fees_nonneg _ Hvis) as Hvis0.
  assert (exists bm1 cm1,
    createBatchFees_cb maxElements (bm, cm) key tx = Done ((bm1, cm1), false)
    /\ batch_fees_of (int_of_uint maxElements) (visited ++ [tx]) bm1 cm1)
    as (bm1 & cm1 & Hcb & Hinv1).
  { set (c0 := Contract (Erc20Fee tx)).
    pose proof (Hinv c0) as [Hcm Hbm]. cbn zeta in Hcm, Hbm.
    pose proof (sum_fees_filter_le
                  (fun tx => Contract (Erc20Fee tx) = c0) visited Hvis)
      as Hl0.
    assert (forall c, c <> c0 ->
              filter (fun tx => Contract (Erc20Fee tx) = c) (visited ++ [tx])%list
              = filter (fun tx => Contract (Erc20Fee tx) = c) visited)
      as Hother.
    { intros c Hc. rewrite filter_app, filter_cons_False, filter_nil,
        app_nil_r; [done|]. fold c0. congruence. }
    assert (filter (fun tx => Contract (Erc20Fee tx) = c0) (visited ++ [tx])%list
            = (filter (fun tx => Contract (Erc20Fee tx) = c0) visited ++ [tx])%list)
      as Hsame.
    { by rewrite filter_app, filter_cons_True, filter_nil. }
    unfold createBatchFees_cb. fold c0.
    set (l0 := filter (fun tx => Contract (Erc20Fee tx) = c0) visited) in *.
    destruct (Z.ltb_spec (default 0 (cm !! c0)) (int_of_uint maxElements))
      as [Hlt|Hge].
    - (* the transfer is counted *)
      assert (Z.of_nat (length l0) < int_of_uint maxElements) as Hlen.
      { rewrite Hcm in Hlt. destruct l0; simpl in *; lia. }
      assert (default 0 (cm !! c0) = Z.of_nat (length l0)) as Hcount.
      { rewrite Hcm. destruct l0; simpl in *; lia. }
      unfold addFeeToMap. fold c0. rewrite Hcount.
      rewrite wrap_int64_small by lia.
      assert (take (Z.to_nat (int_of_uint maxElements)) (l0 ++ [tx])%list
              = (l0 ++ [tx])%list) as Htake.
      { apply take_ge. rewrite length_app. simpl. lia. }
      assert (forall bm1,
        bm1 !! c0 = Some (mkBatchFees (mkEthAddress c0)
                            (sum_fees l0 + Amount (Erc20Fee tx))) ->
        (forall c, c <> c0 -> bm1 !! c = bm !! c) ->
        batch_fees_of (int_of_uint maxElements) (visited ++ [tx]) bm1
          (<[c0 := Z.of_nat (length l0) + 1]> cm)) as Hfinish.
      { intros bm1 Hbm1 Hbm1' c. cbn zeta.
        destruct (decide (c = c0)) as [->|Hc].
        - rewrite Hsame. fold l0. rewrite lookup_insert_eq, Hbm1, Htake.
          rewrite sum_fees_app.
          change (sum_fees [tx]) with (Amount (Erc20Fee tx) + 0).
          rewrite Z.add_0_r, length_app. simpl.
          destruct (l0 ++ [tx])%list eqn:Hl; [by destruct l0|].
          split; [f_equal; lia|done].
        - rewrite Hother, lookup_insert_ne, Hbm1' by done. apply Hinv. }
      destruct (bm !! c0) as [b|] eqn:Hb.
      + assert (b = mkBatchFees (mkEthAddress c0) (sum_fees l0)) as ->.
        { destruct l0 as [|tx0 l0'] eqn:Hl0eq; [done|].
          injection Hbm as ->. f_equal. f_equal. apply take_ge. lia. }
        cbn [TotalFees Token].
        rewrite Int_Add_small by lia. cbn [exec_bind].
        eexists _, _. split; [done|]. apply Hfinish.
        * by rewrite lookup_insert_eq.
        * intros c Hc. by rewrite lookup_insert_ne.
      + assert (l0 = []) as Hnil by (destruct l0; done).
        cbn [exec_bind].
        eexists _, _. split; [done|]. apply Hfinish.
        * rewrite lookup_insert_eq, Hnil. done.
        * intros c Hc. by rewrite lookup_insert_ne.
    - (* the cap of the contract is reached *)
      exists bm, cm. split; [done|]. intros c. cbn zeta.
      destruct (decide (c = c0)) as [->|Hc].
      + rewrite Hsame. fold l0.
        assert (int_of_uint maxElements <= Z.of_nat (length l0)) as Hlen.
        { rewrite Hcm in Hge. destruct l0; simpl in *; lia. }
        rewrite Hcm, Hbm, length_app, take_app_le by lia.
        destruct l0 as [|tx0 l0']; [simpl in Hlen; lia|].
        simpl in Hlen |- *. split; [|done]. apply (f_equal Some). lia.
      + rewrite Hother by done. apply Hinv. }
  cbn [iterate_entries]. rewrite Hcb. cbn [exec_bind].
  destruct (IH (visited ++ [tx])%list bm1 cm1) as (bm' & cm' & Hit & Hinv');
    [|done| |done|].
  - apply Forall_app. split; [done|]. by apply Forall_singleton.
  - rewrite sum_fees_app.
    change (sum_fees [tx]) with (Amount (Erc20Fee tx) + 0). lia.
  - exists bm', cm'. split; [done|].
    csimpl. by rewrite (cons_middle tx), app_assoc.
Qed.

Lemma createBatchFees_lookup (store : KVStore) (maxElements : Z) :
  Forall (fun tx => 0 <= Amount (Erc20Fee tx))
    (ReverseIterator store (prefixRange OutgoingTXPoolKey)).*2 ->
  sum_fees (ReverseIterator store (prefixRange OutgoingTXPoolKey)).*2
    < 2 ^ 255 ->
  exists m,
    createBatchFees store maxElements = Done m /\
    forall c : string,
      m !! c =
      match filter (fun tx => Contract (Erc20Fee tx) = c)
              (ReverseIterator store (prefixRange OutgoingTXPoolKey)).*2 with
      | [] => None
      | tx :: l =>
          if Z.leb (int_of_uint maxElements) 0 then None
          else Some (mkBatchFees (mkEthAddress c)
                       (sum_fees (take (Z.to_nat (int_of_uint maxElements))
                                    (tx :: l))))
      end.
Proof.
  intros Hfees Hsum. unfold createBatchFees, IterateUnbatchedTransactions.
  destruct (Z.leb_spec (int_of_uint maxElements) 0) as [Hcap|Hcap].
  - rewrite iterate_createBatchFees_none by done.
    exists ∅. split; [done|]. intros c. rewrite lookup_empty.
    by destruct (filter _ _).
  - destruct (iterate_createBatchFees maxElements
                (ReverseIterator store (prefixRange OutgoingTXPoolKey))
                [] ∅ ∅) as (bm & cm & -> & Hinv); [lia|done|done|done| |].
    { intros c. cbn zeta. by rewrite filter_nil, !lookup_empty. }
    exists bm. split; [done|]. intros c.
    destruct (Hinv c) as [_ Hbm]. cbn zeta in Hbm.
    rewrite app_nil_l in Hbm. rewrite Hbm. by destruct (filter _ _).
Qed.

(** [createBatchFees] returns: on a pool whose fees are non-negative and add
    up below the range of [sdk.Int], the map has an entry for a contract
    exactly when [int(maxElements)] is at least 1 and the pool holds a
    transfer with a fee of that contract, and the entry names the contract
    and the sum of the fees of its first [int(maxElements)] transfers in the
    order of [GetUnbatchedTransactions]. *)
Theorem create_batch_fees_per_contract :
  forall (store : KVStore) (maxElements : Z)
         (txs : list OutgoingTransferTx),
    GetUnbatchedTransactions store = Done txs ->
    Forall (fun tx => 0 <= Amount (Erc20Fee tx)) txs ->
    sum_fees txs < 2 ^ 255 ->
    exists m,
      createBatchFees store maxElements = Done m /\
      forall c : string,
        m !! c =
        match filter (fun tx => Contract (Erc20Fee tx) = c) txs with
        | [] => None
        | tx :: l =>
            if Z.leb (int_of_uint maxElements) 0 then None
            else Some (mkBatchFees (mkEthAddress c)
                         (sum_fees (take (Z.to_nat (int_of_uint maxElements))
                                      (tx :: l))))
        end.
Proof.
  intros store maxElements txs Hget. unfold GetUnbatchedTransactions in Hget.
  rewrite collectUnbatchedTransactions_eq in Hget. injection Hget as <-.
  apply createBatchFees_lookup.
Qed.

Lemma create_batch_fees_per_contract_witness :
  exists m,
    createBatchFees (kvstore Example.after_mixed.2) 1 = Done m /\
    m !! Example.tokenA = Some (mkBatchFees (mkEthAddress Example.tokenA) 10) /\
    m !! Example.tokenB = Some (mkBatchFees (mkEthAddress Example.tokenB) 7) /\
    m !! Example.ustake = None.
Proof.
  destruct (create_batch_fees_per_contract
              (kvstore Example.after_mixed.2) 1
              (ReverseIterator (kvstore Example.after_mixed.2)
                 (prefixRange OutgoingTXPoolKey)).*2)
    as (m & Hm & Hlook).
  - vm_compute. reflexivity.
  - apply (bool_decide_unpack _). vm_compute. reflexivity.
  - vm_compute. reflexivity.
  - exists m. split; [exact Hm|].
    rewrite !Hlook. split_and!; vm_compute; reflexivity.
Defined.

(** ** The two fee queries side by side *)

Lemma GetBatchFeeByTokenType_filter (store : KVStore) (c : string)
    (maxElements : Z) :
  pool_indexed store ->
  Forall (fun tx => 0 <= Amount (Erc20Fee tx))
    (ReverseIterator store (prefixRange OutgoingTXPoolKey)).*2 ->
  sum_fees (ReverseIterator store (prefixRange OutgoingTXPoolKey)).*2
    < 2 ^ 255 ->
  Z.of_nat (length (ReverseIterator store (prefixRange OutgoingTXPoolKey)))
    < 2 ^ 63 ->
  GetUnbatchedTransactionsByContract store (mkEthAddress c)
  = Done (filter (fun tx => Contract (Erc20Fee tx) = c)
            (ReverseIterator store (prefixRange OutgoingTXPoolKey)).*2) /\
  GetBatchFeeByTokenType store (mkEthAddress c) maxElements
  = Done (mkBatchFees (mkEthAddress c)
            (sum_fees
               (take (batch_size maxElements
                        (length
                           (filter (fun tx => Contract (Erc20Fee tx) = c)
                              (ReverseIterator store
                                 (prefixRange OutgoingTXPoolKey)).*2)))
                  (filter (fun tx => Contract (Erc20Fee tx) = c)
                     (ReverseIterator store
                        (prefixRange OutgoingTXPoolKey)).*2)))).
Proof.
  intros Hidx Hfees Hsum Hlen.
  set (txs := (ReverseIterator store (prefixRange OutgoingTXPoolKey)).*2) in *.
  assert (GetUnbatchedTransactionsByContract store (mkEthAddress c)
          = Done (filter (fun tx => Contract (Erc20Fee tx) = c) txs)) as Hget.
  { unfold GetUnbatchedTransactionsByContract.
    rewrite collectUnbatchedTransactions_eq. f_equal. symmetry.
    by apply by_contract_is_filter. }
  split; [exact Hget|].
  apply GetBatchFeeByTokenType_sum; [done|done| | |].
  - rewrite Forall_forall in Hfees |- *. intros tx Htx.
    apply list_elem_of_filter in Htx as [_ Htx]. auto.
  - pose proof (sum_fees_filter_le
                  (fun tx => Contract (Erc20Fee tx) = c) txs Hfees). lia.
  - pose proof (length_filter (fun tx => Contract (Erc20Fee tx) = c) txs)
      as Hle.
    unfold txs in Hle at 2. rewrite length_fmap in Hle. lia.
Qed.

(** For a cap [int(maxElements)] of at least 1, on a pool kept under the
    keys of its entries whose fees are non-negative and add up below the
    range of [sdk.Int]: [GetAllBatchFees] returns, and its result holds
    exactly what [GetBatchFeeByTokenType] returns for the contracts that
    have a pending transfer. *)
Theorem all_batch_fees_agree_with_batch_fee_by_token :
  forall (rangeOrder : gmap string BatchFees -> list (string * BatchFees))
         (store : KVStore) (maxElements : Z)
         (txs : list OutgoingTransferTx),
    range_order rangeOrder ->
    pool_indexed store ->
    GetUnbatchedTransactions store = Done txs ->
    Forall (fun tx => 0 <= Amount (Erc20Fee tx)) txs ->
    sum_fees txs < 2 ^ 255 ->
    Z.of_nat (length txs) < 2 ^ 63 ->
    1 <= int_of_uint maxElements ->
    exists out,
      GetAllBatchFees rangeOrder store maxElements = Done out /\
      forall b : BatchFees,
        b ∈ out <->
        exists tx,
          tx ∈ txs /\
          GetBatchFeeByTokenType store
            (mkEthAddress (Contract (Erc20Fee tx))) maxElements = Done b.
Proof.
  intros rangeOrder store maxElements txs Hrange Hidx Hget Hfees Hsum Hlen
    Hcap.
  unfold GetUnbatchedTransactions in Hget.
  rewrite collectUnbatchedTransactions_eq in Hget. injection Hget as <-.
  destruct (createBatchFees_lookup store maxElements Hfees Hsum)
    as (m & Hm & Hlook).
  unfold GetAllBatchFees. rewrite Hm. cbn [exec_bind].
  eexists. split; [done|]. intros b.
  rewrite fold_left_append_values, app_nil_l.
  rewrite sort_Slice_Permutation, (Hrange m).
  rewrite length_fmap in Hlen.
  assert (forall c,
    GetBatchFeeByTokenType store (mkEthAddress c) maxElements = Done b <->
    b = mkBatchFees (mkEthAddress c)
          (sum_fees
             (take (Z.to_nat (int_of_uint maxElements))
                (filter (fun tx => Contract (Erc20Fee tx) = c)
                   (ReverseIterator store
                      (prefixRange OutgoingTXPoolKey)).*2)))) as Hone.
  { intros c.
    destruct (GetBatchFeeByTokenType_filter store c maxElements
                Hidx Hfees Hsum Hlen) as [_ ->].
    unfold batch_size.
    destruct (Z.ltb_spec 0 (int_of_uint maxElements)); [|lia].
    split; [by intros [= <-]|by intros ->]. }
  split.
  - intros Hin. apply list_elem_of_fmap in Hin as ([c b'] & -> & Hin).
    apply elem_of_map_to_list in Hin. simpl. rewrite Hlook in Hin.
    destruct (filter _ _) as [|tx l] eqn:Hfilter; [done|].
    destruct (Z.leb_spec (int_of_uint maxElements) 0); [lia|].
    injection Hin as <-.
    assert (tx ∈ filter (fun tx => Contract (Erc20Fee tx) = c)
                   (ReverseIterator store
                      (prefixRange OutgoingTXPoolKey)).*2) as Htx
      by (rewrite Hfilter; left).
    apply list_elem_of_filter in Htx as [Hc Htx].
    exists tx. split; [done|]. rewrite Hc. apply Hone. by rewrite Hfilter.
  - intros (tx & Htx & Hb). apply Hone in Hb.
    apply list_elem_of_fmap. exists (Contract (Erc20Fee tx), b).
    split; [done|]. apply elem_of_map_to_list. rewrite Hlook.
    destruct (filter _ _) as [|tx' l] eqn:Hfilter.
    + assert (tx ∈ filter
                     (fun tx0 => Contract (Erc20Fee tx0)
                                 = Contract (Erc20Fee tx))
                     (ReverseIterator store
                        (prefixRange OutgoingTXPoolKey)).*2) as Hin
        by (by apply list_elem_of_filter).
      rewrite Hfilter in Hin. by apply elem_of_nil in Hin.
    + destruct (Z.leb_spec (int_of_uint maxElements) 0); [lia|].
      by rewrite Hb.
Qed.

Lemma all_batch_fees_agree_with_batch_fee_by_token_witness :
  exists out,
    GetAllBatchFees map_to_list (kvstore Example.after_mixed.2) 1
    = Done out /\
    (mkBatchFees (mkEthAddress Example.tokenB) 7 ∈ out <->
     exists tx,
       tx ∈ (ReverseIterator (kvstore Example.after_mixed.2)
               (prefixRange OutgoingTXPoolKey)).*2 /\
       GetBatchFeeByTokenType (kvstore Example.after_mixed.2)
         (mkEthAddress (Contract (Erc20Fee tx))) 1
       = Done (mkBatchFees (mkEthAddress Example.tokenB) 7)).
Proof.
  destruct (all_batch_fees_agree_with_batch_fee_by_token
              map_to_list (kvstore Example.after_mixed.2) 1
              (ReverseIterator (kvstore Example.after_mixed.2)
                 (prefixRange OutgoingTXPoolKey)).*2)
    as (out & Hout & Hagree).
  - intros m. reflexivity.
  - apply pool_indexed_map_Forall.
    apply (bool_decide_unpack _). vm_compute. reflexivity.
  - vm_compute. reflexivity.
  - apply (bool_decide_unpack _). vm_compute. reflexivity.
  - vm_compute. reflexivity.
  - vm_compute. reflexivity.
  - vm_compute. intros H. discriminate H.
  - exists out. split; [exact Hout|]. apply Hagree.
Defined.

Lemma sum_fees_take_le (n : nat) (l : list OutgoingTransferTx) :
  Forall (fun tx => 0 <= Amount (Erc20Fee tx)) l ->
  0 <= sum_fees (take n l) <= sum_fees l.
Proof.
  intros Hl. revert n. induction Hl as [|tx l Htx Hl IH]; intros n.
  - by rewrite take_nil.
  - destruct n as [|n].
    + pose proof (sum_fees_nonneg l Hl).
      change (sum_fees (tx :: l)) with (Amount (Erc20Fee tx) + sum_fees l).
      rewrite take_0. change (sum_fees []) with 0. lia.
    + change (sum_fees (tx :: l)) with (Amount (Erc20Fee tx) + sum_fees l).
      change (sum_fees (take (S n) (tx :: l)))
        with (Amount (Erc20Fee tx) + sum_fees (take n l)).
      specialize (IH n). lia.
Qed.

(** [GetBatchFeeByTokenType] over the whole range of its [uint] cap, on a
    pool kept under the keys of its entries whose fees of the contract are
    non-negative and add up below the range of [sdk.Int]: it returns a
    summary of the contract asked for; a cap from 1 to [2^63 - 1] gives the
    sum of the fees of the first [maxElements] transfers in fee priority; a
    cap of 0 and a cap from [2^63] on give the sum of all fees; the total is
    never more than the sum of all fees of the contract. *)
Theorem batch_fee_by_token_is_capped_sum :
  forall (store : KVStore) (c : string) (maxElements : Z)
         (txs : list OutgoingTransferTx),
    pool_indexed store ->
    GetUnbatchedTransactionsByContract store (mkEthAddress c) = Done txs ->
    Forall (fun tx => 0 <= Amount (Erc20Fee tx)) txs ->
    sum_fees txs < 2 ^ 255 ->
    Z.of_nat (length txs) < 2 ^ 63 ->
    0 <= maxElements < 2 ^ 64 ->
    exists total,
      GetBatchFeeByTokenType store (mkEthAddress c) maxElements
      = Done (mkBatchFees (mkEthAddress c) total) /\
      (1 <= maxElements < 2 ^ 63 ->
       total = sum_fees (take (Z.to_nat maxElements) txs)) /\
      (maxElements = 0 \/ 2 ^ 63 <= maxElements -> total = sum_fees txs) /\
      0 <= total <= sum_fees txs.
Proof.
  intros store c maxElements txs Hidx Hget Hfees Hsum Hlen Hmax.
  eexists. split; [by apply GetBatchFeeByTokenType_sum|].
  unfold batch_size, int_of_uint, wrap_int64.
  split_and!.
  - intros Hsmall. rewrite Z.mod_small by lia.
    destruct (Z.ltb_spec 0 (maxElements + 2 ^ 63 - 2 ^ 63)); [|lia].
    do 2 f_equal. lia.
  - intros [->|Hbig].
    + change ((0 + 2 ^ 63) mod 2 ^ 64 - 2 ^ 63) with 0.
      cbn [Z.ltb Z.compare]. by rewrite firstn_all.
    + replace ((maxElements + 2 ^ 63) mod 2 ^ 64)
        with (maxElements - 2 ^ 63).
      * destruct (Z.ltb_spec 0 (maxElements - 2 ^ 63 - 2 ^ 63)); [lia|].
        by rewrite firstn_all.
      * apply Z.mod_unique with (q := 1); lia.
  - by apply sum_fees_take_le.
  - by apply sum_fees_take_le.
Qed.

Lemma batch_fee_by_token_is_capped_sum_witness :
  exists total,
    GetBatchFeeByTokenType (kvstore Example.after_three.2)
      (mkEthAddress Example.tokenA) 2
    = Done (mkBatchFees (mkEthAddress Example.tokenA) total) /\
    (1 <= 2 < 2 ^ 63 ->
     total
     = sum_fees
         (take (Z.to_nat 2)
            (ReverseIterator (kvstore Example.after_three.2)
               (prefixRange (ContractPrefix Example.tokenA))).*2)) /\
    0 <= total.
Proof.
  destruct (batch_fee_by_token_is_capped_sum
              (kvstore Example.after_three.2) Example.tokenA 2
              (ReverseIterator (kvstore Example.after_three.2)
                 (prefixRange (ContractPrefix Example.tokenA))).*2)
    as (total & Hget & Hcap & _ & Hpos & _).
  - apply pool_indexed_map_Forall.
    apply (bool_decide_unpack _). vm_compute. reflexivity.
  - vm_compute. reflexivity.
  - apply (bool_decide_unpack _). vm_compute. reflexivity.
  - vm_compute. reflexivity.
  - vm_compute. reflexivity.
  - lia.
  - exists total. split; [exact Hget|]. split; [exact Hcap|exact Hpos].
Defined.

(** ** The listings and the pool *)

(** [GetUnbatchedTransactions] returns every entry of the pool exactly once,
    and on a pool kept under the keys of its entries
    [GetUnbatchedTransactionsByContract] returns the transfers of that
    listing whose fee is of the contract, in the same order. *)
Theorem listings_cover_the_pool :
  forall store : KVStore,
    pool_indexed store ->
    exists txs,
      GetUnbatchedTransactions store = Done txs /\
      txs ≡ₚ (map_to_list (pool store)).*2 /\
      forall c : string,
        GetUnbatchedTransactionsByContract store (mkEthAddress c)
        = Done (filter (fun tx => Contract (Erc20Fee tx) = c) txs).
Proof.
  intros store Hidx. eexists. split.
  { unfold GetUnbatchedTransactions. apply collectUnbatchedTransactions_eq. }
  split.
  - apply fmap_Permutation, NoDup_Permutation.
    + eapply NoDup_fmap_1, ReverseIterator_NoDup_keys.
    + apply NoDup_map_to_list.
    + intros [key tx]. rewrite elem_of_ReverseIterator, elem_of_map_to_list.
      simpl. tauto.
  - intros c. unfold GetUnbatchedTransactionsByContract.
    rewrite collectUnbatchedTransactions_eq. f_equal. symmetry.
    by apply by_contract_is_filter.
Qed.

Lemma listings_cover_the_pool_witness :
  exists txs,
    GetUnbatchedTransactions (kvstore Example.after_mixed.2) = Done txs /\
    txs ≡ₚ (map_to_list (pool (kvstore Example.after_mixed.2))).*2 /\
    GetUnbatchedTransactionsByContract (kvstore Example.after_mixed.2)
      (mkEthAddress Example.tokenB)
    = Done (filter (fun tx => Contract (Erc20Fee tx) = Example.tokenB) txs).
Proof.
  destruct (listings_cover_the_pool (kvstore Example.after_mixed.2))
    as (txs & Hget & Hperm & Hfilter).
  - apply pool_indexed_map_Forall.
    apply (bool_decide_unpack _). vm_compute. reflexivity.
  - exists txs. split; [exact Hget|]. split; [exact Hperm|]. apply Hfilter.
Defined.
